(** * DocuChat: document extraction, knowledge-base assembly and chat session

    A shallow embedding of the client component [doc-chat.tsx]
    ([extractTextFromFile], [handleProcessDocuments], [handleSend]) and of
    the worker bootstrap [pdfjs-worker.ts] ([ensurePdfjsWorker]).

    Conventions of the embedding:
    - a JavaScript string is a [string] holding its UTF-8 encoding, as a
      Rocq string literal does: a character outside the ASCII range is two,
      three or four bytes.  White space is recognised by code point, over
      the whole table of ECMAScript; case mapping acts on the letters A-Z,
      which is all that the suffix tests of the source depend on;
    - a promise is the outcome it settles with, [Ok v] or [Err e], paired
      with the list of external calls made on the way (the trace);
    - the browser, pdf.js, mammoth, [fetch] and [crypto.randomUUID] are
      oracles, fields of the records [File] and [Env];
    - React state is a record, a handler is a state transformer. *)

From Stdlib Require Import String Ascii List Bool Arith Lia NArith.
From Stdlib Require Import Numbers.DecimalString Numbers.DecimalNat.
Import ListNotations.
Open Scope string_scope.
Open Scope bool_scope.
Open Scope nat_scope.

(* ------------------------------------------------------------------ *)
(** ** JavaScript string operations used by the source *)
(* ------------------------------------------------------------------ *)

Module Js.

(** [String.prototype.toLowerCase], on the letters A-Z; the bytes of a
    character outside the ASCII range are left as they are (no such
    character becomes one of the letters of [.pdf], [.docx] or [.txt]). *)
Definition lowerChar (c : ascii) : ascii :=
  let n := nat_of_ascii c in
  if (65 <=? n) && (n <=? 90) then ascii_of_nat (n + 32) else c.

Fixpoint toLowerCase (s : string) : string :=
  match s with
  | EmptyString => EmptyString
  | String c r => String (lowerChar c) (toLowerCase r)
  end.

(** [s.startsWith(p)]. *)
Fixpoint startsWith (s p : string) {struct p} : bool :=
  match p, s with
  | EmptyString, _ => true
  | String _ _, EmptyString => false
  | String a p', String b s' => Ascii.eqb a b && startsWith s' p'
  end.

(** [s.endsWith(suffix)]: the [suffix.length] last code units of [s] are
    compared with [suffix]; false when [s] is the shorter one. *)
Definition endsWith (s suffix : string) : bool :=
  let len := String.length s in
  let searchLength := String.length suffix in
  if searchLength <=? len
  then String.eqb (substring (len - searchLength) searchLength s) suffix
  else false.

(** [s.includes(sub)]: [sub] starts at some position of [s]. *)
Fixpoint includes (s sub : string) : bool :=
  startsWith s sub ||
  match s with
  | EmptyString => false
  | String _ r => includes r sub
  end.

(** The code points [trim] strips: the WhiteSpace and LineTerminator
    productions of ECMAScript, that is TAB, LF, VT, FF, CR, SP, NBSP, the
    other space separators (U+1680, U+2000 to U+200A, U+202F, U+205F,
    U+3000), LS, PS and U+FEFF. *)
Definition isWhiteSpace (cp : N) : bool :=
  (((0x09 <=? cp) && (cp <=? 0x0D))
   || (cp =? 0x20)
   || (cp =? 0xA0)
   || (cp =? 0x1680)
   || ((0x2000 <=? cp) && (cp <=? 0x200A))
   || (cp =? 0x2028) || (cp =? 0x2029)
   || (cp =? 0x202F)
   || (cp =? 0x205F)
   || (cp =? 0x3000)
   || (cp =? 0xFEFF))%N.

(** A continuation byte of UTF-8, [10xxxxxx]. *)
Definition isCont (c : ascii) : bool :=
  ((0x80 <=? N_of_ascii c) && (N_of_ascii c <=? 0xBF))%N.

(** The code point encoded by one, two or three bytes, in shortest form.
    (Code points of four bytes lie above U+FFFF, where there is no white
    space.) *)
Definition oneByte (c1 : ascii) : option N :=
  if (N_of_ascii c1 <? 0x80)%N then Some (N_of_ascii c1) else None.

Definition twoBytes (c1 c2 : ascii) : option N :=
  if ((0xC2 <=? N_of_ascii c1) && (N_of_ascii c1 <=? 0xDF))%N && isCont c2
  then Some ((N_of_ascii c1 - 0xC0) * 0x40 + (N_of_ascii c2 - 0x80))%N
  else None.

Definition threeBytes (c1 c2 c3 : ascii) : option N :=
  if ((0xE0 <=? N_of_ascii c1) && (N_of_ascii c1 <=? 0xEF))%N && isCont c2 && isCont c3
  then
    let cp := ((N_of_ascii c1 - 0xE0) * 0x1000 + (N_of_ascii c2 - 0x80) * 0x40
               + (N_of_ascii c3 - 0x80))%N in
    if (0x800 <=? cp)%N then Some cp else None
  else None.

Definition whiteSpaceCode (o : option N) : bool :=
  match o with Some cp => isWhiteSpace cp | None => false end.

(** What follows the white space a string starts with, if it starts with
    one. *)
Definition skipWhiteSpace (s : string) : option string :=
  match s with
  | EmptyString => None
  | String c1 r1 =>
      if whiteSpaceCode (oneByte c1) then Some r1
      else
        match r1 with
        | EmptyString => None
        | String c2 r2 =>
            if whiteSpaceCode (twoBytes c1 c2) then Some r2
            else
              match r2 with
              | EmptyString => None
              | String c3 r3 =>
                  if whiteSpaceCode (threeBytes c1 c2 c3) then Some r3 else None
              end
        end
  end.

(** [s.trimStart()]: the leading white space is dropped, one code point
    after the other. *)
Fixpoint trimStart (s : string) : string :=
  match s with
  | EmptyString => EmptyString
  | String c1 r1 =>
      if whiteSpaceCode (oneByte c1) then trimStart r1
      else
        match r1 with
        | EmptyString => s
        | String c2 r2 =>
            if whiteSpaceCode (twoBytes c1 c2) then trimStart r2
            else
              match r2 with
              | EmptyString => s
              | String c3 r3 =>
                  if whiteSpaceCode (threeBytes c1 c2 c3) then trimStart r3 else s
              end
        end
  end.

(** The strings that are empty or made of white space only. *)
Fixpoint allWhiteSpace (s : string) : bool :=
  match s with
  | EmptyString => true
  | String c1 r1 =>
      if whiteSpaceCode (oneByte c1) then allWhiteSpace r1
      else
        match r1 with
        | EmptyString => false
        | String c2 r2 =>
            if whiteSpaceCode (twoBytes c1 c2) then allWhiteSpace r2
            else
              match r2 with
              | EmptyString => false
              | String c3 r3 =>
                  if whiteSpaceCode (threeBytes c1 c2 c3) then allWhiteSpace r3 else false
              end
        end
  end.

(** [s.trimEnd()]: the string is cut where what remains is white space
    only. *)
Fixpoint trimEnd (s : string) : string :=
  match s with
  | EmptyString => EmptyString
  | String c r => if allWhiteSpace s then EmptyString else String c (trimEnd r)
  end.

(** [s.trim()]. *)
Definition trim (s : string) : string := trimEnd (trimStart s).

(** [arr.join(sep)] on an array of strings. *)
Fixpoint join (sep : string) (arr : list string) : string :=
  match arr with
  | [] => EmptyString
  | [x] => x
  | x :: rest => x ++ sep ++ join sep rest
  end.

(** Truthiness of a string: the empty string is falsy. *)
Definition truthy (s : string) : bool := negb (String.eqb s EmptyString).

(** Number of positions of [s] at which [sub] starts (occurrences,
    overlapping ones included). *)
Fixpoint occurrences (sub s : string) : nat :=
  (if startsWith s sub then 1 else 0) +
  match s with
  | EmptyString => 0
  | String _ r => occurrences sub r
  end.

End Js.

(* ------------------------------------------------------------------ *)
(** ** Outcomes, thrown values and traces *)
(* ------------------------------------------------------------------ *)

(** A value thrown or a rejection reason: an [Error] object with its
    [name] and [message], a bare string, or [undefined]. *)
Inductive JsErr : Type :=
| ErrObj (name message : string)
| ErrStr (s : string)
| ErrUndefined.

Inductive Res (A : Type) : Type :=
| Ok (v : A)
| Err (e : JsErr).
Arguments Ok {A} v.
Arguments Err {A} e.

Definition isOk {A} (r : Res A) : bool :=
  match r with Ok _ => true | Err _ => false end.

(** [String(err)]. *)
Definition errToString (err : JsErr) : string :=
  match err with
  | ErrObj n m =>
      if String.eqb n "" then m
      else if String.eqb m "" then n
      else n ++ ": " ++ m
  | ErrStr s => s
  | ErrUndefined => "undefined"
  end.

(** [String(err?.message || err || "")], the text on which the PDF path
    decides whether to retry. *)
Definition errMsg (err : JsErr) : string :=
  match err with
  | ErrObj n m => if Js.truthy m then m else errToString err
  | ErrStr s => if Js.truthy s then s else ""
  | ErrUndefined => ""
  end.

Definition bytes := list Byte.byte.

Inductive Role : Type := user | assistant.

Record ChatMessage : Type := mkMsg {
  id : string;
  role : Role;
  content : string
}.

(** Body of the request sent to [/api/gemini]. *)
Record Request : Type := mkRequest {
  req_knowledgeBase : string;
  req_messages : list (Role * string)
}.

(** External calls, in the order in which they are issued. *)
Inductive Event : Type :=
| EvArrayBuffer (fileName : string)
| EvFileText (fileName : string)
| EvImport (module : string)
| EvGetDocument (disableWorker : bool)
| EvGetPage (i : nat)
| EvGetTextContent (i : nat)
| EvExtractRawText
| EvConsoleError (tag : string) (detail : JsErr)
| EvAlert (text : string)
| EvPreventDefault
| EvRandomUUID
| EvFetch (url : string) (body : Request)
| EvResText
| EvResJson.

Definition Trace := list Event.

(** An asynchronous computation run to completion. *)
Definition M (A : Type) : Type := (Trace * Res A)%type.

Definition ret {A} (a : A) : M A := ([], Ok a).
Definition throw {A} (e : JsErr) : M A := ([], Err e).

Definition bind {A B} (m : M A) (k : A -> M B) : M B :=
  match m with
  | (t, Ok a) => let (t', r) := k a in ((t ++ t')%list, r)
  | (t, Err e) => (t, Err e)
  end.

(** [await] of an external call whose outcome is [r]. *)
Definition call {A} (ev : Event) (r : Res A) : M A := ([ev], r).

(** [try { body } catch (e) { handler e }]. *)
Definition tryCatch {A} (body : M A) (handler : JsErr -> M A) : M A :=
  match body with
  | (t, Ok a) => (t, Ok a)
  | (t, Err e) => let (t', r) := handler e in ((t ++ t')%list, r)
  end.

Declare Scope js_scope.
Delimit Scope js_scope with js.
Notation "x <- m ;; k" := (bind m (fun x => k))
  (at level 61, m at next level, right associativity) : js_scope.
Notation "m ;;; k" := (bind m (fun _ => k))
  (at level 61, right associativity) : js_scope.
Open Scope js_scope.

Definition trace {A} (m : M A) : Trace := fst m.
Definition outcome {A} (m : M A) : Res A := snd m.

(* ------------------------------------------------------------------ *)
(** ** Files and the libraries they are handed to *)
(* ------------------------------------------------------------------ *)

(** A [File]: its two hints and what reading it gives. *)
Record File : Type := mkFile {
  name : string;
  type : string;
  arrayBuffer : Res bytes;      (* getArrayBuffer(file) *)
  text : Res string             (* file.text() *)
}.

(** An item of a page's text content; [str] may be missing. *)
Record TextItem : Type := mkItem { str : option string }.

Record PdfPage : Type := mkPage { getTextContent : Res (list TextItem) }.

Record PdfDoc : Type := mkDoc {
  numPages : nat;
  getPage : nat -> Res PdfPage
}.

Record Env : Type := mkEnv {
  import_pdfjs : Res unit;                       (* import("pdfjs-dist/build/pdf.mjs") *)
  getDocument : bytes -> bool -> Res PdfDoc;     (* getDocument({data, disableWorker}).promise *)
  import_mammoth : Res unit;                     (* import("mammoth") *)
  extractRawText : bytes -> Res (option string); (* result.value, possibly missing *)
  decode : bytes -> string;                      (* new TextDecoder("utf-8", {fatal:false}).decode *)
  randomUUID : nat -> string;                    (* the n-th crypto.randomUUID() *)
  fetch : Request -> Res (bool * nat * Res string * Res string)
                                                 (* res.ok, res.status, res.text(), (res.json()).reply *)
}.

(* ------------------------------------------------------------------ *)
(** ** The format sniffer of [extractTextFromFile] *)
(* ------------------------------------------------------------------ *)

Inductive Format : Type := PDF | DOCX | TXT | Unknown.

Definition MIME_PDF := "application/pdf".
Definition MIME_DOCX :=
  "application/vnd.openxmlformats-officedocument.wordprocessingml.document".
Definition MIME_TXT := "text/plain".

(** The line feed, written [\n] in the source. *)
Definition LF : string := String "010"%char EmptyString.

(** The separator of the knowledge base, [\n\n---\n\n]. *)
Definition SEP : string := LF ++ LF ++ "---" ++ LF ++ LF.

Definition WORKER_MISMATCH := "does not match the Worker version".
Definition WELCOME :=
  "Hi! Your documents are processed. Ask a question and I will answer based on them.".
Definition APOLOGY :=
  "Sorry, something went wrong reaching Gemini. Please try again.".

(** [Promise.all]: every computation is started and runs on; the joint
    promise resolves with all the values, in input order, or rejects when
    one of them does.  The computations run interleaved: the trace records
    which calls are made, laid end to end in input order and not in their
    order in time, and of several rejections the one kept is the first in
    input order where the source keeps the first in time.  Only what does
    not depend on either order is stated of it. *)
Fixpoint promiseAll {A} (ps : list (M A)) : M (list A) :=
  match ps with
  | [] => ([], Ok [])
  | (t1, r1) :: rest =>
      let (t2, r2) := promiseAll rest in
      ((t1 ++ t2)%list,
       match r1, r2 with
       | Ok a, Ok l => Ok (a :: l)
       | Err e, _ => Err e
       | Ok _, Err e => Err e
       end)
  end.

Module DocChat.

(** [const name = (file.name || "").toLowerCase()]. *)
Definition lname (file : File) : string := Js.toLowerCase (name file).

Definition isPDF (file : File) : bool :=
  String.eqb (type file) MIME_PDF || Js.endsWith (lname file) ".pdf".

Definition isDOCX (file : File) : bool :=
  String.eqb (type file) MIME_DOCX || Js.endsWith (lname file) ".docx".

Definition isTXT (file : File) : bool :=
  String.eqb (type file) MIME_TXT || Js.endsWith (lname file) ".txt".

(** The branch taken by the chain [if (isPDF) .. if (isDOCX) .. if (isTXT) ..]. *)
Definition classify (file : File) : Format :=
  if isPDF file then PDF
  else if isDOCX file then DOCX
  else if isTXT file then TXT
  else Unknown.

(** [item.str] as [join] renders it: a missing value gives the empty string. *)
Definition itemStr (item : TextItem) : string :=
  match str item with Some s => s | None => "" end.

(** Opening the document, with the fallback on a worker mismatch. *)
Definition openPdf (env : Env) (data : bytes) : M PdfDoc :=
  tryCatch
    (call (EvGetDocument false) (getDocument env data false))
    (fun err =>
       let msg := errMsg err in
       if Js.includes msg WORKER_MISMATCH
       then call (EvGetDocument true) (getDocument env data true)
       else throw err).

(** [for (let i = 1; i <= pdf.numPages; i++) { ... }], entered at page [i]
    with [remaining] pages to go and [text] accumulated so far. *)
Fixpoint pagesLoop (pdf : PdfDoc) (remaining i : nat) (text : string) : M string :=
  match remaining with
  | 0 => ret text
  | S k =>
      page <- call (EvGetPage i) (getPage pdf i) ;;
      content <- call (EvGetTextContent i) (getTextContent page) ;;
      let text := text ++ Js.join " " (map itemStr content) in
      let text := text ++ LF in
      pagesLoop pdf k (S i) text
  end.

(** [file.text()], and on failure the decoded byte buffer. *)
Definition readAsText (env : Env) (file : File) : M string :=
  tryCatch
    (call (EvFileText (name file)) (text file))
    (fun _ =>
       buffer <- call (EvArrayBuffer (name file)) (arrayBuffer file) ;;
       ret (decode env buffer)).

Definition extractTextFromFile (env : Env) (file : File) : M string :=
  tryCatch
    (if isPDF file then
       buffer <- call (EvArrayBuffer (name file)) (arrayBuffer file) ;;
       _ <- call (EvImport "pdfjs-dist/build/pdf.mjs") (import_pdfjs env) ;;
       pdf <- openPdf env buffer ;;
       text <- pagesLoop pdf (numPages pdf) 1 "" ;;
       ret (Js.trim text)
     else if isDOCX file then
       buffer <- call (EvArrayBuffer (name file)) (arrayBuffer file) ;;
       _ <- call (EvImport "mammoth") (import_mammoth env) ;;
       value <- call EvExtractRawText (extractRawText env buffer) ;;
       ret (match value with
            | Some v => if Js.truthy v then v else ""
            | None => ""
            end)
     else if isTXT file then readAsText env file
     else readAsText env file)
    (fun e =>
       call (EvConsoleError "[v0] extractTextFromFile error:" e) (Ok tt) ;;;
       throw e).

(** The assembler: [texts.join("\n\n---\n\n")]. *)
Definition assemble (texts : list string) : string := Js.join SEP texts.

(* ---------------------------------------------------------------- *)
(** *** Component state and handlers *)
(* ---------------------------------------------------------------- *)

(** The [useState] cells of [DocChat]; [uuidCount] counts the identifiers
    drawn so far from [crypto.randomUUID]. *)
Record State : Type := mkState {
  files : list File;
  knowledgeBase : string;
  isReady : bool;
  messages : list ChatMessage;
  input : string;
  isSending : bool;
  uuidCount : nat
}.

(** A handler: trace, final state and completion. *)
Definition H (A : Type) : Type := State -> (Trace * State * Res A)%type.

Definition hret {A} (a : A) : H A := fun st => ([], st, Ok a).
Definition hthrow {A} (e : JsErr) : H A := fun st => ([], st, Err e).

Definition hbind {A B} (m : H A) (k : A -> H B) : H B := fun st =>
  match m st with
  | (t, st1, Ok a) =>
      match k a st1 with (t', st2, r) => ((t ++ t')%list, st2, r) end
  | (t, st1, Err e) => (t, st1, Err e)
  end.

Definition lift {A} (m : M A) : H A := fun st => (fst m, st, snd m).

Definition hTryCatch {A} (body : H A) (handler : JsErr -> H A) : H A := fun st =>
  match body st with
  | (t, st1, Ok a) => (t, st1, Ok a)
  | (t, st1, Err e) =>
      match handler e st1 with (t', st2, r) => ((t ++ t')%list, st2, r) end
  end.

(** [try { body } finally { fin }], for a [fin] that completes normally or
    throws in its turn. *)
Definition hFinally {A} (body : H A) (fin : H unit) : H A := fun st =>
  match body st with
  | (t, st1, r) =>
      match fin st1 with
      | (t', st2, Ok _) => ((t ++ t')%list, st2, r)
      | (t', st2, Err e) => ((t ++ t')%list, st2, Err e)
      end
  end.

Notation "x <~ m ;; k" := (hbind m (fun x => k))
  (at level 61, m at next level, right associativity) : js_scope.
Notation "m ;;> k" := (hbind m (fun _ => k))
  (at level 61, right associativity) : js_scope.

Definition setKnowledgeBase (kb : string) : H unit := fun st =>
  ([], mkState (files st) kb (isReady st) (messages st) (input st)
               (isSending st) (uuidCount st), Ok tt).

Definition setIsReady (b : bool) : H unit := fun st =>
  ([], mkState (files st) (knowledgeBase st) b (messages st) (input st)
               (isSending st) (uuidCount st), Ok tt).

Definition setMessages (f : list ChatMessage -> list ChatMessage) : H unit := fun st =>
  ([], mkState (files st) (knowledgeBase st) (isReady st) (f (messages st))
               (input st) (isSending st) (uuidCount st), Ok tt).

Definition setInput (s : string) : H unit := fun st =>
  ([], mkState (files st) (knowledgeBase st) (isReady st) (messages st) s
               (isSending st) (uuidCount st), Ok tt).

Definition setIsSending (b : bool) : H unit := fun st =>
  ([], mkState (files st) (knowledgeBase st) (isReady st) (messages st)
               (input st) b (uuidCount st), Ok tt).

(** What [crypto.randomUUID()] does at its [n]-th call: it returns an
    identifier, or throws (outside a secure context the browser leaves the
    function undefined and the call is a [TypeError]). *)
Definition Crypto : Type := nat -> Res string.

(** The generator of a browser that provides it: every call returns. *)
Definition secure (env : Env) : Crypto := fun n => Ok (randomUUID env n).

Definition newIdWith (crypto : Crypto) : H string := fun st =>
  ([EvRandomUUID],
   mkState (files st) (knowledgeBase st) (isReady st) (messages st)
           (input st) (isSending st) (S (uuidCount st)),
   crypto (uuidCount st)).

(** [crypto.randomUUID()] in a browser that provides it. *)
Definition newId (env : Env) : H string := newIdWith (secure env).

Definition consoleError (tag : string) (detail : JsErr) : H unit :=
  lift (call (EvConsoleError tag detail) (Ok tt)).

(** The handlers are written over the generator the browser has,
    [handleProcessDocumentsWith] and [handleSendWith];
    [handleProcessDocuments] and [handleSend] are the handlers of a browser
    that provides [crypto.randomUUID]. *)
Definition handleProcessDocumentsWith (crypto : Crypto) (env : Env) : H unit := fun st0 =>
  let hasFiles := 0 <? List.length (files st0) in
  if negb hasFiles then hret tt st0
  else
    (setIsSending true ;;>
     hFinally
       (hTryCatch
          (texts <~ lift (promiseAll (map (extractTextFromFile env) (files st0))) ;;
           let kb := assemble texts in
           setKnowledgeBase kb ;;>
           setIsReady true ;;>
           uuid <~ newIdWith crypto ;;
           setMessages (fun _ => [mkMsg uuid assistant WELCOME]))
          (fun err =>
             consoleError "[v0] Error processing files:" err ;;>
             lift (call (EvAlert "Error processing files. Check the console for details.")
                        (Ok tt))))
       (setIsSending false)) st0.

Definition handleProcessDocuments (env : Env) : H unit :=
  handleProcessDocumentsWith (secure env) env.

(** [err?.message || err], what the chat handler logs. *)
Definition messageOrErr (err : JsErr) : JsErr :=
  match err with
  | ErrObj _ m => if Js.truthy m then ErrStr m else err
  | _ => err
  end.

Definition showNat (n : nat) : string := NilEmpty.string_of_uint (Nat.to_uint n).

Definition handleSendWith (crypto : Crypto) (env : Env) : H unit := fun st0 =>
  (lift (call EvPreventDefault (Ok tt)) ;;>
   if negb (Js.truthy (Js.trim (input st0))) || isSending st0 || negb (isReady st0)
   then hret tt
   else
     uuid <~ newIdWith crypto ;;
     let userMsg := mkMsg uuid user (Js.trim (input st0)) in
     setMessages (fun m => (m ++ [userMsg])%list) ;;>
     setInput "" ;;>
     setIsSending true ;;>
     hFinally
       (hTryCatch
          (let body :=
             mkRequest (knowledgeBase st0)
               (map (fun m => (role m, content m)) (messages st0 ++ [userMsg])%list) in
           res <~ lift (call (EvFetch "/api/gemini" body) (fetch env body)) ;;
           let '(ok, status, resText, resJson) := res in
           (if negb ok
            then
              t <~ lift (call EvResText resText) ;;
              hthrow (ErrObj "Error" ("API error (" ++ showNat status ++ "): " ++ t))
            else hret tt) ;;>
           reply <~ lift (call EvResJson resJson) ;;
           uuid <~ newIdWith crypto ;;
           let aiMsg := mkMsg uuid assistant reply in
           setMessages (fun m => (m ++ [aiMsg])%list))
          (fun err =>
             consoleError "[v0] Chat error:" (messageOrErr err) ;;>
             uuid <~ newIdWith crypto ;;
             setMessages (fun m => (m ++ [mkMsg uuid assistant APOLOGY])%list)))
       (setIsSending false)) st0.

Definition handleSend (env : Env) : H unit := handleSendWith (secure env) env.

End DocChat.

(* ------------------------------------------------------------------ *)
(** ** The earlier copy of the component, [src/components/doc-chat.tsx] *)
(* ------------------------------------------------------------------ *)

(** The copy kept from the original Vite code sniffs and reads PDF pages
    differently; its handlers are the same text as above. *)
Module Legacy.

(** The branch taken by [if (file.type === "application/pdf") .. else if
    (file.name.toLowerCase().endsWith(".docx")) .. else ..]; the last
    branch is the one commented "TXT or others". *)
Definition classify (file : File) : Format :=
  if String.eqb (type file) MIME_PDF then PDF
  else if Js.endsWith (Js.toLowerCase (name file)) ".docx" then DOCX
  else TXT.

Fixpoint pagesLoop (pdf : PdfDoc) (remaining i : nat) (text : string) : M string :=
  match remaining with
  | 0 => ret text
  | S k =>
      page <- call (EvGetPage i) (getPage pdf i) ;;
      content <- call (EvGetTextContent i) (getTextContent page) ;;
      let text := text ++ Js.join " " (map DocChat.itemStr content) in
      pagesLoop pdf k (S i) text
  end.

(** [reader.readAsArrayBuffer(file)] settles with the file's buffer
    ([onload]) or rejects ([onerror]); [onload] then dispatches. *)
Definition extractTextFromFile (env : Env) (file : File) : M string :=
  buffer <- call (EvArrayBuffer (name file)) (arrayBuffer file) ;;
  match classify file with
  | PDF =>
      pdf <- call (EvGetDocument false) (getDocument env buffer false) ;;
      pagesLoop pdf (numPages pdf) 1 ""
  | DOCX =>
      value <- call EvExtractRawText (extractRawText env buffer) ;;
      ret (match value with Some v => v | None => "" end)
  | _ => ret (decode env buffer)
  end.

End Legacy.

(* ------------------------------------------------------------------ *)
(** ** The worker bootstrap, [ensurePdfjsWorker] *)
(* ------------------------------------------------------------------ *)

Module PdfjsWorker.

Definition PDFJS_VERSION := "5.4.296".

Definition WORKER_URL :=
  "https://cdn.jsdelivr.net/npm/pdfjs-dist@" ++ PDFJS_VERSION
  ++ "/build/pdf.worker.min.mjs".

(** The two halves of the configuration side effect. *)
Inductive Effect : Type :=
| Import                              (* import("pdfjs-dist/build/pdf.mjs") *)
| WriteWorkerSrc (url : string).      (* GlobalWorkerOptions.workerSrc = url *)

(** Module-level state: the flag, the configured value, and the effects
    applied so far, oldest first. *)
Record Global : Type := mkGlobal {
  initialized : bool;
  workerSrc : option string;
  effects : list Effect
}.

(** Where a call of [ensurePdfjsWorker] stands.  An [async] function runs
    up to its first [await] when called and is resumed later; the only
    suspension point is the [await import(..)]. *)
Inductive Pc : Type :=
| Entry
| AwaitingImport
| Returned
| Rejected (e : JsErr).

(** [typeof window !== "undefined"], and how the import issued by each
    call settles. *)
Record Host : Type := mkHost {
  hasWindow : bool;
  importResult : nat -> Res unit
}.

(** One uninterrupted run of call number [cid], from where it stands to
    its next suspension point or to its end. *)
Definition stepCall (host : Host) (cid : nat) (g : Global) (pc : Pc) : Global * Pc :=
  match pc with
  | Entry =>
      if initialized g then (g, Returned)
      else if negb (hasWindow host) then (g, Returned)
      else (mkGlobal (initialized g) (workerSrc g) (effects g ++ [Import])%list,
            AwaitingImport)
  | AwaitingImport =>
      match importResult host cid with
      | Ok _ =>
          (mkGlobal true (Some WORKER_URL)
                    (effects g ++ [WriteWorkerSrc WORKER_URL])%list,
           Returned)
      | Err e => (g, Rejected e)
      end
  | Returned => (g, Returned)
  | Rejected e => (g, Rejected e)
  end.

(** The module state and the calls in progress. *)
Definition System : Type := (Global * list Pc)%type.

Fixpoint setNth {A} (n : nat) (a : A) (l : list A) : list A :=
  match l, n with
  | [], _ => []
  | _ :: r, 0 => a :: r
  | x :: r, S k => x :: setNth k a r
  end.

(** Call [cid] is given the processor. *)
Definition resume (host : Host) (sys : System) (cid : nat) : System :=
  match nth_error (snd sys) cid with
  | Some pc =>
      let (g', pc') := stepCall host cid (fst sys) pc in
      (g', setNth cid pc' (snd sys))
  | None => sys
  end.

(** A schedule names the calls in the order in which they run. *)
Definition run (host : Host) (schedule : list nat) (sys : System) : System :=
  fold_left (resume host) schedule sys.

Definition initial (calls : nat) : System :=
  (mkGlobal false None [], repeat Entry calls).

Definition isImport (e : Effect) : bool :=
  match e with Import => true | _ => false end.
Definition isWrite (e : Effect) : bool :=
  match e with WriteWorkerSrc _ => true | _ => false end.

Definition imports (sys : System) : nat :=
  List.length (filter isImport (effects (fst sys))).
Definition writes (sys : System) : nat :=
  List.length (filter isWrite (effects (fst sys))).

End PdfjsWorker.

(* ------------------------------------------------------------------ *)
(** ** What the component renders, and the user's gestures *)
(* ------------------------------------------------------------------ *)

Module DocChatUi.

Import DocChat.

Definition setFiles (fs : list File) : H unit := fun st =>
  ([], mkState fs (knowledgeBase st) (isReady st) (messages st) (input st)
               (isSending st) (uuidCount st), Ok tt).

(** [handleFileChange]: [e.target.files] may be null; resetting the
    element's value afterwards does not touch the state. *)
Definition handleFileChange (list : option (list File)) : H unit :=
  match list with
  | None => hret tt
  | Some l => setFiles l
  end.

(** The [useState] defaults. *)
Definition initialState : State := mkState [] "" false [] "" false 0.

(** [const hasFiles = files.length > 0]. *)
Definition hasFiles (st : State) : bool := 0 <? List.length (files st).

(** [!isReady ? <upload panel> : <chat panel>]. *)
Definition showsUpload (st : State) : bool := negb (isReady st).

(** [disabled={!hasFiles || isSending}] of the Process button. *)
Definition processDisabled (st : State) : bool := negb (hasFiles st) || isSending st.

(** [disabled={isSending}] of the chat input. *)
Definition inputDisabled (st : State) : bool := isSending st.

(** [disabled={!input.trim() || isSending}] of the Send button. *)
Definition sendDisabled (st : State) : bool :=
  negb (Js.truthy (Js.trim (input st))) || isSending st.

(** What the user can do to the rendered component. *)
Inductive Gesture : Type :=
| PickFiles (list : option (list File))   (* onChange of the file input *)
| ClickProcess                            (* onClick of the Process button *)
| TypeInput (value : string)              (* onChange of the chat input *)
| SubmitForm.                             (* onSubmit of the chat form *)

(** A gesture needs its element rendered and not disabled.  The form can
    be submitted whenever it is rendered: its handler has its own guard. *)
Definition available (st : State) (g : Gesture) : bool :=
  match g with
  | PickFiles _ => showsUpload st
  | ClickProcess => showsUpload st && negb (processDisabled st)
  | TypeInput _ => negb (showsUpload st) && negb (inputDisabled st)
  | SubmitForm => negb (showsUpload st)
  end.

Definition dispatch (env : Env) (g : Gesture) : H unit :=
  match g with
  | PickFiles list => handleFileChange list
  | ClickProcess => handleProcessDocuments env
  | TypeInput value => setInput value
  | SubmitForm => handleSend env
  end.

(** One gesture, taken between two runs of handlers; a gesture on an
    element that is absent or disabled does nothing. *)
Definition act (env : Env) (st : State) (g : Gesture) : State :=
  if available st g then snd (fst (dispatch env g st)) else st.

(** A session: the gestures of the user, in order. *)
Definition play (env : Env) (gs : list Gesture) (st : State) : State :=
  fold_left (act env) gs st.

End DocChatUi.

(* ------------------------------------------------------------------ *)
(** ** The answering route, [app/api/gemini/route.ts] *)
(* ------------------------------------------------------------------ *)

Module GeminiRoute.

Inductive GeminiRole : Type := g_user | g_model.

Definition Contents : Type := list (GeminiRole * string).

(** What the route is given: the parsed body of the request (taken at the
    type the source casts it to; a body that does not parse is a
    rejection), the environment variable, and the hosted model. *)
Record Server : Type := mkServer {
  reqJson : Res Request;                                  (* await req.json() *)
  GEMINI_API_KEY : option string;                         (* process.env.GEMINI_API_KEY *)
  generateContent : string -> string -> Contents -> Res string
      (* key, model name, contents: generateContent(..) then result.response.text() *)
}.

Inductive ServerEvent : Type :=
| SvReqJson
| SvGenerateContent (apiKey model : string) (contents : Contents)
| SvConsoleError (tag : string) (detail : JsErr).

Inductive Body : Type :=
| TextBody (s : string)          (* new Response(s, ..) *)
| JsonReply (reply : string).    (* Response.json({ reply }) *)

Record Response : Type := mkResponse { status : nat; body : Body }.

(** A run of the route: the calls it made and how it ended. *)
Definition R (A : Type) : Type := (list ServerEvent * Res A)%type.

Definition rret {A} (a : A) : R A := ([], Ok a).

Definition rbind {A B} (m : R A) (k : A -> R B) : R B :=
  match m with
  | (t, Ok a) => let (t', r) := k a in ((t ++ t')%list, r)
  | (t, Err e) => (t, Err e)
  end.

Definition rcall {A} (ev : ServerEvent) (r : Res A) : R A := ([ev], r).

Definition rTryCatch {A} (body : R A) (handler : JsErr -> R A) : R A :=
  match body with
  | (t, Ok a) => (t, Ok a)
  | (t, Err e) => let (t', r) := handler e in ((t ++ t')%list, r)
  end.

Declare Scope route_scope.
Notation "x <- m ;; k" := (rbind m (fun x => k))
  (at level 61, m at next level, right associativity) : route_scope.
Notation "m ;;; k" := (rbind m (fun _ => k))
  (at level 61, right associativity) : route_scope.
Local Open Scope route_scope.

(** The template literal of [systemPrompt], before [.trim()]. *)
Definition promptTemplate (knowledgeBase : string) : string :=
  LF ++ "You are a friendly and helpful AI assistant." ++
  LF ++ "You must answer only using the provided document text below." ++
  LF ++ "If the answer is not found in the documents,take inferences and try to answer" ++
  LF ++
  LF ++ "--- DOCUMENT CONTENT ---" ++
  LF ++ knowledgeBase ++
  LF.

Definition systemPrompt (knowledgeBase : string) : string :=
  Js.trim (promptTemplate knowledgeBase).

(** [m.role === "user" ? {role: "user", ..} : {role: "model", ..}]. *)
Definition turn (m : Role * string) : GeminiRole * string :=
  match fst m with
  | user => (g_user, snd m)
  | assistant => (g_model, snd m)
  end.

Definition contentsOf (knowledgeBase : string) (messages : list (Role * string))
  : Contents :=
  (g_user, systemPrompt knowledgeBase) :: map turn messages.

Definition MODEL := "gemini-2.5-flash".

(** [!apiKey]: the variable is unset, or empty. *)
Definition keyMissing (k : option string) : bool :=
  match k with
  | Some key => negb (Js.truthy key)
  | None => true
  end.

Definition POST (srv : Server) : R Response :=
  rTryCatch
    (parsed <- rcall SvReqJson (reqJson srv) ;;
     let knowledgeBase := req_knowledgeBase parsed in
     let messages := req_messages parsed in
     let apiKey := GEMINI_API_KEY srv in
     if keyMissing apiKey
     then rret (mkResponse 500 (TextBody "Missing GEMINI_API_KEY"))
     else
       let key := match apiKey with Some key => key | None => "" end in
       let contents := contentsOf knowledgeBase messages in
       text <- rcall (SvGenerateContent key MODEL contents)
                     (generateContent srv key MODEL contents) ;;
       rret (mkResponse 200 (JsonReply text)))
    (fun err =>
       rcall (SvConsoleError "[v0] Gemini route error:" (DocChat.messageOrErr err))
             (Ok tt) ;;;
       rret (mkResponse 500 (TextBody "Failed to generate content"))).

End GeminiRoute.

(* ------------------------------------------------------------------ *)
(** ** The component served by the route *)
(* ------------------------------------------------------------------ *)

Module EndToEnd.

(** The deployment: the key, the hosted model, and how the platform
    writes a JSON body as text. *)
Record Deployment : Type := mkDeployment {
  apiKey : option string;
  model : string -> string -> GeminiRoute.Contents -> Res string;
  stringifyReply : string -> string
}.

(** [res.ok]: the status is in the range 200-299. *)
Definition okStatus (status : nat) : bool := (200 <=? status) && (status <=? 299).

(** What [fetch("/api/gemini", ..)] resolves with when the route answers
    it: the route reads the body the component wrote, and the component
    reads the response the route returned.  A plain-text body is no JSON,
    so [res.json()] rejects on it. *)
Definition fetchRoute (d : Deployment) (body : Request)
  : Res (bool * nat * Res string * Res string) :=
  match snd (GeminiRoute.POST (GeminiRoute.mkServer (Ok body) (apiKey d) (model d))) with
  | Ok resp =>
      Ok (okStatus (GeminiRoute.status resp),
          GeminiRoute.status resp,
          match GeminiRoute.body resp with
          | GeminiRoute.TextBody s => Ok s
          | GeminiRoute.JsonReply r => Ok (stringifyReply d r)
          end,
          match GeminiRoute.body resp with
          | GeminiRoute.TextBody s =>
              Err (ErrObj "SyntaxError" "Unexpected token in JSON")
          | GeminiRoute.JsonReply r => Ok r
          end)
  | Err e => Err e
  end.

(** The browser of [env] with its answering endpoint served by [d]. *)
Definition served (env : Env) (d : Deployment) : Env :=
  mkEnv (import_pdfjs env) (getDocument env) (import_mammoth env)
        (extractRawText env) (decode env) (randomUUID env) (fetchRoute d).

End EndToEnd.

(* ------------------------------------------------------------------ *)
(** ** Notions in which the properties are stated *)
(* ------------------------------------------------------------------ *)

(** The format a declared MIME type stands for, if any: the three strings
    the sniffer compares [file.type] with. *)
Definition mimeFormat (t : string) : option Format :=
  if String.eqb t MIME_PDF then Some PDF
  else if String.eqb t MIME_DOCX then Some DOCX
  else if String.eqb t MIME_TXT then Some TXT
  else None.

(** The format a file name's extension stands for, if any, letter case
    ignored: the three suffixes the sniffer looks for. *)
Definition extFormat (n : string) : option Format :=
  let l := Js.toLowerCase n in
  if Js.endsWith l ".pdf" then Some PDF
  else if Js.endsWith l ".docx" then Some DOCX
  else if Js.endsWith l ".txt" then Some TXT
  else None.

(** Position of a format in the chain of tests of [extractTextFromFile]. *)
Definition rank (f : Format) : nat :=
  match f with PDF => 0 | DOCX => 1 | TXT => 2 | Unknown => 3 end.

Definition earlier (a b : Format) : Format :=
  if rank a <=? rank b then a else b.

(** A file named [scan.pdf] declared as plain text. *)
Definition scan_pdf_as_text : File :=
  mkFile "scan.pdf" "text/plain" (Ok []) (Ok "").

(** A file named [report.PDF] with no declared type. *)
Definition report_PDF : File :=
  mkFile "report.PDF" "" (Ok []) (Ok "").

(** Where the [i]-th text starts in the assembled knowledge base: after
    the texts before it and one separator for each of them. *)
Fixpoint offset (texts : list string) (i : nat) : nat :=
  match i, texts with
  | S k, t :: rest => String.length t + String.length SEP + offset rest k
  | _, _ => 0
  end.

(** A text with a horizontal rule of its own, as a Markdown or plain-text
    file may well contain. *)
Definition text_with_rule : string := "a" ++ SEP ++ "b".

(** The text of one page: its fragments joined with a single space,
    followed by a newline. *)
Definition pageLine (frags : list TextItem) : string :=
  Js.join " " (map DocChat.itemStr frags) ++ LF.

Definition concatAll (l : list string) : string := fold_right append "" l.

(** The text of pages 1 to [n], one after the other. *)
Definition pagesText (frags : nat -> list TextItem) (n : nat) : string :=
  concatAll (map (fun i => pageLine (frags i)) (seq 1 n)).

(** Page [i] of [pdf] can be read and holds the fragments [frags]. *)
Definition pageHolds (pdf : PdfDoc) (i : nat) (frags : list TextItem) : Prop :=
  exists page, getPage pdf i = Ok page /\ getTextContent page = Ok frags.

(** The attempts to open a document recorded in a trace. *)
Definition openAttempts (t : Trace) : list bool :=
  flat_map (fun ev => match ev with EvGetDocument d => [d] | _ => [] end) t.

(** *** White space *)

(** No white space at the start of [t]: no prefix of [t] but the empty
    one is white space only. *)
Definition cleanStart (t : string) : Prop :=
  forall w b, t = w ++ b -> w <> "" -> Js.allWhiteSpace w = false.
(** No white space at the end of [t]. *)
Definition cleanEnd (t : string) : Prop :=
  forall a w, t = a ++ w -> w <> "" -> Js.allWhiteSpace w = false.
(** [t] is [x] without the white space at its two ends. *)
Definition trimmedOf (x t : string) : Prop :=
  exists l r,
    x = l ++ t ++ r /\ Js.allWhiteSpace l = true /\ Js.allWhiteSpace r = true /\
    cleanStart t /\ cleanEnd t.
(** Text of the ASCII range. *)
Definition isAscii (s : string) : bool :=
  forallb (fun c => (N_of_ascii c <? 128)%N) (list_ascii_of_string s).

(** Some white space outside the ASCII range, UTF-8 encoded: U+00A0,
    U+3000, U+FEFF and U+2028. *)
Definition NBSP : string := String "194" (String "160" "").
Definition IDEOGRAPHIC_SPACE : string := String "227" (String "128" (String "128" "")).
Definition BOM : string := String "239" (String "187" (String "191" "")).
Definition LINE_SEPARATOR : string := String "226" (String "128" (String "168" "")).

(** The three components of a handler's run. *)
Definition events {A} (r : Trace * DocChat.State * Res A) : Trace := fst (fst r).
Definition finalState {A} (r : Trace * DocChat.State * Res A) : DocChat.State :=
  snd (fst r).
Definition completion {A} (r : Trace * DocChat.State * Res A) : Res A := snd r.

(** The answering requests recorded in a trace. *)
Definition fetches (t : Trace) : list Request :=
  flat_map (fun ev => match ev with EvFetch _ body => [body] | _ => [] end) t.

Definition isAssistant (m : ChatMessage) : bool :=
  match role m with assistant => true | user => false end.

(** What may follow a text in an assembled knowledge base: nothing, or a
    separator. *)
Definition follows (v : string) : Prop := v = "" \/ exists w, v = SEP ++ w.

(** The extractions launched for the files of a state. *)
Definition extractions (env : Env) (st : DocChat.State) : list (M string) :=
  map (DocChat.extractTextFromFile env) (DocChat.files st).

(** The message built from the input, and the request sent with it. *)
Definition userMsgOf (env : Env) (st : DocChat.State) : ChatMessage :=
  mkMsg (randomUUID env (DocChat.uuidCount st)) user (Js.trim (DocChat.input st)).

Definition requestOf (env : Env) (st : DocChat.State) : Request :=
  mkRequest (DocChat.knowledgeBase st)
            (map (fun m => (role m, content m))
                 (DocChat.messages st ++ [userMsgOf env st])%list).

(** The answering request failed: the network rejected it, or the
    response is not a 2xx one. *)
Definition answeringFails (env : Env) (st : DocChat.State) : Prop :=
  (exists e, fetch env (requestOf env st) = Err e) \/
  (exists status body reply,
     fetch env (requestOf env st) = Ok (false, status, body, reply)).

(** The flag of the bootstrap is up only if [workerSrc] has been written. *)
Definition configured (g : PdfjsWorker.Global) : Prop :=
  PdfjsWorker.initialized g = true ->
  PdfjsWorker.workerSrc g = Some PdfjsWorker.WORKER_URL /\
  In (PdfjsWorker.WriteWorkerSrc PdfjsWorker.WORKER_URL) (PdfjsWorker.effects g).

(** A call that has not started, or has returned: it is not waiting for
    its import. *)
Definition settled (pc : PdfjsWorker.Pc) : Prop :=
  pc = PdfjsWorker.Entry \/ pc = PdfjsWorker.Returned.

(** *** Sample inputs *)

Definition sample_doc : PdfDoc :=
  mkDoc 2 (fun i =>
    Ok (mkPage (Ok (if i =? 1
                    then [mkItem (Some "Hello"); mkItem (Some "world")]
                    else [mkItem (Some "bye")])))).

Definition sample_frags (i : nat) : list TextItem :=
  if i =? 1 then [mkItem (Some "Hello"); mkItem (Some "world")]
  else [mkItem (Some "bye")].

(** A one-page document whose only fragment is [Hello] between a no-break
    space and an ideographic space. *)
Definition padded_doc : PdfDoc :=
  mkDoc 1 (fun _ =>
    Ok (mkPage (Ok [mkItem (Some (NBSP ++ "Hello" ++ IDEOGRAPHIC_SPACE))]))).

Definition mismatch_error : JsErr :=
  ErrObj "Error"
    "The API version 5.4.296 does not match the Worker version 5.3.31.".

Definition invalid_pdf_error : JsErr :=
  ErrObj "InvalidPDFException" "Invalid PDF structure.".

Definition network_error : JsErr := ErrObj "TypeError" "Failed to fetch".

(** A browser in which the worker is of another version than the library
    and the answering endpoint cannot be reached. *)
Definition mismatch_env : Env :=
  mkEnv (Ok tt)
        (fun _ disableWorker =>
           if disableWorker then Ok sample_doc else Err mismatch_error)
        (Ok tt)
        (fun _ => Ok (Some "docx text"))
        (fun _ => "")
        DocChat.showNat
        (fun _ => Err network_error).

(** A browser in which no PDF opens and the endpoint answers 500. *)
Definition broken_env : Env :=
  mkEnv (Ok tt)
        (fun _ _ => Err invalid_pdf_error)
        (Ok tt)
        (fun _ => Ok (Some "docx text"))
        (fun _ => "")
        DocChat.showNat
        (fun _ => Ok (false, 500, Ok "Failed to generate content", Err ErrUndefined)).

(** A browser in which the sample document opens at once. *)
Definition plain_env : Env :=
  mkEnv (Ok tt)
        (fun _ _ => Ok sample_doc)
        (Ok tt)
        (fun _ => Ok (Some "docx text"))
        (fun _ => "")
        DocChat.showNat
        (fun _ => Ok (true, 200, Ok "", Ok "An answer.")).

(** A browser in which the padded document opens at once. *)
Definition padded_env : Env :=
  mkEnv (Ok tt)
        (fun _ _ => Ok padded_doc)
        (Ok tt)
        (fun _ => Ok None)
        (fun _ => "")
        DocChat.showNat
        (fun _ => Err (ErrObj "TypeError" "Failed to fetch")).

Definition paper_pdf : File :=
  mkFile "paper.pdf" "application/pdf" (Ok []) (Ok "").

Definition notes_txt : File :=
  mkFile "notes.txt" "text/plain" (Ok []) (Ok "some notes").

Definition earlier_turn : ChatMessage := mkMsg "m0" user "an earlier question".

(** A session that is ready, with one earlier message and a question typed. *)
Definition ready_state : DocChat.State :=
  DocChat.mkState [notes_txt] "some notes" true [earlier_turn]
                  "  What is this about? " false 7.

(** The generator of a page outside a secure context: every call throws. *)
Definition no_generator : DocChat.Crypto :=
  fun _ => Err (ErrObj "TypeError" "crypto.randomUUID is not a function").

(** A session in which nothing was processed yet. *)
Definition fresh_state (fs : list File) : DocChat.State :=
  DocChat.mkState fs "" false [] "" false 0.

(** A ready session whose user selected two more files and asks for them
    to be processed. *)
Definition reprocess_state : DocChat.State :=
  DocChat.mkState [notes_txt; paper_pdf] "some notes" true [earlier_turn]
                  "" false 7.

(** A ready session with only white space of beyond the ASCII range
    typed: a no-break space, an ideographic space, a byte-order mark. *)
Definition unicode_blank_state : DocChat.State :=
  DocChat.mkState [notes_txt] "some notes" true [earlier_turn]
                  (NBSP ++ IDEOGRAPHIC_SPACE ++ BOM) false 7.

(** A ready session whose question is typed between a no-break space and
    a line separator. *)
Definition padded_question_state : DocChat.State :=
  DocChat.mkState [notes_txt] "some notes" true [earlier_turn]
                  (NBSP ++ "What is this about?" ++ LINE_SEPARATOR) false 7.

(** A ready session with only blanks typed. *)
Definition blank_input_state : DocChat.State :=
  DocChat.mkState [notes_txt] "some notes" true [earlier_turn] "   " false 7.

(** A browser in which every import resolves. *)
Definition browser : PdfjsWorker.Host :=
  PdfjsWorker.mkHost true (fun _ => Ok tt).

(** *** Further notions: what a trace shows *)

(** The errors logged with [console.error]. *)
Definition consoleErrors (t : Trace) : list JsErr :=
  flat_map (fun ev => match ev with EvConsoleError _ e => [e] | _ => [] end) t.

(** The pages asked of a document. *)
Definition pagesRequested (t : Trace) : list nat :=
  flat_map (fun ev => match ev with EvGetPage i => [i] | _ => [] end) t.

(** A computation whose trace shows nothing of the kind [f] selects. *)
Definition quiet {A B} (f : Event -> list B) (m : M A) : Prop :=
  flat_map f (trace m) = [].

(** The alerts raised, and the errors logged under a given label. *)
Definition alerts (t : Trace) : list string :=
  flat_map (fun ev => match ev with EvAlert text => [text] | _ => [] end) t.

Definition loggedUnder (label : string) (t : Trace) : list JsErr :=
  flat_map (fun ev => match ev with
                      | EvConsoleError l e => if String.eqb l label then [e] else []
                      | _ => []
                      end) t.

(** Every extraction of the selection resolves. *)
Definition allResolve (env : Env) (st : DocChat.State) : bool :=
  forallb (fun file => isOk (outcome (DocChat.extractTextFromFile env file)))
          (DocChat.files st).

(** Page [i] of [pdf] cannot be read: the page itself, or its text
    content, is refused with [e]. *)
Definition pageFails (pdf : PdfDoc) (i : nat) (e : JsErr) : Prop :=
  getPage pdf i = Err e \/
  exists page, getPage pdf i = Ok page /\ getTextContent page = Err e.

(** The text of one page in the earlier copy: no newline after it. *)
Definition legacyPageText (frags : list TextItem) : string :=
  Js.join " " (map DocChat.itemStr frags).

(** A three-page document whose second page is damaged. *)
Definition damaged_doc : PdfDoc :=
  mkDoc 3 (fun i =>
    if i =? 2 then Err invalid_pdf_error
    else Ok (mkPage (Ok [mkItem (Some "page")]))).

Definition damaged_env : Env :=
  mkEnv (Ok tt)
        (fun _ _ => Ok damaged_doc)
        (Ok tt)
        (fun _ => Ok None)
        (fun _ => "decoded")
        DocChat.showNat
        (fun _ => Ok (true, 200, Ok "", Err ErrUndefined)).

Definition letter_docx : File :=
  mkFile "Letter.DOCX" "" (Ok []) (Ok "").

(** A file of unknown type whose [text()] is refused. *)
Definition blob_bin : File :=
  mkFile "blob.bin" "application/octet-stream" (Ok []) (Err network_error).

(** *** Further notions: submissions and sessions *)

(** The guard of [handleSend] lets the submission through. *)
Definition accepted (st : DocChat.State) : bool :=
  Js.truthy (Js.trim (DocChat.input st)) && negb (DocChat.isSending st)
  && DocChat.isReady st.

(** What the assistant's message says after an accepted submission: the
    reply of a 2xx response whose JSON is read, the apology otherwise. *)
Definition answerOf (env : Env) (st : DocChat.State) : string :=
  match fetch env (requestOf env st) with
  | Ok (true, _, _, Ok reply) => reply
  | _ => APOLOGY
  end.

(** The state an accepted submission ends in. *)
Definition afterSend (env : Env) (st : DocChat.State) : DocChat.State :=
  DocChat.mkState (DocChat.files st) (DocChat.knowledgeBase st) (DocChat.isReady st)
    (DocChat.messages st ++
       [userMsgOf env st;
        mkMsg (randomUUID env (S (DocChat.uuidCount st))) assistant (answerOf env st)])%list
    "" false (S (S (DocChat.uuidCount st))).

(** What holds between two gestures of a session. *)
Definition idle (st : DocChat.State) : Prop :=
  DocChat.isSending st = false /\
  (DocChat.isReady st = false ->
   DocChat.messages st = [] /\ DocChat.knowledgeBase st = "").

(** The identifiers of the transcript are draws of [crypto.randomUUID],
    each draw used once. *)
Definition drawnIds (env : Env) (st : DocChat.State) : Prop :=
  exists ks,
    map id (DocChat.messages st) = map (randomUUID env) ks /\
    NoDup ks /\
    Forall (fun k => k < DocChat.uuidCount st) ks.

(** The roles of a transcript that opens with the welcome and goes on
    with [n] question-and-answer pairs. *)
Definition welcomeThenPairs (n : nat) : list Role :=
  assistant :: concat (repeat [user; assistant] n).

(** The roles of the transcript of a session. *)
Definition shaped (st : DocChat.State) : Prop :=
  (DocChat.isReady st = false -> DocChat.messages st = []) /\
  (DocChat.isReady st = true ->
   exists n, map role (DocChat.messages st) = welcomeThenPairs n).

(** A browser that draws distinct identifiers. *)
Definition injectiveIds (env : Env) : Prop :=
  forall a b, randomUUID env a = randomUUID env b -> a = b.

(** A session: two files picked, processed, a question typed and sent. *)
Definition sample_session : list DocChatUi.Gesture :=
  [DocChatUi.PickFiles (Some [notes_txt; paper_pdf]);
   DocChatUi.ClickProcess;
   DocChatUi.TypeInput " What is this about? ";
   DocChatUi.SubmitForm].

(** *** Further notions: the route *)

(** The calls of the hosted model recorded by a run of the route. *)
Definition modelCalls (t : list GeminiRoute.ServerEvent)
  : list (string * GeminiRoute.Contents) :=
  flat_map (fun ev => match ev with
                      | GeminiRoute.SvGenerateContent key _ contents => [(key, contents)]
                      | _ => []
                      end) t.

(** The fixed part of the prompt, up to the line that announces the
    documents. *)
Definition INSTRUCTIONS : string :=
  "You are a friendly and helpful AI assistant." ++
  LF ++ "You must answer only using the provided document text below." ++
  LF ++ "If the answer is not found in the documents,take inferences and try to answer" ++
  LF ++
  LF ++ "--- DOCUMENT CONTENT ---".

(** What the assistant says when the route serves the endpoint. *)
Definition servedAnswer (d : EndToEnd.Deployment) (body : Request) : string :=
  match EndToEnd.apiKey d with
  | None => APOLOGY
  | Some key =>
      if Js.truthy key
      then match EndToEnd.model d key GeminiRoute.MODEL
                   (GeminiRoute.contentsOf (req_knowledgeBase body) (req_messages body)) with
           | Ok text => text
           | Err _ => APOLOGY
           end
      else APOLOGY
  end.

(** A deployment whose model answers, one without a key, one whose model
    is out of reach. *)
Definition working_deployment : EndToEnd.Deployment :=
  EndToEnd.mkDeployment (Some "secret") (fun _ _ _ => Ok "It is about notes.")
                        (fun r => r).

Definition keyless_deployment : EndToEnd.Deployment :=
  EndToEnd.mkDeployment None (fun _ _ _ => Ok "never asked") (fun r => r).

Definition unreachable_deployment : EndToEnd.Deployment :=
  EndToEnd.mkDeployment (Some "secret") (fun _ _ _ => Err network_error)
                        (fun r => r).

(** *** Further notions: the calls of the bootstrap *)

Definition isAwaiting (pc : PdfjsWorker.Pc) : bool :=
  match pc with PdfjsWorker.AwaitingImport => true | _ => false end.

Definition isEntry (pc : PdfjsWorker.Pc) : bool :=
  match pc with PdfjsWorker.Entry => true | _ => false end.

(** The calls that wait for their import, and those not yet made. *)
Definition awaiting (pcs : list PdfjsWorker.Pc) : nat :=
  List.length (filter isAwaiting pcs).
Definition notStarted (pcs : list PdfjsWorker.Pc) : nat :=
  List.length (filter isEntry pcs).

(** The bookkeeping kept by every step of every call. *)
Definition accounted (sys : PdfjsWorker.System) : Prop :=
  PdfjsWorker.writes sys + awaiting (snd sys) <= PdfjsWorker.imports sys /\
  PdfjsWorker.imports sys + notStarted (snd sys) <= List.length (snd sys) /\
  Forall (fun e => e = PdfjsWorker.Import \/
                   e = PdfjsWorker.WriteWorkerSrc PdfjsWorker.WORKER_URL)
         (PdfjsWorker.effects (fst sys)) /\
  (PdfjsWorker.workerSrc (fst sys) = None \/
   PdfjsWorker.workerSrc (fst sys) = Some PdfjsWorker.WORKER_URL).

(** A host without [window]: the module evaluated on the server. *)
Definition server_host : PdfjsWorker.Host :=
  PdfjsWorker.mkHost false (fun _ => Ok tt).

(** A browser in which the first import fails and the later ones resolve. *)
Definition flaky_browser : PdfjsWorker.Host :=
  PdfjsWorker.mkHost true
    (fun cid => if cid =? 0 then Err network_error else Ok tt).

(* ================================================================== *)
(** * Properties *)
(* ================================================================== *)

(** ** Strings *)

Section StringFacts.

Lemma string_length_app (a b : string) :
  String.length (a ++ b) = String.length a + String.length b.
Proof. induction a as [|c a IH]; simpl; [reflexivity | now rewrite IH]. Qed.

Lemma string_app_empty_r (a : string) : a ++ "" = a.
Proof. induction a as [|c a IH]; simpl; [reflexivity | now rewrite IH]. Qed.

Lemma string_app_assoc (a b c : string) : (a ++ b) ++ c = a ++ (b ++ c).
Proof. induction a as [|x a IH]; simpl; [reflexivity | now rewrite IH]. Qed.

Lemma substring_all (b : string) : substring 0 (String.length b) b = b.
Proof. induction b as [|c b IH]; simpl; [reflexivity | now rewrite IH]. Qed.

Lemma substring_skip (a b : string) (n m : nat) :
  substring (String.length a + n) m (a ++ b) = substring n m b.
Proof. induction a as [|c a IH]; simpl; [reflexivity | exact IH]. Qed.

Lemma substring_split (s : string) (n : nat) :
  n <= String.length s ->
  s = substring 0 n s ++ substring n (String.length s - n) s.
Proof.
  revert n; induction s as [|c s IH]; intros n Hn; simpl in *.
  - now destruct n.
  - destruct n as [|n]; simpl.
    + now rewrite substring_all.
    + f_equal. apply IH. lia.
Qed.

Lemma toLowerCase_app (a b : string) :
  Js.toLowerCase (a ++ b) = Js.toLowerCase a ++ Js.toLowerCase b.
Proof. induction a as [|c a IH]; simpl; [reflexivity | now rewrite IH]. Qed.

(** Only the tail of a string decides [endsWith]. *)
Lemma endsWith_app_r (a b c : string) :
  String.length c <= String.length b ->
  Js.endsWith (a ++ b) c = Js.endsWith b c.
Proof.
  intros Hle. unfold Js.endsWith. rewrite string_length_app.
  assert (H1 : (String.length c <=? String.length a + String.length b) = true)
    by (apply Nat.leb_le; lia).
  assert (H2 : (String.length c <=? String.length b) = true)
    by (apply Nat.leb_le; lia).
  rewrite H1, H2.
  replace (String.length a + String.length b - String.length c)
    with (String.length a + (String.length b - String.length c)) by lia.
  now rewrite substring_skip.
Qed.

Lemma endsWith_self (b : string) : Js.endsWith b b = true.
Proof.
  unfold Js.endsWith. rewrite Nat.leb_refl, Nat.sub_diag, substring_all.
  apply String.eqb_refl.
Qed.

Lemma endsWith_app (a b : string) : Js.endsWith (a ++ b) b = true.
Proof. rewrite endsWith_app_r by lia. apply endsWith_self. Qed.

(** A string that ends with [suffix] is some stem followed by it. *)
Lemma endsWith_inv (s suffix : string) :
  Js.endsWith s suffix = true -> exists stem, s = stem ++ suffix.
Proof.
  unfold Js.endsWith.
  destruct (String.length suffix <=? String.length s) eqn:Hle; [|discriminate].
  apply Nat.leb_le in Hle. intros Heq. apply String.eqb_eq in Heq.
  exists (substring 0 (String.length s - String.length suffix) s).
  pose proof (substring_split s (String.length s - String.length suffix)) as H.
  replace (String.length s - (String.length s - String.length suffix))
    with (String.length suffix) in H by lia.
  rewrite Heq in H. apply H. lia.
Qed.

(** Two suffixes of one string, neither of which ends with the other,
    cannot both match. *)
Lemma endsWith_excl (s p q : string) :
  String.length q <= String.length p ->
  Js.endsWith p q = false ->
  Js.endsWith s p = true -> Js.endsWith s q = false.
Proof.
  intros Hle Hpq Hp. destruct (endsWith_inv _ _ Hp) as [stem ->].
  now rewrite endsWith_app_r.
Qed.

End StringFacts.

(** ** White space *)

Section WhiteSpace.

Lemma string_length_ind (P : string -> Prop) :
  (forall s, (forall r, String.length r < String.length s -> P r) -> P s) ->
  forall s, P s.
Proof.
  intros Hstep s.
  assert (H : forall n r, String.length r < n -> P r).
  { induction n as [|n IH]; intros r Hr; [lia|].
    apply Hstep. intros r' Hr'. apply IH. lia. }
  apply (H (S (String.length s))). lia.
Qed.

Lemma trimStart_step (s : string) :
  Js.trimStart s =
  match Js.skipWhiteSpace s with Some r => Js.trimStart r | None => s end.
Proof.
  destruct s as [|c1 r1]; [reflexivity|].
  change (Js.trimStart (String c1 r1)) with
    (if Js.whiteSpaceCode (Js.oneByte c1) then Js.trimStart r1
     else match r1 with
          | EmptyString => String c1 r1
          | String c2 r2 =>
              if Js.whiteSpaceCode (Js.twoBytes c1 c2) then Js.trimStart r2
              else match r2 with
                   | EmptyString => String c1 r1
                   | String c3 r3 =>
                       if Js.whiteSpaceCode (Js.threeBytes c1 c2 c3)
                       then Js.trimStart r3 else String c1 r1
                   end
          end).
  cbn [Js.skipWhiteSpace].
  destruct (Js.whiteSpaceCode (Js.oneByte c1)); [reflexivity|].
  destruct r1 as [|c2 r2]; [reflexivity|].
  destruct (Js.whiteSpaceCode (Js.twoBytes c1 c2)); [reflexivity|].
  destruct r2 as [|c3 r3]; [reflexivity|].
  destruct (Js.whiteSpaceCode (Js.threeBytes c1 c2 c3)); reflexivity.
Qed.

Lemma allWhiteSpace_step (c1 : ascii) (r1 : string) :
  Js.allWhiteSpace (String c1 r1) =
  match Js.skipWhiteSpace (String c1 r1) with
  | Some r => Js.allWhiteSpace r
  | None => false
  end.
Proof.
  change (Js.allWhiteSpace (String c1 r1)) with
    (if Js.whiteSpaceCode (Js.oneByte c1) then Js.allWhiteSpace r1
     else match r1 with
          | EmptyString => false
          | String c2 r2 =>
              if Js.whiteSpaceCode (Js.twoBytes c1 c2) then Js.allWhiteSpace r2
              else match r2 with
                   | EmptyString => false
                   | String c3 r3 =>
                       if Js.whiteSpaceCode (Js.threeBytes c1 c2 c3)
                       then Js.allWhiteSpace r3 else false
                   end
          end).
  cbn [Js.skipWhiteSpace].
  destruct (Js.whiteSpaceCode (Js.oneByte c1)); [reflexivity|].
  destruct r1 as [|c2 r2]; [reflexivity|].
  destruct (Js.whiteSpaceCode (Js.twoBytes c1 c2)); [reflexivity|].
  destruct r2 as [|c3 r3]; [reflexivity|].
  destruct (Js.whiteSpaceCode (Js.threeBytes c1 c2 c3)); reflexivity.
Qed.

(** What [skipWhiteSpace] removes is a white space of one, two or three bytes. *)
Lemma skipWhiteSpace_inv (s r : string) :
  Js.skipWhiteSpace s = Some r ->
  exists w, s = w ++ r /\ w <> "" /\ Js.allWhiteSpace w = true.
Proof.
  destruct s as [|c1 r1]; [discriminate|]. cbn [Js.skipWhiteSpace].
  destruct (Js.whiteSpaceCode (Js.oneByte c1)) eqn:H1.
  { intros [= <-]. exists (String c1 ""). repeat split; [discriminate|].
    cbn. now rewrite H1. }
  destruct r1 as [|c2 r2]; [discriminate|].
  destruct (Js.whiteSpaceCode (Js.twoBytes c1 c2)) eqn:H2.
  { intros [= <-]. exists (String c1 (String c2 "")). repeat split; [discriminate|].
    cbn. now rewrite H1, H2. }
  destruct r2 as [|c3 r3]; [discriminate|].
  destruct (Js.whiteSpaceCode (Js.threeBytes c1 c2 c3)) eqn:H3; [|discriminate].
  intros [= <-]. exists (String c1 (String c2 (String c3 ""))).
  repeat split; [discriminate|]. cbn. now rewrite H1, H2, H3.
Qed.

Lemma skipWhiteSpace_shorter (s r : string) :
  Js.skipWhiteSpace s = Some r -> String.length r < String.length s.
Proof.
  intros H. destruct (skipWhiteSpace_inv s r H) as [w [-> [Hw _]]].
  rewrite string_length_app. destruct w; [contradiction | simpl; lia].
Qed.

Lemma skipWhiteSpace_app (s r b : string) :
  Js.skipWhiteSpace s = Some r -> Js.skipWhiteSpace (s ++ b) = Some (r ++ b).
Proof.
  destruct s as [|c1 r1]; [discriminate|]. cbn [Js.skipWhiteSpace append].
  destruct (Js.whiteSpaceCode (Js.oneByte c1)); [now intros [= <-]|].
  destruct r1 as [|c2 r2]; [discriminate|]. cbn [append].
  destruct (Js.whiteSpaceCode (Js.twoBytes c1 c2)); [now intros [= <-]|].
  destruct r2 as [|c3 r3]; [discriminate|]. cbn [append].
  destruct (Js.whiteSpaceCode (Js.threeBytes c1 c2 c3)); [now intros [= <-]|discriminate].
Qed.

Lemma allWhiteSpace_app_l (a b : string) :
  Js.allWhiteSpace a = true -> Js.allWhiteSpace (a ++ b) = Js.allWhiteSpace b.
Proof.
  revert a. apply (string_length_ind (fun a =>
    Js.allWhiteSpace a = true -> Js.allWhiteSpace (a ++ b) = Js.allWhiteSpace b)).
  intros [|c a] IH Ha; [reflexivity|].
  rewrite allWhiteSpace_step in Ha.
  destruct (Js.skipWhiteSpace (String c a)) as [r|] eqn:Hs; [|discriminate].
  change (String c a ++ b) with (String c (a ++ b)).
  rewrite allWhiteSpace_step.
  change (String c (a ++ b)) with (String c a ++ b).
  rewrite (skipWhiteSpace_app _ _ b Hs).
  apply IH; [now apply skipWhiteSpace_shorter | exact Ha].
Qed.

Lemma allWhiteSpace_skips (w : string) :
  Js.allWhiteSpace w = true -> w <> "" -> exists r, Js.skipWhiteSpace w = Some r.
Proof.
  destruct w as [|c w]; [contradiction|]. intros H _.
  rewrite allWhiteSpace_step in H.
  destruct (Js.skipWhiteSpace (String c w)); [eauto | discriminate].
Qed.

Lemma trimStart_split (s : string) :
  exists l, s = l ++ Js.trimStart s /\ Js.allWhiteSpace l = true.
Proof.
  revert s. apply string_length_ind. intros s IH.
  rewrite trimStart_step. destruct (Js.skipWhiteSpace s) as [r|] eqn:Hs.
  - destruct (skipWhiteSpace_inv s r Hs) as [w [-> [_ Hw]]].
    destruct (IH r (skipWhiteSpace_shorter _ _ Hs)) as [l [Hl Hlw]].
    exists (w ++ l). split.
    + rewrite string_app_assoc. now rewrite <- Hl.
    + now rewrite allWhiteSpace_app_l.
  - exists "". now split.
Qed.

Lemma trimStart_no_skip (s : string) : Js.skipWhiteSpace (Js.trimStart s) = None.
Proof.
  revert s. apply string_length_ind. intros s IH.
  rewrite trimStart_step. destruct (Js.skipWhiteSpace s) as [r|] eqn:Hs.
  - apply IH. now apply skipWhiteSpace_shorter.
  - exact Hs.
Qed.

Lemma no_skip_cleanStart (t : string) : Js.skipWhiteSpace t = None -> cleanStart t.
Proof.
  intros Hn w b -> Hw. destruct (Js.allWhiteSpace w) eqn:Ha; [|reflexivity].
  destruct (allWhiteSpace_skips w Ha Hw) as [r Hr].
  rewrite (skipWhiteSpace_app _ _ b Hr) in Hn. discriminate.
Qed.

Lemma cleanStart_no_skip (t : string) : cleanStart t -> Js.skipWhiteSpace t = None.
Proof.
  intros Hc. destruct (Js.skipWhiteSpace t) as [r|] eqn:Hs; [|reflexivity].
  destruct (skipWhiteSpace_inv t r Hs) as [w [Ht [Hw Ha]]].
  rewrite (Hc w r Ht Hw) in Ha. discriminate.
Qed.

Lemma trimEnd_split (s : string) :
  exists w, s = Js.trimEnd s ++ w /\ Js.allWhiteSpace w = true.
Proof.
  induction s as [|c s [w [Hs Hw]]]; [exists ""; now split|].
  cbn [Js.trimEnd]. destruct (Js.allWhiteSpace (String c s)) eqn:Ha.
  - exists (String c s). now split.
  - exists w. split; [cbn; now rewrite <- Hs | exact Hw].
Qed.

Lemma trimEnd_blank_iff (s : string) :
  Js.trimEnd s = "" <-> Js.allWhiteSpace s = true.
Proof.
  destruct s as [|c s]; [split; reflexivity|]. cbn [Js.trimEnd].
  destruct (Js.allWhiteSpace (String c s)); split; auto; discriminate.
Qed.

Lemma trimEnd_bound (a v : string) :
  Js.allWhiteSpace v = true -> String.length (Js.trimEnd (a ++ v)) <= String.length a.
Proof.
  intros Hv. induction a as [|c a IH].
  - cbn [append]. rewrite (proj2 (trimEnd_blank_iff v) Hv). simpl. lia.
  - cbn [append Js.trimEnd]. destruct (Js.allWhiteSpace (String c (a ++ v))); simpl; lia.
Qed.

Lemma trimEnd_cleanEnd (s : string) : cleanEnd (Js.trimEnd s).
Proof.
  intros a w Hsplit Hw. destruct (Js.allWhiteSpace w) eqn:Ha; [|reflexivity].
  destruct (trimEnd_split s) as [w' [Hs Hw']].
  assert (Hs' : s = a ++ (w ++ w')) by (rewrite Hs at 1; rewrite Hsplit; apply string_app_assoc).
  assert (Hall : Js.allWhiteSpace (w ++ w') = true) by (now rewrite allWhiteSpace_app_l).
  pose proof (trimEnd_bound a (w ++ w') Hall) as Hb. rewrite <- Hs' in Hb.
  rewrite Hsplit, string_length_app in Hb. destruct w; [contradiction | simpl in Hb; lia].
Qed.

Lemma trimEnd_cleanStart (t : string) : cleanStart t -> cleanStart (Js.trimEnd t).
Proof.
  intros Hc w b Hsplit Hw. destruct (trimEnd_split t) as [w' [Ht _]].
  apply (Hc w (b ++ w')); [|exact Hw].
  rewrite Ht at 1. rewrite Hsplit. apply string_app_assoc.
Qed.

(** [trim] removes a run of white space at each end and leaves none there. *)
Lemma trim_spec (x : string) : trimmedOf x (Js.trim x).
Proof.
  unfold Js.trim.
  destruct (trimStart_split x) as [l [Hl Hlw]].
  destruct (trimEnd_split (Js.trimStart x)) as [r [Hr Hrw]].
  exists l, r. split; [|split; [exact Hlw | split; [exact Hrw | split]]].
  - rewrite Hl at 1. now rewrite Hr at 1.
  - apply trimEnd_cleanStart, no_skip_cleanStart, trimStart_no_skip.
  - apply trimEnd_cleanEnd.
Qed.

Lemma trim_empty_iff (s : string) :
  Js.trim s = "" <-> Js.allWhiteSpace s = true.
Proof.
  unfold Js.trim. destruct (trimStart_split s) as [l [Hl Hlw]]. split.
  - intros H. apply trimEnd_blank_iff in H.
    rewrite Hl. now rewrite allWhiteSpace_app_l.
  - intros H. rewrite Hl, allWhiteSpace_app_l in H by exact Hlw.
    destruct (Js.trimStart s) as [|c t] eqn:Ht; [reflexivity|].
    destruct (allWhiteSpace_skips (String c t) H ltac:(discriminate)) as [r Hr].
    pose proof (trimStart_no_skip s) as Hn. rewrite Ht, Hr in Hn. discriminate.
Qed.

Lemma cleanStart_trimStart (t : string) : cleanStart t -> Js.trimStart t = t.
Proof. intros Hc. rewrite trimStart_step. now rewrite (cleanStart_no_skip t Hc). Qed.

Lemma cleanEnd_trimEnd (t : string) : cleanEnd t -> Js.trimEnd t = t.
Proof.
  intros Hc. destruct (trimEnd_split t) as [w [Ht Hw]].
  destruct w as [|c w]; [now rewrite string_app_empty_r in Ht|].
  rewrite (Hc _ _ Ht ltac:(discriminate)) in Hw. discriminate.
Qed.

Lemma trim_idempotent (s : string) : Js.trim (Js.trim s) = Js.trim s.
Proof.
  destruct (trim_spec s) as [l [r [_ [_ [_ [Hs He]]]]]].
  unfold Js.trim at 1. rewrite (cleanStart_trimStart _ Hs). now apply cleanEnd_trimEnd.
Qed.

(** *** Bytes: a white space never starts with a continuation byte *)

Lemma oneByte_not_cont (c : ascii) :
  Js.whiteSpaceCode (Js.oneByte c) = true -> Js.isCont c = false.
Proof.
  unfold Js.oneByte, Js.isCont.
  destruct (N.ltb_spec (N_of_ascii c) 0x80); [|discriminate]. intros _.
  apply andb_false_intro1. apply N.leb_gt. assumption.
Qed.

Lemma twoBytes_cont (c1 c2 : ascii) :
  Js.whiteSpaceCode (Js.twoBytes c1 c2) = true ->
  Js.isCont c1 = false /\ Js.isCont c2 = true.
Proof.
  unfold Js.twoBytes, Js.isCont.
  destruct (N.leb_spec 0xC2 (N_of_ascii c1)); cbn [andb]; [|discriminate].
  destruct (N.leb_spec (N_of_ascii c1) 0xDF); cbn [andb]; [|discriminate].
  destruct ((0x80 <=? N_of_ascii c2)%N && (N_of_ascii c2 <=? 0xBF)%N); [|discriminate].
  intros _. split; [|reflexivity].
  apply andb_false_intro2. apply N.leb_gt. lia.
Qed.

Lemma threeBytes_cont (c1 c2 c3 : ascii) :
  Js.whiteSpaceCode (Js.threeBytes c1 c2 c3) = true ->
  Js.isCont c1 = false /\ Js.isCont c2 = true /\ Js.isCont c3 = true.
Proof.
  unfold Js.threeBytes.
  destruct (N.leb_spec 0xE0 (N_of_ascii c1)); cbn [andb]; [|discriminate].
  destruct (N.leb_spec (N_of_ascii c1) 0xEF); cbn [andb]; [|discriminate].
  destruct (Js.isCont c2); cbn [andb]; [|discriminate].
  destruct (Js.isCont c3); cbn [andb]; [|discriminate].
  intros _. split; [|split; reflexivity].
  unfold Js.isCont. apply andb_false_intro2. apply N.leb_gt. lia.
Qed.

Lemma head_not_cont (c : ascii) (b : string) :
  Js.allWhiteSpace (String c b) = true -> Js.isCont c = false.
Proof.
  rewrite allWhiteSpace_step. cbn [Js.skipWhiteSpace].
  destruct (Js.whiteSpaceCode (Js.oneByte c)) eqn:H1; [intros _; now apply oneByte_not_cont|].
  destruct b as [|c2 b]; [discriminate|].
  destruct (Js.whiteSpaceCode (Js.twoBytes c c2)) eqn:H2;
    [intros _; now apply twoBytes_cont in H2|].
  destruct b as [|c3 b]; [discriminate|].
  destruct (Js.whiteSpaceCode (Js.threeBytes c c2 c3)) eqn:H3; [|discriminate].
  intros _. now apply threeBytes_cont in H3.
Qed.

Lemma twoBytes_needs_cont (c1 c2 : ascii) :
  Js.isCont c2 = false -> Js.whiteSpaceCode (Js.twoBytes c1 c2) = false.
Proof.
  intros H. destruct (Js.whiteSpaceCode (Js.twoBytes c1 c2)) eqn:E; [|reflexivity].
  apply twoBytes_cont in E. destruct E; congruence.
Qed.

Lemma threeBytes_needs_cont (c1 c2 c3 : ascii) :
  Js.isCont c2 = false \/ Js.isCont c3 = false ->
  Js.whiteSpaceCode (Js.threeBytes c1 c2 c3) = false.
Proof.
  intros H. destruct (Js.whiteSpaceCode (Js.threeBytes c1 c2 c3)) eqn:E; [|reflexivity].
  apply threeBytes_cont in E. destruct E as [_ [E2 E3]]. destruct H; congruence.
Qed.

(** White space appended to a string does not turn its last bytes into
    white space. *)
Lemma skipWhiteSpace_app_blank (x b : string) :
  Js.allWhiteSpace b = true -> x <> "" ->
  Js.skipWhiteSpace (x ++ b) =
  match Js.skipWhiteSpace x with Some r => Some (r ++ b) | None => None end.
Proof.
  intros Hb Hx. destruct x as [|c1 r1]; [contradiction|].
  cbn [Js.skipWhiteSpace append].
  destruct (Js.whiteSpaceCode (Js.oneByte c1)); [reflexivity|].
  destruct r1 as [|c2 r2]; cbn [append].
  { destruct b as [|c2 b]; [reflexivity|].
    pose proof (head_not_cont c2 b Hb) as Hc.
    rewrite (twoBytes_needs_cont c1 c2 Hc).
    destruct b as [|c3 b]; [reflexivity|].
    now rewrite (threeBytes_needs_cont c1 c2 c3 (or_introl Hc)). }
  destruct (Js.whiteSpaceCode (Js.twoBytes c1 c2)); [reflexivity|].
  destruct r2 as [|c3 r3]; cbn [append].
  { destruct b as [|c3 b]; [reflexivity|].
    pose proof (head_not_cont c3 b Hb) as Hc.
    now rewrite (threeBytes_needs_cont c1 c2 c3 (or_intror Hc)). }
  destruct (Js.whiteSpaceCode (Js.threeBytes c1 c2 c3)); reflexivity.
Qed.

Lemma allWhiteSpace_app_r (x b : string) :
  Js.allWhiteSpace b = true -> Js.allWhiteSpace (x ++ b) = Js.allWhiteSpace x.
Proof.
  intros Hb. revert x. apply string_length_ind. intros [|c x] IH; [exact Hb|].
  change (String c x ++ b) with (String c (x ++ b)).
  rewrite !allWhiteSpace_step.
  change (String c (x ++ b)) with (String c x ++ b).
  rewrite (skipWhiteSpace_app_blank _ b Hb) by discriminate.
  destruct (Js.skipWhiteSpace (String c x)) as [r|] eqn:Hs; [|reflexivity].
  apply IH. now apply skipWhiteSpace_shorter.
Qed.

(** Trailing white space added to a string is trimmed away again. *)
Lemma trimEnd_app_blank (a b : string) :
  Js.allWhiteSpace b = true -> Js.trimEnd (a ++ b) = Js.trimEnd a.
Proof.
  intros Hb. induction a as [|c a IH].
  - cbn [append]. now apply trimEnd_blank_iff.
  - cbn [append Js.trimEnd].
    change (String c (a ++ b)) with (String c a ++ b).
    now rewrite (allWhiteSpace_app_r _ b Hb), IH.
Qed.

Lemma oneByte_ascii (c : ascii) :
  (N_of_ascii c <? 128)%N = true -> Js.isCont c = false /\
  forall c2, Js.whiteSpaceCode (Js.twoBytes c c2) = false.
Proof.
  intros H. apply N.ltb_lt in H. split.
  - unfold Js.isCont. apply andb_false_intro1. apply N.leb_gt. assumption.
  - intros c2. unfold Js.twoBytes.
    destruct (N.leb_spec 0xC2 (N_of_ascii c)); [lia | reflexivity].
Qed.

Lemma threeBytes_ascii (c c2 c3 : ascii) :
  (N_of_ascii c <? 128)%N = true -> Js.whiteSpaceCode (Js.threeBytes c c2 c3) = false.
Proof.
  intros H. apply N.ltb_lt in H. unfold Js.threeBytes.
  destruct (N.leb_spec 0xE0 (N_of_ascii c)); [lia | reflexivity].
Qed.

(** After text of the ASCII range, what follows is trimmed as it would be
    alone, unless it is blank. *)
Lemma allWhiteSpace_ascii_app (a b : string) :
  isAscii a = true ->
  Js.allWhiteSpace (a ++ b) = Js.allWhiteSpace a && Js.allWhiteSpace b.
Proof.
  unfold isAscii. induction a as [|c a IH]; [reflexivity|].
  cbn [list_ascii_of_string forallb]. intros H. apply andb_prop in H as [Hc Ha].
  destruct (oneByte_ascii c Hc) as [_ H2]. pose proof (threeBytes_ascii c) as H3.
  change (String c a ++ b) with (String c (a ++ b)).
  rewrite !allWhiteSpace_step. cbn [Js.skipWhiteSpace].
  destruct (Js.whiteSpaceCode (Js.oneByte c)); [now apply IH|].
  destruct (a ++ b) as [|c2 [|c3 r]]; destruct a as [|d2 [|d3 r']];
    rewrite ?H2, ?H3 by exact Hc; reflexivity.
Qed.

Lemma trimEnd_ascii_app (a b : string) :
  isAscii a = true ->
  Js.trimEnd (a ++ b) =
  if Js.allWhiteSpace b then Js.trimEnd a else a ++ Js.trimEnd b.
Proof.
  intros Ha. destruct (Js.allWhiteSpace b) eqn:Hb; [now apply trimEnd_app_blank|].
  induction a as [|c a IH]; [reflexivity|].
  cbn [append Js.trimEnd].
  change (String c (a ++ b)) with (String c a ++ b).
  rewrite (allWhiteSpace_ascii_app _ b Ha), Hb, andb_false_r.
  rewrite IH; [reflexivity|].
  unfold isAscii in *. cbn [list_ascii_of_string forallb] in Ha.
  now apply andb_prop in Ha.
Qed.

End WhiteSpace.

(** ** The format sniffer *)

Section Sniffer.

Import DocChat.

Lemma ext_pdf_not_docx s : Js.endsWith s ".docx" = true -> Js.endsWith s ".pdf" = false.
Proof. apply endsWith_excl; [simpl; lia | reflexivity]. Qed.

Lemma ext_pdf_not_txt s : Js.endsWith s ".txt" = true -> Js.endsWith s ".pdf" = false.
Proof. apply endsWith_excl; [simpl; lia | reflexivity]. Qed.

Lemma ext_txt_not_docx s : Js.endsWith s ".docx" = true -> Js.endsWith s ".txt" = false.
Proof. apply endsWith_excl; [simpl; lia | reflexivity]. Qed.

(** The sniffer in terms of the two hints: with one hint only, that hint
    decides; with two, the one tested first in the chain. *)
Lemma classify_spec (file : File) :
  classify file =
  match mimeFormat (type file), extFormat (name file) with
  | Some a, Some b => earlier a b
  | Some a, None => a
  | None, Some b => b
  | None, None => Unknown
  end.
Proof.
  destruct file as [n t ab tx].
  unfold classify, isPDF, isDOCX, isTXT, lname, mimeFormat, extFormat; simpl.
  set (l := Js.toLowerCase n).
  destruct (Js.endsWith l ".docx") eqn:Ed.
  - rewrite (ext_pdf_not_docx _ Ed), (ext_txt_not_docx _ Ed).
    destruct (String.eqb_spec t MIME_PDF) as [->|_]; [reflexivity|].
    destruct (String.eqb_spec t MIME_DOCX) as [->|_]; [reflexivity|].
    destruct (String.eqb_spec t MIME_TXT) as [->|_]; reflexivity.
  - destruct (Js.endsWith l ".txt") eqn:Et.
    + rewrite (ext_pdf_not_txt _ Et).
      destruct (String.eqb_spec t MIME_PDF) as [->|_]; [reflexivity|].
      destruct (String.eqb_spec t MIME_DOCX) as [->|_]; [reflexivity|].
      destruct (String.eqb_spec t MIME_TXT) as [->|_]; reflexivity.
    + destruct (Js.endsWith l ".pdf") eqn:Ep;
      (destruct (String.eqb_spec t MIME_PDF) as [->|_]; [reflexivity|]);
      (destruct (String.eqb_spec t MIME_DOCX) as [->|_]; [reflexivity|]);
      (destruct (String.eqb_spec t MIME_TXT) as [->|_]; reflexivity).
Qed.

(** C1, as stated, fails: [scan.pdf] declared [text/plain] has a MIME type
    that stands for TXT and an extension that stands for PDF, and is sent
    down the PDF branch. *)
Lemma scan_pdf_as_text_is_PDF :
  mimeFormat (type scan_pdf_as_text) = Some TXT /\
  extFormat (name scan_pdf_as_text) = Some PDF /\
  classify scan_pdf_as_text = PDF /\
  classify scan_pdf_as_text <> TXT.
Proof. repeat split; try reflexivity. discriminate. Qed.

(** C1 (amended).  When the MIME type and the extension of a file stand
    for two different formats, the file is classified as the one of the two
    that comes first in the order PDF, DOCX, TXT of the tests; the MIME
    type therefore wins exactly when its format comes first. *)
Theorem classify_conflict_earlier_test_wins (file : File) (fm fe : Format) :
  mimeFormat (type file) = Some fm ->
  extFormat (name file) = Some fe ->
  fm <> fe ->
  classify file = earlier fm fe /\
  (classify file = fm <-> rank fm < rank fe).
Proof.
  intros Hm He Hne. rewrite classify_spec, Hm, He. split; [reflexivity|].
  unfold earlier.
  destruct fm, fe; simpl; split; intros; try lia; try congruence.
Qed.

Lemma classify_conflict_earlier_test_wins_witness :
  classify (mkFile "notes.txt" "application/pdf" (Ok []) (Ok "")) = PDF /\
  classify scan_pdf_as_text = PDF.
Proof.
  split.
  - rewrite (proj1 (classify_conflict_earlier_test_wins
               (mkFile "notes.txt" "application/pdf" (Ok []) (Ok "")) PDF TXT
               eq_refl eq_refl ltac:(discriminate))).
    reflexivity.
  - rewrite (proj1 (classify_conflict_earlier_test_wins
               scan_pdf_as_text TXT PDF eq_refl eq_refl ltac:(discriminate))).
    reflexivity.
Defined.

(** C9.  A file whose declared MIME type is none of the three known ones
    (empty, or generic) is classified by its extension, in any letter
    case: [.pdf] gives PDF, [.docx] gives DOCX, [.txt] gives TXT. *)
Theorem classify_extension_fallback (file : File) (stem ext : string) :
  mimeFormat (type file) = None ->
  name file = stem ++ ext ->
  (Js.toLowerCase ext = ".pdf" -> classify file = PDF) /\
  (Js.toLowerCase ext = ".docx" -> classify file = DOCX) /\
  (Js.toLowerCase ext = ".txt" -> classify file = TXT).
Proof.
  intros Hm Hn. rewrite classify_spec, Hm. unfold extFormat.
  rewrite Hn, toLowerCase_app.
  repeat split; intros ->.
  - now rewrite endsWith_app.
  - rewrite (ext_pdf_not_docx _ (endsWith_app _ _)). now rewrite endsWith_app.
  - rewrite (ext_pdf_not_txt _ (endsWith_app _ _)).
    destruct (Js.endsWith (Js.toLowerCase stem ++ ".txt") ".docx") eqn:E.
    + apply ext_txt_not_docx in E. now rewrite endsWith_app in E.
    + now rewrite endsWith_app.
Qed.

Lemma classify_extension_fallback_witness : classify report_PDF = PDF.
Proof.
  exact (proj1 (classify_extension_fallback report_PDF "report" ".PDF"
                  eq_refl eq_refl) eq_refl).
Defined.

(** The earlier copy of the component has no extension fallback for PDF:
    there [report.PDF] with an empty type is read as plain text. *)
Remark legacy_report_PDF : Legacy.classify report_PDF = TXT.
Proof. reflexivity. Qed.

End Sniffer.

(** ** The knowledge-base assembler *)

Section Assembler.

Import DocChat.

Lemma includes_tail c t sub :
  Js.includes (String c t) sub = false -> Js.includes t sub = false.
Proof.
  intros H. change (Js.startsWith (String c t) sub || Js.includes t sub = false) in H.
  now apply orb_false_elim in H.
Qed.

(** Peel one character off the text [t]: either [t] is exhausted, and what
    follows decides, or its next character must be the expected one. *)
Ltac peel t Hv :=
  let c := fresh "c" in
  destruct t as [|c t];
  [ destruct Hv as [->|[? ->]]; reflexivity
  | cbn [Js.startsWith append];
    match goal with
    | |- context [Ascii.eqb ?a c] =>
        destruct (Ascii.eqb_spec a c) as [<-|]; [cbn [andb] | reflexivity]
    end ].

Ltac peel_all t Hv Hn :=
  repeat (peel t Hv); simpl in Hn; discriminate Hn.

(** No separator starts inside a text free of [---], ... *)
Lemma no_sep_inside c t v :
  Js.includes (String c t) "---" = false -> follows v ->
  Js.startsWith (String c t ++ v) SEP = false.
Proof.
  intros Hn Hv. unfold SEP, LF. cbn [Js.startsWith append].
  destruct (Ascii.eqb_spec "010" c) as [<-|]; [cbn [andb] | reflexivity].
  peel_all t Hv Hn.
Qed.

(** ... nor in the last two characters of a separator. *)
Lemma no_sep_from_dashes t v :
  Js.includes t "---" = false -> follows v ->
  Js.startsWith (t ++ v) ("---" ++ LF ++ LF) = false.
Proof. intros Hn Hv. unfold LF. cbn [append]. peel_all t Hv Hn. Qed.

Lemma no_sep_from_lf_dashes t v :
  Js.includes t "---" = false -> follows v ->
  Js.startsWith (t ++ v) (LF ++ "---" ++ LF ++ LF) = false.
Proof. intros Hn Hv. unfold LF. cbn [append]. peel_all t Hv Hn. Qed.

Lemma occurrences_text t v :
  Js.includes t "---" = false -> follows v ->
  Js.occurrences SEP (t ++ v) = Js.occurrences SEP v.
Proof.
  intros Hn Hv. induction t as [|c t IH]; [reflexivity|].
  change (Js.occurrences SEP (String c t ++ v))
    with ((if Js.startsWith (String c t ++ v) SEP then 1 else 0)
          + Js.occurrences SEP (t ++ v)).
  rewrite (no_sep_inside c t v Hn Hv). simpl.
  apply IH. exact (includes_tail _ _ _ Hn).
Qed.

Lemma occurrences_sep t v :
  Js.includes t "---" = false -> follows v ->
  Js.occurrences SEP (SEP ++ t ++ v) = 1 + Js.occurrences SEP (t ++ v).
Proof.
  intros Hn Hv.
  pose proof (no_sep_from_dashes t v Hn Hv) as H5.
  pose proof (no_sep_from_lf_dashes t v Hn Hv) as H6.
  unfold SEP, LF in *. simpl in *. rewrite H5, H6. reflexivity.
Qed.

Lemma join_shape t ts : exists v, Js.join SEP (t :: ts) = t ++ v /\ follows v.
Proof.
  destruct ts as [|t' ts].
  - exists "". simpl. rewrite string_app_empty_r. split; [reflexivity | now left].
  - exists (SEP ++ Js.join SEP (t' :: ts)). split; [reflexivity | right; eauto].
Qed.

Lemma occurrences_join texts :
  texts <> [] ->
  Forall (fun t => Js.includes t "---" = false) texts ->
  Js.occurrences SEP (Js.join SEP texts) = List.length texts - 1.
Proof.
  induction texts as [|t ts IH]; [congruence|]. intros _ Hall.
  inversion Hall as [|? ? Ht Hts]; subst.
  destruct ts as [|t' ts].
  - simpl. rewrite <- (string_app_empty_r t), occurrences_text; [reflexivity | exact Ht | now left].
  - change (Js.join SEP (t :: t' :: ts)) with (t ++ SEP ++ Js.join SEP (t' :: ts)).
    rewrite occurrences_text; [| exact Ht | right; eauto].
    destruct (join_shape t' ts) as [v [Hj Hv]]. rewrite Hj.
    inversion Hts as [|? ? Ht' _]; subst.
    rewrite occurrences_sep by assumption.
    rewrite <- Hj, IH by (congruence || assumption). simpl. lia.
Qed.

Lemma substring_prefix (a b : string) : substring 0 (String.length a) (a ++ b) = a.
Proof. induction a as [|c a IH]; simpl; [now destruct b | now rewrite IH]. Qed.

Lemma join_nth texts : forall i t,
  nth_error texts i = Some t ->
  substring (offset texts i) (String.length t) (Js.join SEP texts) = t.
Proof.
  induction texts as [|t0 ts IH]; intros i t Hi; [now destruct i|].
  destruct i as [|i]; simpl in Hi.
  - injection Hi as ->. destruct (join_shape t ts) as [v [-> _]].
    apply substring_prefix.
  - destruct ts as [|t' ts]; [now destruct i|].
    change (Js.join SEP (t0 :: t' :: ts)) with (t0 ++ SEP ++ Js.join SEP (t' :: ts)).
    cbn [offset]. rewrite <- Nat.add_assoc, !substring_skip. now apply IH.
Qed.

Lemma join_sep_nth texts : forall i t,
  nth_error texts i = Some t ->
  S i < List.length texts ->
  substring (offset texts i + String.length t) (String.length SEP)
            (Js.join SEP texts) = SEP.
Proof.
  induction texts as [|t0 ts IH]; intros i t Hi Hlt; [now destruct i|].
  destruct ts as [|t' ts]; [simpl in Hlt; lia|].
  change (Js.join SEP (t0 :: t' :: ts)) with (t0 ++ SEP ++ Js.join SEP (t' :: ts)).
  destruct i as [|i]; simpl in Hi.
  - injection Hi as ->. change (offset (t :: t' :: ts) 0) with 0.
    rewrite Nat.add_comm, substring_skip.
    apply substring_prefix.
  - change (offset (t0 :: t' :: ts) (S i))
      with (String.length t0 + String.length SEP + offset (t' :: ts) i).
    replace (String.length t0 + String.length SEP + offset (t' :: ts) i + String.length t)
      with (String.length t0 + (String.length SEP + (offset (t' :: ts) i + String.length t)))
      by lia.
    rewrite !substring_skip. apply IH; [exact Hi | simpl in *; lia].
Qed.

Lemma join_length texts :
  texts <> [] ->
  String.length (Js.join SEP texts) + String.length SEP =
  offset texts (List.length texts).
Proof.
  induction texts as [|t ts IH]; [congruence|]. intros _.
  destruct ts as [|t' ts].
  - cbn [Js.join List.length offset]. lia.
  - change (Js.join SEP (t :: t' :: ts)) with (t ++ SEP ++ Js.join SEP (t' :: ts)).
    rewrite !string_length_app.
    change (offset (t :: t' :: ts) (List.length (t :: t' :: ts)))
      with (String.length t + String.length SEP
            + offset (t' :: ts) (List.length (t' :: ts))).
    rewrite <- IH by discriminate. lia.
Qed.

(** C5, as stated, fails: a single text that holds the separator itself is
    assembled into a knowledge base with one occurrence of it, not zero. *)
Lemma assemble_one_text_with_rule :
  List.length [text_with_rule] = 1 /\
  Js.occurrences SEP (assemble [text_with_rule]) = 1 /\
  Js.occurrences SEP (assemble [text_with_rule]) <> List.length [text_with_rule] - 1.
Proof. repeat split; try reflexivity. discriminate. Qed.

(** C5 (amended).  Assembling the empty list gives the empty string.
    Assembling N >= 1 texts, whatever they hold, puts them in input order
    with one separator between neighbours and nothing else: the [i]-th
    text is found right after the texts before it and one separator for
    each, every text but the last is followed at once by the separator,
    and the last text ends the result.  When no text contains [---], the
    result has exactly N-1 occurrences of the separator. *)
Theorem assemble_order_and_separators (texts : list string) :
  assemble [] = "" /\
  (forall i t, nth_error texts i = Some t ->
     substring (offset texts i) (String.length t) (assemble texts) = t) /\
  (forall i t, nth_error texts i = Some t -> S i < List.length texts ->
     substring (offset texts i + String.length t) (String.length SEP)
               (assemble texts) = SEP) /\
  (texts <> [] ->
   String.length (assemble texts) + String.length SEP =
   offset texts (List.length texts)) /\
  (texts <> [] ->
   Forall (fun t => Js.includes t "---" = false) texts ->
   Js.occurrences SEP (assemble texts) = List.length texts - 1).
Proof.
  split; [reflexivity|]. split; [apply join_nth|]. split; [apply join_sep_nth|].
  split; [apply join_length | apply occurrences_join].
Qed.

Lemma assemble_order_and_separators_witness :
  Js.occurrences SEP (assemble ["alpha"; "beta - gamma"; ""]) = 2 /\
  substring 5 7 (assemble ["alpha"; text_with_rule]) = SEP /\
  String.length (assemble ["alpha"; text_with_rule]) = 5 + 7 + 9.
Proof.
  split; [|split].
  - apply (proj2 (proj2 (proj2 (proj2
             (assemble_order_and_separators ["alpha"; "beta - gamma"; ""]))))).
    + discriminate.
    + repeat constructor.
  - exact (proj1 (proj2 (proj2
             (assemble_order_and_separators ["alpha"; text_with_rule])))
             0 "alpha" eq_refl ltac:(cbn; lia)).
  - apply (Nat.add_cancel_r _ _ (String.length SEP)).
    refine (eq_trans (proj1 (proj2 (proj2 (proj2
             (assemble_order_and_separators ["alpha"; text_with_rule])))) _) eq_refl).
    discriminate.
Defined.

End Assembler.

(** ** Running asynchronous computations *)

Section Running.

Context {A B : Type}.

Lemma outcome_bind (m : M A) (k : A -> M B) :
  outcome (bind m k) =
  match outcome m with Ok a => outcome (k a) | Err e => Err e end.
Proof. destruct m as [t [a|e]]; simpl; [destruct (k a) |]; reflexivity. Qed.

Lemma trace_bind (m : M A) (k : A -> M B) :
  trace (bind m k) =
  (trace m ++ match outcome m with Ok a => trace (k a) | Err _ => [] end)%list.
Proof.
  destruct m as [t [a|e]]; simpl; [destruct (k a) | rewrite app_nil_r]; reflexivity.
Qed.

Lemma outcome_tryCatch (body : M A) (handler : JsErr -> M A) :
  outcome (tryCatch body handler) =
  match outcome body with Ok a => Ok a | Err e => outcome (handler e) end.
Proof. destruct body as [t [a|e]]; simpl; [| destruct (handler e)]; reflexivity. Qed.

Lemma trace_tryCatch (body : M A) (handler : JsErr -> M A) :
  trace (tryCatch body handler) =
  (trace body ++ match outcome body with Ok _ => [] | Err e => trace (handler e) end)%list.
Proof.
  destruct body as [t [a|e]]; simpl; [rewrite app_nil_r | destruct (handler e)]; reflexivity.
Qed.

End Running.

Lemma openAttempts_app (t u : Trace) :
  openAttempts (t ++ u)%list = (openAttempts t ++ openAttempts u)%list.
Proof. apply flat_map_app. Qed.

(** ** The PDF path of the extraction dispatcher *)

Section PdfPath.

Import DocChat.

Variable env : Env.

(** The loop appends the lines of the pages it is yet to read. *)
Lemma pagesLoop_readable (pdf : PdfDoc) (frags : nat -> list TextItem) :
  forall remaining i acc,
  (forall j, i <= j < i + remaining -> pageHolds pdf j (frags j)) ->
  outcome (pagesLoop pdf remaining i acc) =
  Ok (acc ++ concatAll (map (fun j => pageLine (frags j)) (seq i remaining))).
Proof.
  induction remaining as [|k IH]; intros i acc Hpages.
  - simpl. now rewrite string_app_empty_r.
  - destruct (Hpages i ltac:(lia)) as [page [Hp Hc]].
    cbn [pagesLoop]. rewrite outcome_bind. cbn [call outcome snd]. rewrite Hp.
    rewrite outcome_bind. cbn [call outcome snd]. rewrite Hc.
    rewrite IH by (intros j Hj; apply Hpages; lia).
    cbn [seq map concatAll fold_right]. unfold pageLine at 2.
    now rewrite !string_app_assoc.
Qed.

(** No page is opened after the loop, so a document's open attempts are
    those of [openPdf]. *)
Lemma pagesLoop_no_open (pdf : PdfDoc) :
  forall remaining i acc, openAttempts (trace (pagesLoop pdf remaining i acc)) = [].
Proof.
  induction remaining as [|k IH]; intros i acc; [reflexivity|].
  cbn [pagesLoop]. rewrite trace_bind, openAttempts_app. cbn [call trace fst outcome snd].
  destruct (getPage pdf i) as [page|e]; [|reflexivity].
  rewrite trace_bind, openAttempts_app. cbn [call trace fst outcome snd].
  destruct (getTextContent page) as [content|e]; [|reflexivity].
  rewrite IH. reflexivity.
Qed.

(** The PDF branch, once the buffer is read and the library imported. *)
Lemma extract_pdf_outcome (file : File) (data : bytes) :
  isPDF file = true ->
  arrayBuffer file = Ok data ->
  import_pdfjs env = Ok tt ->
  outcome (extractTextFromFile env file) =
  match outcome (openPdf env data) with
  | Ok pdf =>
      match outcome (pagesLoop pdf (numPages pdf) 1 "") with
      | Ok text => Ok (Js.trim text)
      | Err e => Err e
      end
  | Err e => Err e
  end.
Proof.
  intros Hpdf Hbuf Himp. unfold extractTextFromFile. rewrite Hpdf.
  rewrite outcome_tryCatch, outcome_bind. cbn [call outcome snd]. rewrite Hbuf.
  rewrite outcome_bind. cbn [call outcome snd]. rewrite Himp.
  rewrite outcome_bind.
  destruct (outcome (openPdf env data)) as [pdf|e].
  - rewrite outcome_bind.
    destruct (outcome (pagesLoop pdf (numPages pdf) 1 "")) as [text|e]; reflexivity.
  - reflexivity.
Qed.

Lemma extract_pdf_attempts (file : File) (data : bytes) :
  isPDF file = true ->
  arrayBuffer file = Ok data ->
  import_pdfjs env = Ok tt ->
  openAttempts (trace (extractTextFromFile env file)) =
  openAttempts (trace (openPdf env data)).
Proof.
  intros Hpdf Hbuf Himp. unfold extractTextFromFile. rewrite Hpdf.
  unfold call at 1 2. rewrite Hbuf, Himp. cbn [bind].
  destruct (openPdf env data) as [t [pdf|e]]; cbn [bind trace fst].
  - pose proof (pagesLoop_no_open pdf (numPages pdf) 1 "") as Hno.
    destruct (pagesLoop pdf (numPages pdf) 1 "") as [t' [text|e]];
      cbn [trace fst] in Hno;
      cbn [bind tryCatch trace fst call throw ret];
      change (?a :: ?l) with ([a] ++ l)%list;
      rewrite !openAttempts_app, ?Hno, ?app_nil_r; reflexivity.
  - cbn [bind tryCatch trace fst call throw ret].
    change (?a :: ?l) with ([a] ++ l)%list.
    rewrite !openAttempts_app, ?app_nil_r. reflexivity.
Qed.

(** For an [Error] object with a message, the text tested is that message. *)
Lemma errMsg_of_error (n m : string) :
  m <> "" -> errMsg (ErrObj n m) = m.
Proof.
  intros Hm. unfold errMsg, Js.truthy.
  destruct (String.eqb_spec m ""); [contradiction | reflexivity].
Qed.

(** C3.  For a PDF file whose document opens and whose pages can be read,
    extraction returns the lines of pages 1 to [numPages] in order, each
    the page's fragments joined with a space and followed by a newline,
    the whole trimmed: what is returned is that text without the white
    space at its two ends, white space being all that ECMAScript counts as
    such.  A document without pages gives the empty string. *)
Theorem extract_pdf_pages (file : File) (data : bytes) (pdf : PdfDoc)
    (frags : nat -> list TextItem) :
  isPDF file = true ->
  arrayBuffer file = Ok data ->
  import_pdfjs env = Ok tt ->
  outcome (openPdf env data) = Ok pdf ->
  (forall i, 1 <= i <= numPages pdf -> pageHolds pdf i (frags i)) ->
  outcome (extractTextFromFile env file) =
    Ok (Js.trim (pagesText frags (numPages pdf))) /\
  trimmedOf (pagesText frags (numPages pdf))
            (Js.trim (pagesText frags (numPages pdf))) /\
  (numPages pdf = 0 -> outcome (extractTextFromFile env file) = Ok "").
Proof.
  intros Hpdf Hbuf Himp Hopen Hpages.
  assert (Hout : outcome (extractTextFromFile env file) =
                 Ok (Js.trim (pagesText frags (numPages pdf)))).
  { rewrite (extract_pdf_outcome file data Hpdf Hbuf Himp), Hopen.
    rewrite (pagesLoop_readable pdf frags) by (intros j Hj; apply Hpages; lia).
    reflexivity. }
  split; [exact Hout|]. split; [apply trim_spec|].
  intros Hz. rewrite Hout, Hz. reflexivity.
Qed.

(** C4.  When the first attempt to open the document fails with an error
    whose message text contains "does not match the Worker version", the
    document is opened a second and last time with [disableWorker: true]
    in that call alone, and the outcome of that attempt is the outcome of
    the opening: extraction then goes on with the document it gave.  When
    the text lacks the substring, the error is rethrown after the single
    attempt and extraction rejects with it. *)
Theorem openPdf_retry_once (file : File) (data : bytes) (err : JsErr) :
  isPDF file = true ->
  arrayBuffer file = Ok data ->
  import_pdfjs env = Ok tt ->
  getDocument env data false = Err err ->
  (Js.includes (errMsg err) WORKER_MISMATCH = true ->
     openPdf env data =
       ([EvGetDocument false; EvGetDocument true], getDocument env data true) /\
     openAttempts (trace (extractTextFromFile env file)) = [false; true] /\
     forall pdf text,
       getDocument env data true = Ok pdf ->
       outcome (pagesLoop pdf (numPages pdf) 1 "") = Ok text ->
       outcome (extractTextFromFile env file) = Ok (Js.trim text)) /\
  (Js.includes (errMsg err) WORKER_MISMATCH = false ->
     openPdf env data = ([EvGetDocument false], Err err) /\
     openAttempts (trace (extractTextFromFile env file)) = [false] /\
     outcome (extractTextFromFile env file) = Err err).
Proof.
  intros Hpdf Hbuf Himp Hfirst.
  split; intros Hmsg.
  - assert (Hopen : openPdf env data =
        ([EvGetDocument false; EvGetDocument true], getDocument env data true)).
    { unfold openPdf, tryCatch, call. rewrite Hfirst, Hmsg. reflexivity. }
    split; [exact Hopen|]. split.
    + rewrite (extract_pdf_attempts file data Hpdf Hbuf Himp), Hopen. reflexivity.
    + intros pdf text Hretry Htext.
      rewrite (extract_pdf_outcome file data Hpdf Hbuf Himp), Hopen.
      cbn [outcome snd]. now rewrite Hretry, Htext.
  - assert (Hopen : openPdf env data = ([EvGetDocument false], Err err)).
    { unfold openPdf, tryCatch, call, throw. rewrite Hfirst, Hmsg. reflexivity. }
    split; [exact Hopen|]. split.
    + rewrite (extract_pdf_attempts file data Hpdf Hbuf Himp), Hopen. reflexivity.
    + rewrite (extract_pdf_outcome file data Hpdf Hbuf Himp), Hopen. reflexivity.
Qed.

End PdfPath.

Lemma extract_pdf_pages_witness :
  outcome (DocChat.extractTextFromFile mismatch_env paper_pdf) =
    Ok ("Hello world" ++ LF ++ "bye") /\
  outcome (DocChat.extractTextFromFile padded_env paper_pdf) = Ok "Hello".
Proof.
  split.
  - refine (eq_trans
      (proj1 (extract_pdf_pages mismatch_env paper_pdf [] sample_doc sample_frags
                eq_refl eq_refl eq_refl eq_refl _)) eq_refl).
    intros i Hi. unfold pageHolds. eexists; split; reflexivity.
  - refine (eq_trans
      (proj1 (extract_pdf_pages padded_env paper_pdf [] padded_doc
                (fun _ => [mkItem (Some (NBSP ++ "Hello" ++ IDEOGRAPHIC_SPACE))])
                eq_refl eq_refl eq_refl eq_refl _)) eq_refl).
    intros i Hi. unfold pageHolds. eexists; split; reflexivity.
Defined.

(** The earlier copy of the component puts no newline between pages and
    does not trim. *)
Remark legacy_pdf_pages_run_together :
  outcome (Legacy.extractTextFromFile plain_env paper_pdf) = Ok "Hello worldbye" /\
  outcome (DocChat.extractTextFromFile plain_env paper_pdf)
    = Ok ("Hello world" ++ LF ++ "bye").
Proof. split; reflexivity. Qed.

Lemma openPdf_retry_once_witness :
  openAttempts (trace (DocChat.extractTextFromFile mismatch_env paper_pdf))
    = [false; true] /\
  openAttempts (trace (DocChat.extractTextFromFile broken_env paper_pdf))
    = [false].
Proof.
  split.
  - exact (proj1 (proj2 (proj1
      (openPdf_retry_once mismatch_env paper_pdf [] mismatch_error
         eq_refl eq_refl eq_refl eq_refl) eq_refl))).
  - exact (proj1 (proj2 (proj2
      (openPdf_retry_once broken_env paper_pdf [] invalid_pdf_error
         eq_refl eq_refl eq_refl eq_refl) eq_refl))).
Defined.

(** ** Joining extractions *)

Section Joining.

Context {A : Type}.

Lemma promiseAll_cons (p : M A) (ps : list (M A)) :
  outcome (promiseAll (p :: ps)) =
  match outcome p, outcome (promiseAll ps) with
  | Ok a, Ok l => Ok (a :: l)
  | Err e, _ => Err e
  | Ok _, Err e => Err e
  end.
Proof. destruct p as [t r]. simpl. destruct (promiseAll ps). reflexivity. Qed.

(** One rejection makes the joint promise reject. *)
Lemma promiseAll_rejects (ps : list (M A)) :
  (exists p, In p ps /\ isOk (outcome p) = false) ->
  isOk (outcome (promiseAll ps)) = false.
Proof.
  induction ps as [|p ps IH]; intros [q [Hin Hq]]; [destruct Hin|].
  rewrite promiseAll_cons.
  destruct (outcome p) as [a|e] eqn:Hp; [|reflexivity].
  destruct Hin as [<- | Hin]; [rewrite Hp in Hq; discriminate|].
  assert (H : isOk (outcome (promiseAll ps)) = false) by (apply IH; eauto).
  destruct (outcome (promiseAll ps)); [discriminate | reflexivity].
Qed.

(** When all resolve, so does the joint promise, with the values in
    input order. *)
Lemma promiseAll_resolves (ps : list (M A)) (vs : list A) :
  map outcome ps = map Ok vs ->
  outcome (promiseAll ps) = Ok vs.
Proof.
  revert vs. induction ps as [|p ps IH]; intros [|v vs] H; try discriminate.
  - reflexivity.
  - simpl in H. injection H as Hp Hps.
    rewrite promiseAll_cons, Hp, (IH vs Hps). reflexivity.
Qed.

End Joining.

(** ** The session: processing documents and sending questions *)

Section Session.

Import DocChat.

Variable env : Env.

(** Where [handleProcessDocuments] leaves the state, by the outcome of the
    joint extraction, and that it completes normally either way. *)
Lemma handleProcessDocuments_run (st : State) :
  files st <> [] ->
  finalState (handleProcessDocuments env st) =
    match outcome (promiseAll (extractions env st)) with
    | Ok texts =>
        mkState (files st) (assemble texts) true
                [mkMsg (randomUUID env (uuidCount st)) assistant WELCOME]
                (input st) false (S (uuidCount st))
    | Err _ =>
        mkState (files st) (knowledgeBase st) (isReady st) (messages st)
                (input st) false (uuidCount st)
    end /\
  completion (handleProcessDocuments env st) = Ok tt.
Proof.
  intros Hne. unfold handleProcessDocuments, handleProcessDocumentsWith, extractions.
  destruct (files st) as [|f fs] eqn:Hf; [congruence|].
  cbn [List.length Nat.ltb Nat.leb negb].
  unfold hbind, hFinally, hTryCatch, lift, setIsSending, setKnowledgeBase,
    setIsReady, setMessages, newIdWith, secure, consoleError, call.
  cbn [fst snd files knowledgeBase isReady messages input isSending uuidCount].
  rewrite Hf.
  destruct (promiseAll (map (extractTextFromFile env) (f :: fs))) as [t [texts|e]];
    split; reflexivity.
Qed.

Lemma handleProcessDocuments_no_files (st : State) :
  files st = [] -> handleProcessDocuments env st = ([], st, Ok tt).
Proof. intros Hf. unfold handleProcessDocuments, handleProcessDocumentsWith. rewrite Hf. reflexivity. Qed.

Lemma all_resolve_texts (fs : list File) :
  (forall file, In file fs -> isOk (outcome (extractTextFromFile env file)) = true) ->
  exists texts,
    map outcome (map (extractTextFromFile env) fs) = map Ok texts /\
    List.length texts = List.length fs.
Proof.
  induction fs as [|f fs IH]; intros Hall.
  - exists []. split; reflexivity.
  - destruct IH as [texts [Ht Hl]]; [intros; apply Hall; now right|].
    pose proof (Hall f (or_introl eq_refl)) as Hf.
    destruct (outcome (extractTextFromFile env f)) as [v|e] eqn:Ev; [|discriminate].
    exists (v :: texts). simpl. now rewrite Ev, Ht, Hl.
Qed.

(** C2.  Processing is all or nothing.  If the extraction of one of the
    selected files rejects, the knowledge base, the readiness flag and the
    transcript are what they were before the attempt; when the files are
    some and all their extractions resolve, the knowledge base is the
    assembly of their texts, the session is ready and the transcript is
    the welcome message.  The handler completes normally in both cases. *)
Theorem process_all_or_nothing (st : State) :
  ((exists file, In file (files st) /\
                 isOk (outcome (extractTextFromFile env file)) = false) ->
   knowledgeBase (finalState (handleProcessDocuments env st)) = knowledgeBase st /\
   isReady (finalState (handleProcessDocuments env st)) = isReady st /\
   messages (finalState (handleProcessDocuments env st)) = messages st /\
   isSending (finalState (handleProcessDocuments env st)) = false /\
   completion (handleProcessDocuments env st) = Ok tt) /\
  (forall texts,
     files st <> [] ->
     map outcome (extractions env st) = map Ok texts ->
     knowledgeBase (finalState (handleProcessDocuments env st)) = assemble texts /\
     isReady (finalState (handleProcessDocuments env st)) = true /\
     messages (finalState (handleProcessDocuments env st)) =
       [mkMsg (randomUUID env (uuidCount st)) assistant WELCOME] /\
     isSending (finalState (handleProcessDocuments env st)) = false /\
     completion (handleProcessDocuments env st) = Ok tt).
Proof.
  split.
  - intros [file [Hin Hrej]].
    assert (Hne : files st <> []) by (intros E; rewrite E in Hin; destruct Hin).
    destruct (handleProcessDocuments_run st Hne) as [-> ->].
    assert (Hall : isOk (outcome (promiseAll (extractions env st))) = false).
    { apply promiseAll_rejects. exists (extractTextFromFile env file).
      split; [now apply in_map | exact Hrej]. }
    destruct (outcome (promiseAll (extractions env st))); [discriminate|].
    repeat split.
  - intros texts Hne Hall.
    destruct (handleProcessDocuments_run st Hne) as [-> ->].
    rewrite (promiseAll_resolves _ _ Hall). repeat split.
Qed.

(** C10.  After a successful run the transcript is the welcome message
    alone, whatever it held before the run. *)
Theorem process_resets_transcript (st : State) :
  files st <> [] ->
  (forall file, In file (files st) ->
                isOk (outcome (extractTextFromFile env file)) = true) ->
  messages (finalState (handleProcessDocuments env st)) =
    [mkMsg (randomUUID env (uuidCount st)) assistant WELCOME] /\
  List.length (messages (finalState (handleProcessDocuments env st))) = 1.
Proof.
  intros Hne Hall.
  destruct (all_resolve_texts (files st) Hall) as [texts [Ht _]].
  destruct (handleProcessDocuments_run st Hne) as [-> _].
  fold (extractions env st) in Ht. rewrite (promiseAll_resolves _ _ Ht).
  split; reflexivity.
Qed.

Lemma fetches_app (t u : Trace) :
  fetches (t ++ u)%list = (fetches t ++ fetches u)%list.
Proof. apply flat_map_app. Qed.

Lemma bind_no_fetch {A B} (m : M A) (k : A -> M B) :
  fetches (trace m) = [] -> (forall a, fetches (trace (k a)) = []) ->
  fetches (trace (bind m k)) = [].
Proof.
  intros Hm Hk. rewrite trace_bind, fetches_app, Hm.
  destruct (outcome m); [apply Hk | reflexivity].
Qed.

Lemma tryCatch_no_fetch {A} (body : M A) (handler : JsErr -> M A) :
  fetches (trace body) = [] -> (forall e, fetches (trace (handler e)) = []) ->
  fetches (trace (tryCatch body handler)) = [].
Proof.
  intros Hb Hh. rewrite trace_tryCatch, fetches_app, Hb.
  destruct (outcome body); [reflexivity | apply Hh].
Qed.

Lemma pagesLoop_no_fetch (pdf : PdfDoc) :
  forall remaining i acc, fetches (trace (pagesLoop pdf remaining i acc)) = [].
Proof.
  induction remaining as [|k IH]; intros i acc; [reflexivity|].
  cbn [pagesLoop]. apply bind_no_fetch; [reflexivity|]. intros page.
  apply bind_no_fetch; [reflexivity|]. intros content. apply IH.
Qed.

Lemma readAsText_no_fetch (file : File) :
  fetches (trace (readAsText env file)) = [].
Proof.
  apply tryCatch_no_fetch; [reflexivity|]. intros _.
  apply bind_no_fetch; [reflexivity|]. intros buffer. reflexivity.
Qed.

(** Extraction never calls the answering endpoint. *)
Lemma extractTextFromFile_no_fetch (file : File) :
  fetches (trace (extractTextFromFile env file)) = [].
Proof.
  unfold extractTextFromFile. apply tryCatch_no_fetch.
  - destruct (isPDF file); [|destruct (isDOCX file); [|destruct (isTXT file)]].
    + apply bind_no_fetch; [reflexivity|]. intros buffer.
      apply bind_no_fetch; [reflexivity|]. intros _.
      apply bind_no_fetch.
      * unfold openPdf. apply tryCatch_no_fetch; [reflexivity|]. intros err.
        destruct (Js.includes (errMsg err) WORKER_MISMATCH); reflexivity.
      * intros pdf. apply bind_no_fetch; [apply pagesLoop_no_fetch|].
        intros text. reflexivity.
    + apply bind_no_fetch; [reflexivity|]. intros buffer.
      apply bind_no_fetch; [reflexivity|]. intros _.
      apply bind_no_fetch; [reflexivity|]. intros value. reflexivity.
    + apply readAsText_no_fetch.
    + apply readAsText_no_fetch.
  - intros e. apply bind_no_fetch; [reflexivity|]. intros _. reflexivity.
Qed.

Lemma promiseAll_no_fetch {A} (ps : list (M A)) :
  (forall p, In p ps -> fetches (trace p) = []) ->
  fetches (trace (promiseAll ps)) = [].
Proof.
  induction ps as [|[t r] ps IH]; intros Hall; [reflexivity|].
  cbn [promiseAll]. pose proof (IH (fun p Hp => Hall p (or_intror Hp))) as Hrest.
  pose proof (Hall (t, r) (or_introl eq_refl)) as Hfirst.
  destruct (promiseAll ps) as [t2 r2]. cbn [trace fst] in *.
  now rewrite fetches_app, Hrest, Hfirst.
Qed.

(** Processing documents issues no answering request. *)
Lemma handleProcessDocuments_no_fetch (st : State) :
  fetches (events (handleProcessDocuments env st)) = [].
Proof.
  assert (Hjoin : fetches (trace (promiseAll (extractions env st))) = []).
  { apply promiseAll_no_fetch. intros p Hp. unfold extractions in Hp.
    apply in_map_iff in Hp as [file [<- _]]. apply extractTextFromFile_no_fetch. }
  unfold handleProcessDocuments, handleProcessDocumentsWith, extractions in *.
  destruct (0 <? List.length (files st)); [|reflexivity].
  cbn [negb].
  unfold consoleError.
  unfold hbind, hFinally, hTryCatch, lift, setIsSending, setKnowledgeBase,
    setIsReady, setMessages, newIdWith, secure, call.
  cbn [fst snd files knowledgeBase isReady messages input isSending uuidCount].
  destruct (promiseAll (map (extractTextFromFile env) (files st))) as [t [texts|e]];
    cbn [trace fst snd events] in *;
    rewrite ?app_nil_r; cbn [app]; rewrite ?fetches_app, Hjoin; reflexivity.
Qed.

(** C6.  When the input is empty or made of white space, or a reply is
    awaited, or the session is not ready, submitting changes nothing: the
    state is returned as it was, and the only external call is
    [preventDefault], so no answering request is issued.  The other
    handler issues none at all, so none is issued while the session is
    not ready. *)
Theorem handleSend_guard (st : State) :
  Js.allWhiteSpace (input st) = true \/ isSending st = true \/ isReady st = false ->
  handleSend env st = ([EvPreventDefault], st, Ok tt) /\
  fetches (events (handleSend env st)) = [] /\
  fetches (events (handleProcessDocuments env st)) = [].
Proof.
  intros Hguard.
  assert (Hg : negb (Js.truthy (Js.trim (input st))) || isSending st
               || negb (isReady st) = true).
  { destruct Hguard as [Hw | [Hs | Hr]].
    - apply trim_empty_iff in Hw. rewrite Hw. reflexivity.
    - rewrite Hs. now rewrite orb_true_r.
    - rewrite Hr. now rewrite orb_true_r. }
  assert (Heq : handleSend env st = ([EvPreventDefault], st, Ok tt)).
  { unfold handleSend, handleSendWith, hbind, lift, call. cbn [fst snd]. rewrite Hg. reflexivity. }
  split; [exact Heq|]. split; [now rewrite Heq|].
  apply handleProcessDocuments_no_fetch.
Qed.

(** C7.  When a submission passes the guard and its answering request
    fails, the transcript gains the user's message followed by exactly one
    assistant message, the fixed apology; sending is over, and the handler
    completes normally. *)
Theorem handleSend_failure_apology (st : State) :
  Js.allWhiteSpace (input st) = false ->
  isSending st = false ->
  isReady st = true ->
  answeringFails env st ->
  messages (finalState (handleSend env st)) =
    (messages st ++
     [userMsgOf env st; mkMsg (randomUUID env (S (uuidCount st))) assistant APOLOGY])%list /\
  List.length (filter isAssistant (messages (finalState (handleSend env st)))) =
    S (List.length (filter isAssistant (messages st))) /\
  isSending (finalState (handleSend env st)) = false /\
  completion (handleSend env st) = Ok tt.
Proof.
  intros Hw Hs Hr Hfail.
  assert (Hg : negb (Js.truthy (Js.trim (input st))) || isSending st
               || negb (isReady st) = false).
  { rewrite Hs, Hr. unfold Js.truthy.
    destruct (String.eqb_spec (Js.trim (input st)) "") as [E|_]; [|reflexivity].
    apply trim_empty_iff in E. congruence. }
  assert (Hmsgs :
    messages (finalState (handleSend env st)) =
      (messages st ++
       [userMsgOf env st; mkMsg (randomUUID env (S (uuidCount st))) assistant APOLOGY])%list /\
    isSending (finalState (handleSend env st)) = false /\
    completion (handleSend env st) = Ok tt).
  { unfold handleSend, handleSendWith, hbind, hFinally, hTryCatch, lift, setIsSending, setInput,
      setMessages, newIdWith, secure, consoleError, call, hret, hthrow.
    cbn [fst snd]. rewrite Hg.
    cbn [fst snd files knowledgeBase isReady messages input isSending uuidCount].
    fold (userMsgOf env st). fold (requestOf env st).
    destruct Hfail as [[e He] | [status [body [reply He]]]]; rewrite He.
    - cbn. rewrite <- List.app_assoc. repeat split.
    - cbn. destruct body as [t|e]; cbn; rewrite <- List.app_assoc; repeat split. }
  destruct Hmsgs as [Hm [Hsend Hc]].
  repeat split; try assumption.
  rewrite Hm, filter_app, List.length_app. cbn. lia.
Qed.

End Session.

(** ** The worker bootstrap *)

Section Bootstrap.

Import PdfjsWorker.

Variable host : Host.

Lemma setNth_beyond {A} (a : A) : forall (l : list A) (n : nat),
  nth_error l n = None -> setNth n a l = l.
Proof.
  induction l as [|x l IH]; intros [|n] H; simpl in *;
    try reflexivity; try discriminate. now rewrite IH.
Qed.

Lemma nth_error_setNth_same {A} (a : A) : forall (l : list A) (n : nat),
  n < List.length l -> nth_error (setNth n a l) n = Some a.
Proof.
  induction l as [|x l IH]; intros [|n] H; simpl in *; try lia; try reflexivity.
  apply IH. lia.
Qed.

Lemma nth_error_setNth_keeps {A} (a : A) : forall (l : list A) (n m : nat),
  nth_error l m = Some a -> nth_error (setNth n a l) m = Some a.
Proof.
  induction l as [|x l IH]; intros [|n] [|m] H; simpl in *;
    try discriminate; try assumption; try reflexivity. now apply IH.
Qed.

Lemma Forall_setNth {A} (P : A -> Prop) (a : A) : forall (l : list A) (n : nat),
  P a -> Forall P l -> Forall P (setNth n a l).
Proof.
  induction l as [|x l IH]; intros [|n] Ha Hl; simpl;
    inversion Hl; subst; constructor; auto.
Qed.

Lemma stepCall_configured cid g pc :
  configured g -> configured (fst (stepCall host cid g pc)).
Proof.
  intros Hg. destruct pc; simpl; try exact Hg.
  - destruct (initialized g) eqn:Hi; [exact Hg|].
    destruct (hasWindow host); simpl; [|exact Hg].
    intros Hinit. simpl in Hinit. congruence.
  - destruct (importResult host cid); [|exact Hg].
    intros _. simpl. split; [reflexivity | apply in_or_app; right; now left].
Qed.

Lemma resume_configured sys cid :
  configured (fst sys) -> configured (fst (resume host sys cid)).
Proof.
  intros Hg. unfold resume. destruct (nth_error (snd sys) cid) as [pc|]; [|exact Hg].
  pose proof (stepCall_configured cid (fst sys) pc Hg) as H.
  destruct (stepCall host cid (fst sys) pc). exact H.
Qed.

Lemma run_configured schedule : forall sys,
  configured (fst sys) -> configured (fst (run host schedule sys)).
Proof.
  induction schedule as [|cid rest IH]; intros sys Hg; [exact Hg|].
  apply IH. now apply resume_configured.
Qed.

Lemma resume_settled g pcs cid :
  initialized g = true -> Forall settled pcs ->
  resume host (g, pcs) cid = (g, setNth cid Returned pcs).
Proof.
  intros Hi Hs. unfold resume. cbn [fst snd].
  destruct (nth_error pcs cid) as [pc|] eqn:Hn.
  - assert (Hpc : settled pc).
    { apply (proj1 (Forall_forall settled pcs) Hs). eapply nth_error_In; eauto. }
    destruct Hpc as [-> | ->]; simpl; [now rewrite Hi | reflexivity].
  - now rewrite setNth_beyond.
Qed.

Lemma run_settled later : forall g pcs,
  initialized g = true -> Forall settled pcs ->
  exists pcs',
    run host later (g, pcs) = (g, pcs') /\
    Forall settled pcs' /\
    List.length pcs' = List.length pcs /\
    (forall cid, nth_error pcs cid = Some Returned -> nth_error pcs' cid = Some Returned) /\
    (forall cid, In cid later -> cid < List.length pcs ->
                 nth_error pcs' cid = Some Returned).
Proof.
  induction later as [|c later IH]; intros g pcs Hi Hs.
  - exists pcs. repeat split; auto. intros cid [].
  - cbn [run fold_left]. rewrite (resume_settled g pcs c Hi Hs).
    assert (Hs1 : Forall settled (setNth c Returned pcs))
      by (apply Forall_setNth; [now right | exact Hs]).
    assert (Hl1 : List.length (setNth c Returned pcs) = List.length pcs).
    { clear. revert c. induction pcs as [|x l IHl]; intros [|c]; simpl; auto. }
    destruct (IH g _ Hi Hs1) as [pcs' [Hrun [Hs' [Hl' [Hkeep Hret]]]]].
    exists pcs'. fold (run host later (g, setNth c Returned pcs)).
    split; [exact Hrun|]. split; [exact Hs'|]. split; [congruence|]. split.
    + intros cid Hcid. apply Hkeep. now apply nth_error_setNth_keeps.
    + intros cid [<- | Hin] Hlt.
      * apply Hkeep. now apply nth_error_setNth_same.
      * apply Hret; [exact Hin | lia].
Qed.

End Bootstrap.

(** C8, as stated, fails: when two calls interleave at the import (the
    second is made while the first awaits), both find the flag down, both
    import, and both write [workerSrc]. *)
Lemma interleaved_calls_configure_twice :
  PdfjsWorker.imports (PdfjsWorker.run browser [0; 1; 0; 1] (PdfjsWorker.initial 2)) = 2 /\
  PdfjsWorker.writes (PdfjsWorker.run browser [0; 1; 0; 1] (PdfjsWorker.initial 2)) = 2 /\
  PdfjsWorker.writes (PdfjsWorker.run browser [0; 1; 0; 1] (PdfjsWorker.initial 2)) <> 1 /\
  snd (PdfjsWorker.run browser [0; 1; 0; 1] (PdfjsWorker.initial 2))
    = [PdfjsWorker.Returned; PdfjsWorker.Returned].
Proof. repeat split; try reflexivity. discriminate. Qed.

(** C8 (amended).  In a browser where the import resolves: when the first
    call has completed before the others run, the import and the write of
    [workerSrc] are applied exactly once, and every later call returns
    without importing or writing; in every execution the flag is up only
    if [workerSrc] has been written; two calls that interleave at the
    import each apply the import and the write, with the same URL. *)
Theorem ensurePdfjsWorker_once_after_completion (host : PdfjsWorker.Host) :
  PdfjsWorker.hasWindow host = true ->
  PdfjsWorker.importResult host 0 = Ok tt ->
  (forall calls later,
     exists pcs,
       PdfjsWorker.run host (0 :: 0 :: later) (PdfjsWorker.initial (S calls)) =
         (PdfjsWorker.mkGlobal true (Some PdfjsWorker.WORKER_URL)
            [PdfjsWorker.Import; PdfjsWorker.WriteWorkerSrc PdfjsWorker.WORKER_URL],
          pcs) /\
       (forall cid, In cid later -> cid <= calls ->
                    nth_error pcs cid = Some PdfjsWorker.Returned)) /\
  (forall calls schedule,
     configured (fst (PdfjsWorker.run host schedule (PdfjsWorker.initial calls)))) /\
  (PdfjsWorker.importResult host 1 = Ok tt ->
   PdfjsWorker.effects
     (fst (PdfjsWorker.run host [0; 1; 0; 1] (PdfjsWorker.initial 2))) =
     [PdfjsWorker.Import; PdfjsWorker.Import;
      PdfjsWorker.WriteWorkerSrc PdfjsWorker.WORKER_URL;
      PdfjsWorker.WriteWorkerSrc PdfjsWorker.WORKER_URL]).
Proof.
  intros Hwin Himp. split; [|split].
  - intros calls later.
    assert (Hfirst :
      PdfjsWorker.run host [0; 0] (PdfjsWorker.initial (S calls)) =
        (PdfjsWorker.mkGlobal true (Some PdfjsWorker.WORKER_URL)
           [PdfjsWorker.Import; PdfjsWorker.WriteWorkerSrc PdfjsWorker.WORKER_URL],
         PdfjsWorker.Returned :: repeat PdfjsWorker.Entry calls)).
    { unfold PdfjsWorker.run, PdfjsWorker.initial, PdfjsWorker.resume. cbn.
      rewrite Hwin. cbn. rewrite Himp. reflexivity. }
    change (0 :: 0 :: later) with ([0; 0] ++ later)%list.
    unfold PdfjsWorker.run in *. rewrite fold_left_app, Hfirst.
    destruct (run_settled host later
                (PdfjsWorker.mkGlobal true (Some PdfjsWorker.WORKER_URL)
                   [PdfjsWorker.Import;
                    PdfjsWorker.WriteWorkerSrc PdfjsWorker.WORKER_URL])
                (PdfjsWorker.Returned :: repeat PdfjsWorker.Entry calls)
                eq_refl)
      as [pcs [Hrun [_ [_ [_ Hret]]]]].
    { constructor; [now right|]. apply Forall_forall. intros pc Hpc.
      apply repeat_spec in Hpc. now left. }
    exists pcs. split; [exact Hrun|].
    intros cid Hin Hle. apply Hret; [exact Hin|].
    cbn. rewrite repeat_length. lia.
  - intros calls schedule. apply run_configured. intros H. discriminate H.
  - intros Himp1.
    unfold PdfjsWorker.run, PdfjsWorker.initial, PdfjsWorker.resume. cbn.
    repeat (first [rewrite Hwin | rewrite Himp | rewrite Himp1]; cbn).
    reflexivity.
Qed.

Lemma ensurePdfjsWorker_once_after_completion_witness :
  exists pcs,
    PdfjsWorker.run browser [0; 0; 1; 1] (PdfjsWorker.initial 2) =
      (PdfjsWorker.mkGlobal true (Some PdfjsWorker.WORKER_URL)
         [PdfjsWorker.Import; PdfjsWorker.WriteWorkerSrc PdfjsWorker.WORKER_URL],
       pcs) /\
    (forall cid, In cid [1; 1] -> cid <= 1 ->
                 nth_error pcs cid = Some PdfjsWorker.Returned).
Proof.
  exact (proj1 (ensurePdfjsWorker_once_after_completion browser eq_refl eq_refl)
               1 [1; 1]).
Defined.

(** *** Runs of the session handlers on the sample inputs *)

Lemma process_all_or_nothing_witness :
  DocChat.knowledgeBase (finalState (DocChat.handleProcessDocuments broken_env reprocess_state))
    = "some notes" /\
  DocChat.isReady (finalState (DocChat.handleProcessDocuments broken_env reprocess_state))
    = true /\
  DocChat.messages (finalState (DocChat.handleProcessDocuments broken_env reprocess_state))
    = [earlier_turn] /\
  DocChat.isSending (finalState (DocChat.handleProcessDocuments broken_env reprocess_state))
    = false /\
  completion (DocChat.handleProcessDocuments broken_env reprocess_state) = Ok tt.
Proof.
  apply (proj1 (process_all_or_nothing broken_env reprocess_state)).
  exists paper_pdf. split; [right; left; reflexivity | reflexivity].
Defined.

Lemma process_resets_transcript_witness :
  DocChat.messages (finalState (DocChat.handleProcessDocuments mismatch_env reprocess_state))
    = [mkMsg "7" assistant WELCOME] /\
  List.length
    (DocChat.messages (finalState (DocChat.handleProcessDocuments mismatch_env reprocess_state)))
    = 1.
Proof.
  apply (process_resets_transcript mismatch_env reprocess_state).
  - discriminate.
  - intros file [<- | [<- | []]]; reflexivity.
Defined.

Lemma handleSend_guard_witness :
  (DocChat.handleSend mismatch_env blank_input_state
     = ([EvPreventDefault], blank_input_state, Ok tt) /\
   fetches (events (DocChat.handleSend mismatch_env blank_input_state)) = [] /\
   fetches (events (DocChat.handleProcessDocuments mismatch_env blank_input_state)) = []) /\
  (DocChat.handleSend mismatch_env unicode_blank_state
     = ([EvPreventDefault], unicode_blank_state, Ok tt) /\
   fetches (events (DocChat.handleSend mismatch_env unicode_blank_state)) = [] /\
   fetches (events (DocChat.handleProcessDocuments mismatch_env unicode_blank_state)) = []).
Proof.
  split.
  - apply (handleSend_guard mismatch_env blank_input_state). left. reflexivity.
  - apply (handleSend_guard mismatch_env unicode_blank_state). left. reflexivity.
Defined.

Lemma handleSend_failure_apology_witness :
  DocChat.messages (finalState (DocChat.handleSend mismatch_env ready_state)) =
    [earlier_turn;
     mkMsg "7" user "What is this about?";
     mkMsg "8" assistant APOLOGY] /\
  DocChat.messages (finalState (DocChat.handleSend broken_env ready_state)) =
    [earlier_turn;
     mkMsg "7" user "What is this about?";
     mkMsg "8" assistant APOLOGY] /\
  DocChat.messages (finalState (DocChat.handleSend broken_env padded_question_state)) =
    [earlier_turn;
     mkMsg "7" user "What is this about?";
     mkMsg "8" assistant APOLOGY].
Proof.
  split; [|split].
  - refine (proj1 (handleSend_failure_apology mismatch_env ready_state
                     eq_refl eq_refl eq_refl _)).
    left. exists network_error. reflexivity.
  - refine (proj1 (handleSend_failure_apology broken_env ready_state
                     eq_refl eq_refl eq_refl _)).
    right. do 3 eexists. reflexivity.
  - refine (proj1 (handleSend_failure_apology broken_env padded_question_state
                     eq_refl eq_refl eq_refl _)).
    right. do 3 eexists. reflexivity.
Defined.

(* ================================================================== *)
(** * Further properties of the code *)
(* ================================================================== *)

(** ** What extraction calls, logs and returns *)

Section Quiet.

Context {B : Type} (f : Event -> list B).

Lemma quiet_bind {A C} (m : M A) (k : A -> M C) :
  quiet f m -> (forall a, quiet f (k a)) -> quiet f (bind m k).
Proof.
  unfold quiet. intros Hm Hk. rewrite trace_bind, flat_map_app, Hm.
  destruct (outcome m); [apply Hk | reflexivity].
Qed.

Lemma quiet_tryCatch {A} (body : M A) (handler : JsErr -> M A) :
  quiet f body -> (forall e, quiet f (handler e)) -> quiet f (tryCatch body handler).
Proof.
  unfold quiet. intros Hb Hh. rewrite trace_tryCatch, flat_map_app, Hb.
  destruct (outcome body); [reflexivity | apply Hh].
Qed.

Lemma quiet_call {A} (ev : Event) (r : Res A) : f ev = [] -> quiet f (call ev r).
Proof. unfold quiet. cbn. intros ->. reflexivity. Qed.

Lemma quiet_ret {A} (a : A) : quiet f (ret a).
Proof. reflexivity. Qed.

Lemma quiet_throw {A} (e : JsErr) : quiet f (@throw A e).
Proof. reflexivity. Qed.

End Quiet.

Section Extraction.

Import DocChat.

Variable env : Env.

(** The dispatcher's body, before the outer [catch] that logs. *)
Lemma extract_body_quiet_console (file : File) (body : M string) :
  extractTextFromFile env file =
    tryCatch body
      (fun e => call (EvConsoleError "[v0] extractTextFromFile error:" e) (Ok tt) ;;;
                throw e) ->
  consoleErrors (trace (extractTextFromFile env file)) =
    (consoleErrors (trace body) ++
     match outcome body with Ok _ => [] | Err e => [e] end)%list /\
  outcome (extractTextFromFile env file) = outcome body.
Proof.
  intros ->. destruct body as [t [v|e]]; cbn; (split; [|reflexivity]).
  - now rewrite app_nil_r.
  - unfold consoleErrors. rewrite flat_map_app. reflexivity.
Qed.

Lemma pagesLoop_quiet {B} (f : Event -> list B) (pdf : PdfDoc) :
  (forall i, f (EvGetPage i) = []) -> (forall i, f (EvGetTextContent i) = []) ->
  forall remaining i acc, quiet f (pagesLoop pdf remaining i acc).
Proof.
  intros Hp Hc. induction remaining as [|k IH]; intros i acc; [reflexivity|].
  cbn [pagesLoop]. apply quiet_bind; [apply quiet_call, Hp|]. intros page.
  apply quiet_bind; [apply quiet_call, Hc|]. intros content. apply IH.
Qed.

Lemma readAsText_quiet {B} (f : Event -> list B) (file : File) :
  f (EvFileText (name file)) = [] -> f (EvArrayBuffer (name file)) = [] ->
  quiet f (readAsText env file).
Proof.
  intros Ht Hb. apply quiet_tryCatch; [apply quiet_call, Ht|]. intros _.
  apply quiet_bind; [apply quiet_call, Hb|]. intros buffer. apply quiet_ret.
Qed.

Lemma openPdf_quiet {B} (f : Event -> list B) (data : bytes) :
  (forall d, f (EvGetDocument d) = []) -> quiet f (openPdf env data).
Proof.
  intros Hd. apply quiet_tryCatch; [apply quiet_call, Hd|]. intros err.
  cbv zeta. destruct (Js.includes (errMsg err) WORKER_MISMATCH);
    [apply quiet_call, Hd | apply quiet_throw].
Qed.

Lemma extractTextFromFile_quiet {B} (f : Event -> list B) (file : File) :
  (forall n, f (EvArrayBuffer n) = []) ->
  (forall n, f (EvFileText n) = []) ->
  (forall m, f (EvImport m) = []) ->
  (forall d, f (EvGetDocument d) = []) ->
  (forall i, f (EvGetPage i) = []) ->
  (forall i, f (EvGetTextContent i) = []) ->
  f EvExtractRawText = [] ->
  (forall e, f (EvConsoleError "[v0] extractTextFromFile error:" e) = []) ->
  quiet f (extractTextFromFile env file).
Proof.
  intros Hb Ht Hi Hd Hp Hc Hr He. unfold extractTextFromFile.
  apply quiet_tryCatch.
  - destruct (isPDF file); [|destruct (isDOCX file); [|destruct (isTXT file)]].
    + apply quiet_bind; [now apply quiet_call|]. intros buffer.
      apply quiet_bind; [now apply quiet_call|]. intros _.
      apply quiet_bind; [now apply openPdf_quiet|]. intros pdf.
      apply quiet_bind; [now apply pagesLoop_quiet|]. intros t. apply quiet_ret.
    + apply quiet_bind; [now apply quiet_call|]. intros buffer.
      apply quiet_bind; [now apply quiet_call|]. intros _.
      apply quiet_bind; [now apply quiet_call|]. intros value. apply quiet_ret.
    + now apply readAsText_quiet.
    + now apply readAsText_quiet.
  - intros e. apply quiet_bind; [now apply quiet_call | intros; apply quiet_throw].
Qed.

(** X1.  Whether it resolves or rejects, an extraction logs with
    [console.error] exactly the error it rejects with, once, and nothing
    when it resolves. *)
Theorem extract_logs_its_rejection (file : File) :
  consoleErrors (trace (extractTextFromFile env file)) =
  match outcome (extractTextFromFile env file) with
  | Ok _ => []
  | Err e => [e]
  end.
Proof.
  unfold extractTextFromFile.
  match goal with
  | |- context [tryCatch ?b ?h] =>
      destruct (extract_body_quiet_console file b eq_refl) as [Hc Ho];
      assert (Hq : quiet (fun ev => match ev with EvConsoleError _ e => [e] | _ => [] end) b)
  end.
  { destruct (isPDF file); [|destruct (isDOCX file); [|destruct (isTXT file)]].
    - apply quiet_bind; [now apply quiet_call|]. intros buffer.
      apply quiet_bind; [now apply quiet_call|]. intros _.
      apply quiet_bind; [now apply openPdf_quiet|]. intros pdf.
      apply quiet_bind; [now apply pagesLoop_quiet|]. intros t. apply quiet_ret.
    - apply quiet_bind; [now apply quiet_call|]. intros buffer.
      apply quiet_bind; [now apply quiet_call|]. intros _.
      apply quiet_bind; [now apply quiet_call|]. intros value. apply quiet_ret.
    - now apply readAsText_quiet.
    - now apply readAsText_quiet. }
  unfold extractTextFromFile in Hc, Ho. rewrite Hc, Ho.
  unfold quiet in Hq. unfold consoleErrors at 1. rewrite Hq. reflexivity.
Qed.

End Extraction.

Section ExtractionPaths.

Import DocChat.

Variable env : Env.

Lemma truthy_or_empty (v : string) : (if Js.truthy v then v else "") = v.
Proof. destruct v; reflexivity. Qed.

(** X2.  A file that is not taken for a PDF and is taken for a DOCX is
    handed to mammoth alone: once its buffer is read and the library
    imported, extraction resolves with the raw text mammoth gives, the
    empty string when it gives none, and pdf.js is never asked to open it. *)
Theorem extract_docx (file : File) (data : bytes) (value : option string) :
  isPDF file = false ->
  isDOCX file = true ->
  arrayBuffer file = Ok data ->
  import_mammoth env = Ok tt ->
  extractRawText env data = Ok value ->
  outcome (extractTextFromFile env file) =
    Ok (match value with Some v => v | None => "" end) /\
  openAttempts (trace (extractTextFromFile env file)) = [] /\
  consoleErrors (trace (extractTextFromFile env file)) = [].
Proof.
  intros Hpdf Hdocx Hbuf Himp Hraw.
  unfold extractTextFromFile, call, bind, tryCatch, ret.
  rewrite Hpdf, Hdocx, Hbuf, Himp, Hraw. cbn.
  destruct value as [v|]; [rewrite truthy_or_empty|]; repeat split.
Qed.

(** X3.  A file taken neither for a PDF nor for a DOCX, plain text or of
    unknown type alike, is read as text: extraction resolves with
    [file.text()] when that resolves, else with the decoded buffer, and
    rejects only when the buffer cannot be read either, with the error of
    the buffer.  No library is imported on the way. *)
Theorem extract_text_fallback (file : File) :
  isPDF file = false ->
  isDOCX file = false ->
  outcome (extractTextFromFile env file) =
    match text file with
    | Ok s => Ok s
    | Err _ =>
        match arrayBuffer file with
        | Ok buffer => Ok (decode env buffer)
        | Err e => Err e
        end
    end /\
  quiet (fun ev => match ev with EvImport m => [m] | _ => [] end)
        (extractTextFromFile env file).
Proof.
  intros Hpdf Hdocx. split.
  - unfold extractTextFromFile, readAsText, call, bind, tryCatch, ret, throw.
    rewrite Hpdf, Hdocx.
    destruct (isTXT file), (text file) as [s|e1], (arrayBuffer file) as [b|e2];
      reflexivity.
  - unfold extractTextFromFile. rewrite Hpdf, Hdocx.
    apply quiet_tryCatch.
    + destruct (isTXT file); now apply readAsText_quiet.
    + intros e. apply quiet_bind; [now apply quiet_call | intros; apply quiet_throw].
Qed.

(** X4.  No file is ever opened by pdf.js more than twice, the second time
    only with the worker disabled; a file not taken for a PDF, or whose
    buffer cannot be read, or for which the library cannot be imported,
    is not opened at all. *)
Theorem extract_open_attempts (file : File) :
  (openAttempts (trace (extractTextFromFile env file)) = [] \/
   openAttempts (trace (extractTextFromFile env file)) = [false] \/
   openAttempts (trace (extractTextFromFile env file)) = [false; true]) /\
  (isPDF file = false \/ isOk (arrayBuffer file) = false \/
   isOk (import_pdfjs env) = false ->
   openAttempts (trace (extractTextFromFile env file)) = []).
Proof.
  assert (Hnone : isPDF file = false \/ isOk (arrayBuffer file) = false \/
                  isOk (import_pdfjs env) = false ->
                  openAttempts (trace (extractTextFromFile env file)) = []).
  { intros [Hpdf | [Hbuf | Himp]].
    - unfold extractTextFromFile. rewrite Hpdf.
      apply (quiet_tryCatch (fun ev => match ev with EvGetDocument d => [d] | _ => [] end)).
      + destruct (isDOCX file); [|destruct (isTXT file); now apply readAsText_quiet].
        apply quiet_bind; [now apply quiet_call|]. intros buffer.
        apply quiet_bind; [now apply quiet_call|]. intros _.
        apply quiet_bind; [now apply quiet_call|]. intros value. apply quiet_ret.
      + intros e. apply quiet_bind; [now apply quiet_call | intros; apply quiet_throw].
    - destruct (isPDF file) eqn:Hpdf.
      + unfold extractTextFromFile, call, bind, tryCatch, throw. rewrite Hpdf.
        destruct (arrayBuffer file); [discriminate | reflexivity].
      + unfold extractTextFromFile. rewrite Hpdf.
        apply (quiet_tryCatch (fun ev => match ev with EvGetDocument d => [d] | _ => [] end)).
        * destruct (isDOCX file); [|destruct (isTXT file); now apply readAsText_quiet].
          apply quiet_bind; [now apply quiet_call|]. intros buffer.
          apply quiet_bind; [now apply quiet_call|]. intros _.
          apply quiet_bind; [now apply quiet_call|]. intros value. apply quiet_ret.
        * intros e. apply quiet_bind; [now apply quiet_call | intros; apply quiet_throw].
    - destruct (isPDF file) eqn:Hpdf.
      + unfold extractTextFromFile, call, bind, tryCatch, throw. rewrite Hpdf.
        destruct (arrayBuffer file); [|reflexivity].
        destruct (import_pdfjs env); [discriminate | reflexivity].
      + unfold extractTextFromFile. rewrite Hpdf.
        apply (quiet_tryCatch (fun ev => match ev with EvGetDocument d => [d] | _ => [] end)).
        * destruct (isDOCX file); [|destruct (isTXT file); now apply readAsText_quiet].
          apply quiet_bind; [now apply quiet_call|]. intros buffer.
          apply quiet_bind; [now apply quiet_call|]. intros _.
          apply quiet_bind; [now apply quiet_call|]. intros value. apply quiet_ret.
        * intros e. apply quiet_bind; [now apply quiet_call | intros; apply quiet_throw]. }
  split; [|exact Hnone].
  destruct (isPDF file) eqn:Hpdf; [|left; apply Hnone; now left].
  destruct (arrayBuffer file) as [data|e] eqn:Hbuf;
    [|left; apply Hnone; right; left; first [now rewrite Hbuf | reflexivity]].
  destruct (import_pdfjs env) as [[]|e] eqn:Himp;
    [|left; apply Hnone; right; right; first [now rewrite Himp | reflexivity]].
  rewrite (extract_pdf_attempts env file data Hpdf Hbuf Himp).
  unfold openPdf, tryCatch, call, throw.
  destruct (getDocument env data false) as [pdf|err]; [right; left; reflexivity|].
  destruct (Js.includes (errMsg err) WORKER_MISMATCH); cbn; auto.
Qed.

End ExtractionPaths.

Section PageFailure.

Import DocChat.

Variable env : Env.

Lemma pagesRequested_app (t u : Trace) :
  pagesRequested (t ++ u)%list = (pagesRequested t ++ pagesRequested u)%list.
Proof. apply flat_map_app. Qed.

(** The loop stops at the first page it cannot read. *)
Lemma pagesLoop_fails (pdf : PdfDoc) (frags : nat -> list TextItem) (k : nat) (e : JsErr) :
  pageFails pdf k e ->
  forall remaining i acc,
  i <= k < i + remaining ->
  (forall j, i <= j < k -> pageHolds pdf j (frags j)) ->
  outcome (pagesLoop pdf remaining i acc) = Err e /\
  pagesRequested (trace (pagesLoop pdf remaining i acc)) = seq i (S (k - i)).
Proof.
  intros Hfail. induction remaining as [|n IH]; intros i acc Hk Hbefore; [lia|].
  cbn [pagesLoop].
  destruct (Nat.eq_dec i k) as [->|Hne].
  - rewrite Nat.sub_diag.
    destruct Hfail as [Hp | [page [Hp Hc]]].
    + unfold call, bind. rewrite Hp. split; reflexivity.
    + unfold call, bind. rewrite Hp, Hc. split; reflexivity.
  - destruct (Hbefore i ltac:(lia)) as [page [Hp Hc]].
    destruct (IH (S i) ((acc ++ Js.join " " (map itemStr (frags i))) ++ LF)
                 ltac:(lia) ltac:(intros j Hj; apply Hbefore; lia)) as [Ho Ht].
    rewrite outcome_bind, trace_bind. cbn [call outcome snd trace fst]. rewrite Hp.
    rewrite outcome_bind, trace_bind. cbn [call outcome snd trace fst]. rewrite Hc.
    split; [exact Ho|].
    rewrite !pagesRequested_app, Ht. cbn.
    replace (k - i) with (S (k - S i)) by lia. reflexivity.
Qed.

Lemma extract_pdf_pagesRequested (file : File) (data : bytes) (pdf : PdfDoc) :
  isPDF file = true ->
  arrayBuffer file = Ok data ->
  import_pdfjs env = Ok tt ->
  outcome (openPdf env data) = Ok pdf ->
  pagesRequested (trace (extractTextFromFile env file)) =
  pagesRequested (trace (pagesLoop pdf (numPages pdf) 1 "")).
Proof.
  intros Hpdf Hbuf Himp Hopen.
  assert (Hq : pagesRequested (trace (openPdf env data)) = [])
    by (now apply (openPdf_quiet env
          (fun ev => match ev with EvGetPage i => [i] | _ => [] end))).
  unfold extractTextFromFile. rewrite Hpdf.
  unfold call at 1 2. rewrite Hbuf, Himp. cbn [bind].
  destruct (openPdf env data) as [t [pdf'|e]]; cbn [outcome snd trace fst] in *;
    [|discriminate].
  injection Hopen as ->. cbn [bind].
  destruct (pagesLoop pdf (numPages pdf) 1 "") as [t' [text|e]];
    cbn [bind tryCatch trace fst call throw ret];
    change (?a :: ?l) with ([a] ++ l)%list;
    rewrite !pagesRequested_app, Hq, ?app_nil_r; reflexivity.
Qed.

(** X5.  When a page of an opened PDF cannot be read (the page itself or
    its text content is refused) while the pages before it can, extraction
    rejects with that page's error, and the pages after it are never
    requested: there is no partial text. *)
Theorem extract_pdf_page_failure (file : File) (data : bytes) (pdf : PdfDoc)
    (frags : nat -> list TextItem) (k : nat) (e : JsErr) :
  isPDF file = true ->
  arrayBuffer file = Ok data ->
  import_pdfjs env = Ok tt ->
  outcome (openPdf env data) = Ok pdf ->
  1 <= k <= numPages pdf ->
  (forall j, 1 <= j < k -> pageHolds pdf j (frags j)) ->
  pageFails pdf k e ->
  outcome (extractTextFromFile env file) = Err e /\
  pagesRequested (trace (extractTextFromFile env file)) = seq 1 k.
Proof.
  intros Hpdf Hbuf Himp Hopen Hk Hbefore Hfail.
  destruct (pagesLoop_fails pdf frags k e Hfail (numPages pdf) 1 ""
              ltac:(lia) Hbefore) as [Ho Ht].
  split.
  - rewrite (extract_pdf_outcome env file data Hpdf Hbuf Himp), Hopen, Ho. reflexivity.
  - rewrite (extract_pdf_pagesRequested file data pdf Hpdf Hbuf Himp Hopen), Ht.
    f_equal. lia.
Qed.

End PageFailure.

Section PdfTrimmed.

Import DocChat.

Variable env : Env.

(** X6.  Whatever a PDF holds, the text its extraction resolves with has
    no white space at either end, of the ASCII range or beyond it: it is
    what was read without the white space at its two ends, and trimming it
    again, on the left or on the right, changes nothing. *)
Theorem extract_pdf_trimmed (file : File) (t : string) :
  isPDF file = true ->
  outcome (extractTextFromFile env file) = Ok t ->
  cleanStart t /\ cleanEnd t /\
  Js.trimStart t = t /\ Js.trimEnd t = t /\ Js.trim t = t.
Proof.
  intros Hpdf Hout.
  assert (Hex : exists raw, t = Js.trim raw).
  { unfold extractTextFromFile in Hout. rewrite Hpdf in Hout.
    rewrite outcome_tryCatch, outcome_bind in Hout. cbn [call outcome snd] in Hout.
    destruct (arrayBuffer file) as [data|e];
      [|rewrite outcome_bind in Hout; discriminate Hout].
    rewrite outcome_bind in Hout. cbn [call outcome snd] in Hout.
    destruct (import_pdfjs env) as [[]|e];
      [|rewrite outcome_bind in Hout; discriminate Hout].
    rewrite outcome_bind in Hout.
    destruct (outcome (openPdf env data)) as [pdf|e];
      [|rewrite outcome_bind in Hout; discriminate Hout].
    rewrite outcome_bind in Hout.
    destruct (outcome (pagesLoop pdf (numPages pdf) 1 "")) as [raw|e];
      [|rewrite outcome_bind in Hout; discriminate Hout].
    cbn in Hout. injection Hout as <-. eauto. }
  destruct Hex as [raw ->].
  destruct (trim_spec raw) as [l [r [_ [_ [_ [Hs He]]]]]].
  split; [exact Hs|]. split; [exact He|].
  split; [now apply cleanStart_trimStart|].
  split; [now apply cleanEnd_trimEnd | apply trim_idempotent].
Qed.

End PdfTrimmed.

Lemma extract_docx_witness :
  outcome (DocChat.extractTextFromFile damaged_env letter_docx) = Ok "" /\
  openAttempts (trace (DocChat.extractTextFromFile damaged_env letter_docx)) = [] /\
  consoleErrors (trace (DocChat.extractTextFromFile damaged_env letter_docx)) = [].
Proof.
  exact (extract_docx damaged_env letter_docx [] None
           eq_refl eq_refl eq_refl eq_refl eq_refl).
Defined.

Lemma extract_text_fallback_witness :
  outcome (DocChat.extractTextFromFile damaged_env blob_bin) = Ok "decoded".
Proof.
  exact (proj1 (extract_text_fallback damaged_env blob_bin eq_refl eq_refl)).
Defined.

Lemma extract_pdf_page_failure_witness :
  outcome (DocChat.extractTextFromFile damaged_env paper_pdf) = Err invalid_pdf_error /\
  pagesRequested (trace (DocChat.extractTextFromFile damaged_env paper_pdf)) = [1; 2].
Proof.
  refine (extract_pdf_page_failure damaged_env paper_pdf [] damaged_doc
            (fun _ => [mkItem (Some "page")]) 2 invalid_pdf_error
            eq_refl eq_refl eq_refl eq_refl _ _ _).
  - cbn. lia.
  - intros j Hj. assert (j = 1) as -> by lia. eexists; split; reflexivity.
  - left. reflexivity.
Defined.

Lemma extract_pdf_trimmed_witness :
  cleanStart "Hello" /\ cleanEnd "Hello" /\
  Js.trimStart "Hello" = "Hello" /\ Js.trimEnd "Hello" = "Hello" /\
  Js.trim "Hello" = "Hello".
Proof.
  exact (extract_pdf_trimmed padded_env paper_pdf "Hello" eq_refl eq_refl).
Defined.

(** ** Submitting a question *)

Section Submitting.

Import DocChat.

Variable env : Env.

(** The run of an accepted submission. *)
Lemma handleSend_accepted_run (st : State) :
  accepted st = true ->
  finalState (handleSend env st) = afterSend env st /\
  fetches (events (handleSend env st)) = [requestOf env st] /\
  completion (handleSend env st) = Ok tt.
Proof.
  unfold accepted. intros Hacc.
  apply andb_prop in Hacc as [Hacc Hr]. apply andb_prop in Hacc as [Ht Hs].
  apply negb_true_iff in Hs.
  unfold handleSend, handleSendWith, afterSend, answerOf.
  unfold consoleError.
  unfold hbind, hFinally, hTryCatch, lift, setIsSending, setInput,
      setMessages, newIdWith, secure, call, hret, hthrow.
  cbn [fst snd]. rewrite Ht, Hs, Hr.
  cbn [negb orb fst snd files knowledgeBase isReady messages input isSending uuidCount].
  fold (userMsgOf env st). fold (requestOf env st).
  destruct (fetch env (requestOf env st)) as [[[[ok status] body] reply]|e].
  - destruct ok, body as [b|eb], reply as [r|er]; cbn;
      rewrite <- ?List.app_assoc, ?Hr; repeat split.
  - cbn. rewrite <- List.app_assoc, ?Hr. repeat split.
Qed.

(** The run of a submission the guard turns down. *)
Lemma handleSend_rejected_run (st : State) :
  accepted st = false ->
  handleSend env st = ([EvPreventDefault], st, Ok tt).
Proof.
  unfold accepted. intros Hacc.
  unfold handleSend, handleSendWith, hbind, lift, call. cbn [fst snd].
  destruct (Js.truthy (Js.trim (input st))), (isSending st), (isReady st);
    try discriminate Hacc; reflexivity.
Qed.


(** Processing under any generator: it completes normally, and nothing is
    left in flight. *)
Lemma handleProcessDocumentsWith_completes (crypto : Crypto) (st : State) :
  completion (handleProcessDocumentsWith crypto env st) = Ok tt /\
  (isSending st = false ->
   isSending (finalState (handleProcessDocumentsWith crypto env st)) = false).
Proof.
  unfold handleProcessDocumentsWith.
  destruct (files st) as [|f fs] eqn:Hf.
  - cbn. split; [reflexivity | auto].
  - cbn [List.length Nat.ltb Nat.leb negb].
    unfold hbind, hFinally, hTryCatch, lift, setIsSending, setKnowledgeBase,
      setIsReady, setMessages, newIdWith, consoleError, call.
    cbn [fst snd files knowledgeBase isReady messages input isSending uuidCount].
    destruct (promiseAll (map (extractTextFromFile env) (f :: fs))) as [t [texts|e]];
      cbn [fst snd files knowledgeBase isReady messages input isSending uuidCount].
    + destruct (crypto (uuidCount st)); split; reflexivity.
    + split; reflexivity.
Qed.

(** Sending under any generator: the only thing that leaves the handler
    is what a call of the generator throws, and nothing is left in
    flight. *)
Lemma handleSendWith_completes (crypto : Crypto) (st : State) :
  (completion (handleSendWith crypto env st) = Ok tt \/
   exists n e, accepted st = true /\ uuidCount st <= n /\ crypto n = Err e /\
               completion (handleSendWith crypto env st) = Err e) /\
  (isSending st = false ->
   isSending (finalState (handleSendWith crypto env st)) = false).
Proof.
  destruct (accepted st) eqn:Hacc.
  - pose proof Hacc as Hacc'. unfold accepted in Hacc'.
    destruct (Js.truthy (Js.trim (input st))) eqn:Ht; [|discriminate].
    destruct (isSending st) eqn:Hs; [discriminate|].
    destruct (isReady st) eqn:Hr; [|discriminate].
    unfold handleSendWith. unfold consoleError.
    unfold hbind, hFinally, hTryCatch, lift, setIsSending, setInput,
      setMessages, newIdWith, call, hret, hthrow.
    cbn [fst snd]. rewrite Ht, Hs, Hr.
    cbn [negb orb fst snd files knowledgeBase isReady messages input isSending uuidCount].
    destruct (crypto (uuidCount st)) as [id|e0] eqn:E0.
    + cbn [fst snd files knowledgeBase isReady messages input isSending uuidCount].
      destruct (crypto (S (uuidCount st))) as [id1|e1] eqn:E1;
        destruct (crypto (S (S (uuidCount st)))) as [id2|e2] eqn:E2;
        match goal with
        | |- context [fetch env ?b] =>
            destruct (fetch env b) as [[[[ok status] body] reply]|e]
        end;
        try (destruct ok, body as [b|eb], reply as [r|er]);
        cbn; repeat (first [rewrite E1 | rewrite E2]; cbn);
        (split; [|reflexivity]);
        first [ left; reflexivity
              | right; exists (S (uuidCount st)); eexists;
                split; [reflexivity|]; split; [lia|]; split; [exact E1 | reflexivity]
              | right; exists (S (S (uuidCount st))); eexists;
                split; [reflexivity|]; split; [lia|]; split; [exact E2 | reflexivity] ].
    + cbn. split; [|auto].
      right. exists (uuidCount st), e0. repeat split; auto.
  - assert (Hrun : handleSendWith crypto env st = ([EvPreventDefault], st, Ok tt)).
    { unfold accepted in Hacc.
      unfold handleSendWith, hbind, lift, call. cbn [fst snd].
      destruct (Js.truthy (Js.trim (input st))), (isSending st), (isReady st);
        try discriminate Hacc; reflexivity. }
    rewrite Hrun. split; [left; reflexivity | auto].
Qed.

(** Sending when the generator throws at once: the rejection leaves the
    handler before anything else is done. *)
Lemma handleSendWith_no_id (crypto : Crypto) (st : State) (e : JsErr) :
  accepted st = true -> crypto (uuidCount st) = Err e ->
  completion (handleSendWith crypto env st) = Err e /\
  fetches (events (handleSendWith crypto env st)) = [] /\
  messages (finalState (handleSendWith crypto env st)) = messages st /\
  input (finalState (handleSendWith crypto env st)) = input st.
Proof.
  intros Hacc E0. unfold accepted in Hacc.
  destruct (Js.truthy (Js.trim (input st))) eqn:Ht; [|discriminate].
  destruct (isSending st) eqn:Hs; [discriminate|].
  destruct (isReady st) eqn:Hr; [|discriminate].
  unfold handleSendWith. unfold consoleError.
  unfold hbind, hFinally, hTryCatch, lift, setIsSending, setInput,
    setMessages, newIdWith, call, hret, hthrow.
  cbn [fst snd]. rewrite Ht, Hs, Hr.
  cbn [negb orb fst snd files knowledgeBase isReady messages input isSending uuidCount].
  rewrite E0. cbn. repeat split.
Qed.

(** X8.  No rejection of what a handler awaits (the reading of a file,
    the import of a library, the parsing of a document, the answering
    request, the reading of its response) escapes the handler, whatever
    the browser does, [crypto.randomUUID] included, which may throw at any
    of its calls.  Processing always completes normally.  Out of sending
    comes only what [crypto.randomUUID] throws where it is called outside
    the [try] block: when it throws for the question's identifier, the
    rejection leaves the handler before any request is made and the
    transcript and the input stay as they were.  In a browser that provides
    the generator both handlers complete normally.  In every case a handler
    that starts while nothing is in flight ends with nothing in flight. *)
Theorem handlers_complete_normally (crypto : Crypto) (st : State) :
  completion (handleProcessDocumentsWith crypto env st) = Ok tt /\
  (completion (handleSendWith crypto env st) = Ok tt \/
   exists n e, accepted st = true /\ uuidCount st <= n /\ crypto n = Err e /\
               completion (handleSendWith crypto env st) = Err e) /\
  (forall e, accepted st = true -> crypto (uuidCount st) = Err e ->
     completion (handleSendWith crypto env st) = Err e /\
     fetches (events (handleSendWith crypto env st)) = [] /\
     messages (finalState (handleSendWith crypto env st)) = messages st /\
     input (finalState (handleSendWith crypto env st)) = input st) /\
  completion (handleSend env st) = Ok tt /\
  completion (handleProcessDocuments env st) = Ok tt /\
  (isSending st = false ->
   isSending (finalState (handleSendWith crypto env st)) = false /\
   isSending (finalState (handleProcessDocumentsWith crypto env st)) = false /\
   isSending (finalState (handleSend env st)) = false /\
   isSending (finalState (handleProcessDocuments env st)) = false).
Proof.
  destruct (handleProcessDocumentsWith_completes crypto st) as [Hp Hpf].
  destruct (handleSendWith_completes crypto st) as [Hs Hsf].
  destruct (handleProcessDocumentsWith_completes (secure env) st) as [Hp' Hpf'].
  destruct (handleSendWith_completes (secure env) st) as [Hs' Hsf'].
  split; [exact Hp|]. split; [exact Hs|].
  split; [intros e Hacc E0; now apply handleSendWith_no_id|].
  split.
  { destruct Hs' as [Hok | [n [e [_ [_ [Habs _]]]]]]; [exact Hok | discriminate Habs]. }
  split; [exact Hp'|].
  intros Hidle. repeat split; auto.
Qed.

(** What each handler leaves alone. *)
Lemma handleSend_frame (st : State) :
  files (finalState (handleSend env st)) = files st /\
  knowledgeBase (finalState (handleSend env st)) = knowledgeBase st /\
  isReady (finalState (handleSend env st)) = isReady st /\
  exists suffix,
    messages (finalState (handleSend env st)) = (messages st ++ suffix)%list /\
    uuidCount (finalState (handleSend env st)) = uuidCount st + List.length suffix.
Proof.
  destruct (accepted st) eqn:Hacc.
  - destruct (handleSend_accepted_run st Hacc) as [-> _]. cbn.
    repeat split. eexists; split; [reflexivity|]. cbn. lia.
  - rewrite (handleSend_rejected_run st Hacc). cbn. repeat split.
    exists []. rewrite app_nil_r. split; [reflexivity | cbn; lia].
Qed.

Lemma handleProcessDocuments_frame (st : State) :
  files (finalState (handleProcessDocuments env st)) = files st /\
  input (finalState (handleProcessDocuments env st)) = input st /\
  (isReady st = true -> isReady (finalState (handleProcessDocuments env st)) = true).
Proof.
  destruct (files st) as [|f fs] eqn:Hf.
  - rewrite (handleProcessDocuments_no_files env st Hf). cbn. auto.
  - destruct (handleProcessDocuments_run env st) as [-> _]; [congruence|].
    destruct (outcome (promiseAll (extractions env st))); cbn; rewrite ?Hf; auto.
Qed.

(** X9.  Sending never touches the selected files, the knowledge base or
    the readiness, and only ever adds messages at the end of the
    transcript; processing never touches the selected files or the input,
    and never takes the readiness back. *)
Theorem handlers_frame (st : State) :
  (files (finalState (handleSend env st)) = files st /\
   knowledgeBase (finalState (handleSend env st)) = knowledgeBase st /\
   isReady (finalState (handleSend env st)) = isReady st /\
   exists suffix,
     messages (finalState (handleSend env st)) = (messages st ++ suffix)%list) /\
  (files (finalState (handleProcessDocuments env st)) = files st /\
   input (finalState (handleProcessDocuments env st)) = input st /\
   (isReady st = true -> isReady (finalState (handleProcessDocuments env st)) = true)).
Proof.
  split; [|apply handleProcessDocuments_frame].
  destruct (handleSend_frame st) as [H1 [H2 [H3 [suffix [H4 _]]]]]. eauto 6.
Qed.

End Submitting.

(** ** Sessions: sequences of gestures on what is rendered *)

Section Sessions.

Import DocChat DocChatUi.

Variable env : Env.

Lemma play_app (gs gs' : list Gesture) (st : State) :
  play env (gs ++ gs') st = play env gs' (play env gs st).
Proof. apply fold_left_app. Qed.

(** A click on Process that the rendering allows. *)
Lemma process_available (st : State) :
  available st ClickProcess = true ->
  isReady st = false /\ isSending st = false /\ files st <> [].
Proof.
  unfold available, showsUpload, processDisabled, hasFiles. intros H.
  apply andb_prop in H as [Hr Hd].
  apply negb_true_iff in Hr. apply negb_true_iff, orb_false_elim in Hd as [Hf Hs].
  apply negb_false_iff in Hf. repeat split; try assumption.
  intros E. rewrite E in Hf. discriminate Hf.
Qed.

Lemma accepted_rendered (st : State) :
  accepted st = negb (showsUpload st) && negb (sendDisabled st).
Proof.
  unfold accepted, showsUpload, sendDisabled.
  destruct (Js.truthy (Js.trim (input st))), (isSending st), (isReady st); reflexivity.
Qed.


Lemma act_idle (st : State) (g : Gesture) : idle st -> idle (act env st g).
Proof.
  intros [Hs Hempty]. unfold act.
  destruct (available st g) eqn:Hav; [|now split].
  destruct g as [[l|]| |v|]; cbn [dispatch handleFileChange].
  - now split.
  - now split.
  - destruct (process_available st Hav) as [Hr [_ Hf]].
    fold (finalState (handleProcessDocuments env st)).
    destruct (handleProcessDocuments_run env st Hf) as [-> _].
    destruct (outcome (promiseAll (extractions env st))); split; cbn; auto.
    intros E. discriminate E.
  - now split.
  - fold (finalState (handleSend env st)).
    destruct (accepted st) eqn:Hacc.
    + destruct (handleSend_accepted_run env st Hacc) as [-> _].
      split; [reflexivity|]. cbn. intros E.
      unfold accepted in Hacc. rewrite E, andb_false_r in Hacc. discriminate Hacc.
    + rewrite (handleSend_rejected_run env st Hacc). now split.
Qed.

Lemma play_idle (gs : list Gesture) : forall st, idle st -> idle (play env gs st).
Proof.
  induction gs as [|g gs IH]; intros st Hst; [exact Hst|].
  apply IH, act_idle, Hst.
Qed.

Lemma initial_idle : idle initialState.
Proof. split; [reflexivity | intros _; split; reflexivity]. Qed.

(** X11.  Between the gestures of any session, no reply or processing is
    pending; and as long as the documents have not been processed, the
    transcript and the knowledge base are empty. *)
Theorem session_idle (gs : list Gesture) :
  isSending (play env gs initialState) = false /\
  (isReady (play env gs initialState) = false ->
   messages (play env gs initialState) = [] /\
   knowledgeBase (play env gs initialState) = "").
Proof. exact (play_idle gs initialState initial_idle). Qed.

Lemma act_extends (st : State) (g : Gesture) :
  idle st -> exists suffix, messages (act env st g) = (messages st ++ suffix)%list.
Proof.
  intros [Hs Hempty]. unfold act.
  destruct (available st g) eqn:Hav;
    [|exists []; now rewrite app_nil_r].
  destruct g as [[l|]| |v|]; cbn [dispatch handleFileChange];
    try (exists []; cbn; now rewrite app_nil_r).
  - destruct (process_available st Hav) as [Hr [_ Hf]].
    fold (finalState (handleProcessDocuments env st)).
    destruct (handleProcessDocuments_run env st Hf) as [-> _].
    destruct (Hempty Hr) as [Hm _].
    destruct (outcome (promiseAll (extractions env st))); cbn; rewrite Hm.
    + eexists. reflexivity.
    + exists []. reflexivity.
  - fold (finalState (handleSend env st)).
    destruct (handleSend_frame env st) as [_ [_ [_ [suffix [Hm _]]]]]. eauto.
Qed.

Lemma play_extends (gs : list Gesture) : forall st,
  idle st -> exists suffix, messages (play env gs st) = (messages st ++ suffix)%list.
Proof.
  induction gs as [|g gs IH]; intros st Hst.
  - exists []. cbn. now rewrite app_nil_r.
  - destruct (act_extends st g Hst) as [s1 H1].
    destruct (IH (act env st g) (act_idle st g Hst)) as [s2 H2].
    exists (s1 ++ s2)%list. cbn [play fold_left]. fold (play env gs (act env st g)).
    now rewrite H2, H1, List.app_assoc.
Qed.

(** X12.  Along a session the transcript only grows at its end: what it
    holds at one moment is a prefix of what it holds at any later one, so
    no message is ever edited or removed by what the user can do. *)
Theorem session_transcript_append_only (gs later : list Gesture) :
  exists suffix,
    messages (play env (gs ++ later) initialState) =
    (messages (play env gs initialState) ++ suffix)%list.
Proof.
  rewrite play_app. apply play_extends, play_idle, initial_idle.
Qed.

Lemma act_ready (st : State) (g : Gesture) :
  isReady st = true ->
  isReady (act env st g) = true /\
  knowledgeBase (act env st g) = knowledgeBase st /\
  files (act env st g) = files st.
Proof.
  intros Hr. unfold act.
  destruct g as [l| |v|]; unfold available, showsUpload; rewrite Hr; cbn [negb andb];
    try (repeat split; assumption).
  - destruct (negb (inputDisabled st)); cbn; auto.
  - cbn [dispatch]. fold (finalState (handleSend env st)).
    destruct (handleSend_frame env st) as [H1 [H2 [H3 _]]].
    rewrite H1, H2, H3. auto.
Qed.

(** X13.  Once the documents are processed the upload panel is gone: from
    then on, whatever the user does, the session stays ready and the
    knowledge base and the selected files stay what they are. *)
Theorem session_ready_is_final (gs : list Gesture) : forall st,
  isReady st = true ->
  isReady (play env gs st) = true /\
  knowledgeBase (play env gs st) = knowledgeBase st /\
  files (play env gs st) = files st.
Proof.
  induction gs as [|g gs IH]; intros st Hr; [auto|].
  destruct (act_ready st g Hr) as [H1 [H2 H3]].
  destruct (IH (act env st g) H1) as [H4 [H5 H6]].
  cbn [play fold_left]. fold (play env gs (act env st g)).
  rewrite H4, H5, H6, H2, H3. auto.
Qed.

End Sessions.

Section SessionTranscript.

Import DocChat DocChatUi.

Variable env : Env.

Lemma act_drawn (st : State) (g : Gesture) :
  drawnIds env st -> drawnIds env (act env st g).
Proof.
  intros Hst. unfold act. destruct (available st g) eqn:Hav; [|exact Hst].
  destruct g as [[l|]| |v|]; cbn [dispatch handleFileChange]; try exact Hst.
  - destruct (process_available st Hav) as [_ [_ Hf]].
    fold (finalState (handleProcessDocuments env st)).
    destruct (handleProcessDocuments_run env st Hf) as [-> _].
    destruct (outcome (promiseAll (extractions env st))); [|exact Hst].
    exists [uuidCount st]. cbn. repeat split.
    + constructor; [intros [] | constructor].
    + constructor; [lia | constructor].
  - fold (finalState (handleSend env st)).
    destruct (accepted st) eqn:Hacc.
    + destruct (handleSend_accepted_run env st Hacc) as [-> _].
      destruct Hst as [ks [Hids [Hnd Hlt]]].
      exists (ks ++ [uuidCount st; S (uuidCount st)])%list.
      unfold afterSend. cbn [messages uuidCount].
      rewrite !map_app, Hids. cbn. repeat split.
      * apply NoDup_app; [exact Hnd | |].
        -- constructor; [intros [E|[]]; lia | constructor; [intros [] | constructor]].
        -- intros k Hk [<- | [<- | []]];
             apply (proj1 (Forall_forall _ ks) Hlt) in Hk; lia.
      * apply Forall_app. split.
        -- revert Hlt. apply Forall_impl. intros k Hk. lia.
        -- repeat constructor; lia.
    + now rewrite (handleSend_rejected_run env st Hacc).
Qed.

Lemma play_drawn (gs : list Gesture) : forall st,
  drawnIds env st -> drawnIds env (play env gs st).
Proof.
  induction gs as [|g gs IH]; intros st Hst; [exact Hst|].
  apply IH, act_drawn, Hst.
Qed.

(** X14.  In a browser whose [crypto.randomUUID] never repeats itself, the
    identifiers of the messages of the transcript are pairwise distinct at
    every moment of every session. *)
Theorem session_ids_unique (gs : list Gesture) :
  injectiveIds env ->
  NoDup (map id (messages (play env gs initialState))).
Proof.
  intros Hinj.
  destruct (play_drawn gs initialState) as [ks [Hids [Hnd _]]].
  { exists []. repeat split; constructor. }
  rewrite Hids. clear Hids.
  induction Hnd as [|k ks Hk Hnd IH]; cbn; constructor; [|exact IH].
  intros Hin. apply in_map_iff in Hin as [k' [Hk' Hin]].
  apply Hinj in Hk'. subst. contradiction.
Qed.

Lemma welcomeThenPairs_next (n : nat) :
  (welcomeThenPairs n ++ [user; assistant])%list = welcomeThenPairs (S n).
Proof.
  unfold welcomeThenPairs. cbn [app]. f_equal.
  change [user; assistant] with (concat [[user; assistant]]) at 2.
  rewrite <- concat_app. f_equal. symmetry. apply repeat_cons.
Qed.

Lemma act_shaped (st : State) (g : Gesture) : shaped st -> shaped (act env st g).
Proof.
  intros [Hempty Hroles]. unfold act.
  destruct (available st g) eqn:Hav; [|now split].
  destruct g as [[l|]| |v|]; cbn [dispatch handleFileChange];
    try (split; assumption).
  - destruct (process_available st Hav) as [Hr [_ Hf]].
    fold (finalState (handleProcessDocuments env st)).
    destruct (handleProcessDocuments_run env st Hf) as [-> _].
    destruct (outcome (promiseAll (extractions env st))); split; cbn; auto.
    + intros E. discriminate E.
    + intros _. exists 0. reflexivity.
  - fold (finalState (handleSend env st)).
    destruct (accepted st) eqn:Hacc.
    + destruct (handleSend_accepted_run env st Hacc) as [-> _].
      assert (Hr : isReady st = true).
      { unfold accepted in Hacc. now apply andb_prop in Hacc as [_ Hr]. }
      split; cbn; [congruence|]. intros _.
      destruct (Hroles Hr) as [n Hn]. exists (S n).
      rewrite map_app, Hn. cbn [map role userMsgOf].
      apply welcomeThenPairs_next.
    + rewrite (handleSend_rejected_run env st Hacc). now split.
Qed.

Lemma play_shaped (gs : list Gesture) : forall st, shaped st -> shaped (play env gs st).
Proof.
  induction gs as [|g gs IH]; intros st Hst; [exact Hst|].
  apply IH, act_shaped, Hst.
Qed.

Lemma alternate_after_prompt (n : nat) :
  (map (fun r => fst (GeminiRoute.turn (r, "")))
       (welcomeThenPairs n ++ [user]))%list =
  concat (repeat [GeminiRoute.g_model; GeminiRoute.g_user] (S n)).
Proof.
  unfold welcomeThenPairs. induction n as [|n IH]; [reflexivity|].
  cbn [repeat concat app map] in *. cbn [GeminiRoute.turn fst] in *.
  do 2 f_equal. exact IH.
Qed.


End SessionTranscript.

Lemma showNat_injective (a b : nat) : DocChat.showNat a = DocChat.showNat b -> a = b.
Proof.
  unfold DocChat.showNat. intros H.
  apply (f_equal NilEmpty.uint_of_string) in H.
  rewrite !NilEmpty.usu in H. injection H as H.
  apply (f_equal Nat.of_uint) in H. now rewrite !DecimalNat.Unsigned.of_to in H.
Qed.


(** Outside a secure context a question is lost without a request and
    without an apology, while processing still completes. *)
Lemma handlers_complete_normally_witness :
  completion (DocChat.handleSendWith no_generator plain_env ready_state) =
    Err (ErrObj "TypeError" "crypto.randomUUID is not a function") /\
  fetches (events (DocChat.handleSendWith no_generator plain_env ready_state)) = [] /\
  DocChat.messages (finalState (DocChat.handleSendWith no_generator plain_env ready_state)) =
    [earlier_turn] /\
  completion (DocChat.handleProcessDocumentsWith no_generator plain_env ready_state) = Ok tt /\
  completion (DocChat.handleSend plain_env ready_state) = Ok tt.
Proof.
  pose proof (handlers_complete_normally plain_env no_generator ready_state)
    as [Hp [_ [Hno [Hs _]]]].
  destruct (Hno _ eq_refl eq_refl) as [Hc [Hf [Hm _]]].
  split; [exact Hc|]. split; [exact Hf|]. split; [exact Hm|].
  split; [exact Hp | exact Hs].
Defined.

(** White space beyond the ASCII range is white space to the guard: an
    input made of it is turned down, and around a question it is dropped
    from what is sent. *)
Remark unicode_blank_not_accepted :
  accepted unicode_blank_state = false /\
  Js.trim (DocChat.input padded_question_state) = "What is this about?".
Proof. split; reflexivity. Qed.

Lemma session_ready_is_final_witness :
  DocChat.isReady
    (DocChatUi.play broken_env
       [DocChatUi.ClickProcess; DocChatUi.PickFiles (Some []); DocChatUi.SubmitForm]
       ready_state) = true /\
  DocChat.knowledgeBase
    (DocChatUi.play broken_env
       [DocChatUi.ClickProcess; DocChatUi.PickFiles (Some []); DocChatUi.SubmitForm]
       ready_state) = "some notes" /\
  DocChat.files
    (DocChatUi.play broken_env
       [DocChatUi.ClickProcess; DocChatUi.PickFiles (Some []); DocChatUi.SubmitForm]
       ready_state) = [notes_txt].
Proof.
  exact (session_ready_is_final broken_env
           [DocChatUi.ClickProcess; DocChatUi.PickFiles (Some []); DocChatUi.SubmitForm]
           ready_state eq_refl).
Defined.

Lemma session_ids_unique_witness :
  NoDup (map id (DocChat.messages
                   (DocChatUi.play plain_env sample_session DocChatUi.initialState))).
Proof.
  apply (session_ids_unique plain_env sample_session).
  intros a b. apply showNat_injective.
Defined.


(** ** The answering route *)

Section Route.

Import GeminiRoute.

(** X16.  The route never throws: it always answers.  It answers with
    status 200 and the model's text as reply exactly when the body is
    read, the key is set and not empty and the model answers; in every
    other case it answers with status 500 and a plain-text body. *)
Theorem POST_always_responds (srv : Server) :
  exists resp,
    snd (POST srv) = Ok resp /\
    ((status resp = 200 /\
      exists parsed key text,
        reqJson srv = Ok parsed /\
        GEMINI_API_KEY srv = Some key /\ key <> "" /\
        generateContent srv key MODEL
          (contentsOf (req_knowledgeBase parsed) (req_messages parsed)) = Ok text /\
        body resp = JsonReply text) \/
     (status resp = 500 /\ exists s, body resp = TextBody s)) /\
    (forall parsed key text,
       reqJson srv = Ok parsed ->
       GEMINI_API_KEY srv = Some key -> key <> "" ->
       generateContent srv key MODEL
         (contentsOf (req_knowledgeBase parsed) (req_messages parsed)) = Ok text ->
       resp = mkResponse 200 (JsonReply text)).
Proof.
  unfold POST, rTryCatch, rbind, rcall, rret.
  destruct (reqJson srv) as [parsed|e].
  2:{ eexists; split; [reflexivity|]. split; [right; cbn; eauto|].
      intros ? ? ? H; discriminate H. }
  destruct (GEMINI_API_KEY srv) as [key|]; cbn [keyMissing].
  2:{ eexists; split; [reflexivity|]. split; [right; cbn; eauto|].
      intros ? ? ? _ H; discriminate H. }
  destruct key as [|c key]; cbn [Js.truthy String.eqb negb].
  { eexists; split; [reflexivity|]. split; [right; cbn; eauto|].
    intros ? ? ? _ [= <-] H; now destruct H. }
  destruct (generateContent srv (String c key) MODEL
              (contentsOf (req_knowledgeBase parsed) (req_messages parsed)))
    as [text|e] eqn:Hgen.
  - eexists; split; [reflexivity|]. split.
    + left. cbn. split; [reflexivity|].
      exists parsed, (String c key), text. repeat split; auto. discriminate.
    + intros parsed' key' text' [= <-] [= <-] _ Hgen'.
      rewrite Hgen in Hgen'. now injection Hgen' as <-.
  - eexists; split; [reflexivity|]. split; [right; cbn; eauto|].
    intros parsed' key' text' [= <-] [= <-] _ Hgen'.
    rewrite Hgen in Hgen'. discriminate Hgen'.
Qed.

(** X17.  The hosted model is called at most once per request, with the
    configured key and the contents built from the request; it is not
    called when the key is missing or empty, in which case the route
    answers 500 "Missing GEMINI_API_KEY" and logs nothing, nor when the
    body cannot be read. *)
Theorem POST_model_calls (srv : Server) :
  (modelCalls (fst (POST srv)) = [] \/
   exists parsed key,
     reqJson srv = Ok parsed /\ GEMINI_API_KEY srv = Some key /\ key <> "" /\
     modelCalls (fst (POST srv)) =
       [(key, contentsOf (req_knowledgeBase parsed) (req_messages parsed))]) /\
  (keyMissing (GEMINI_API_KEY srv) = true ->
   modelCalls (fst (POST srv)) = [] /\
   (isOk (reqJson srv) = true ->
    POST srv = ([SvReqJson], Ok (mkResponse 500 (TextBody "Missing GEMINI_API_KEY"))))) /\
  (isOk (reqJson srv) = false -> modelCalls (fst (POST srv)) = []).
Proof.
  unfold POST, rTryCatch, rbind, rcall, rret.
  destruct (reqJson srv) as [parsed|e].
  - destruct (GEMINI_API_KEY srv) as [[|c key]|]; cbn [keyMissing Js.truthy String.eqb negb].
    + split; [left; reflexivity|].
      split; [intros _; split; [reflexivity | intros _; reflexivity]|].
      intros H; discriminate H.
    + destruct (generateContent srv (String c key) MODEL
                  (contentsOf (req_knowledgeBase parsed) (req_messages parsed))).
      * split; [right; exists parsed, (String c key);
                repeat split; auto; discriminate|].
        split; intros H; discriminate H.
      * split; [right; exists parsed, (String c key);
                repeat split; auto; discriminate|].
        split; intros H; discriminate H.
    + split; [left; reflexivity|].
      split; [intros _; split; [reflexivity | intros _; reflexivity]|].
      intros H; discriminate H.
  - split; [left; reflexivity|].
    split; [intros _; split; [reflexivity | intros H; discriminate H]|].
    intros _; reflexivity.
Qed.

(** X18.  The prompt sent to the model is the fixed instructions followed,
    on a new line, by the knowledge base without its trailing white space
    (of the ASCII range or beyond it); for a knowledge base that is empty
    or blank it is the instructions alone. *)
Theorem systemPrompt_shape (knowledgeBase : string) :
  systemPrompt knowledgeBase =
  (if Js.allWhiteSpace knowledgeBase
   then INSTRUCTIONS
   else INSTRUCTIONS ++ LF ++ Js.trimEnd knowledgeBase) /\
  (exists tail,
     knowledgeBase = Js.trimEnd knowledgeBase ++ tail /\
     Js.allWhiteSpace tail = true) /\
  cleanEnd (Js.trimEnd knowledgeBase).
Proof.
  split; [|split; [apply trimEnd_split | apply trimEnd_cleanEnd]].
  assert (Hstart : systemPrompt knowledgeBase =
                   Js.trimEnd ((INSTRUCTIONS ++ LF) ++ (knowledgeBase ++ LF))).
  { reflexivity. }
  rewrite Hstart.
  assert (Hkb : Js.trimEnd (knowledgeBase ++ LF) = Js.trimEnd knowledgeBase)
    by (now apply trimEnd_app_blank).
  assert (Hall : Js.allWhiteSpace (knowledgeBase ++ LF) = Js.allWhiteSpace knowledgeBase)
    by (now apply allWhiteSpace_app_r).
  rewrite trimEnd_ascii_app by reflexivity. rewrite Hall, Hkb.
  destruct (Js.allWhiteSpace knowledgeBase); [reflexivity|].
  now rewrite string_app_assoc.
Qed.

(** A knowledge base that ends with a no-break space reaches the model
    without it. *)
Remark systemPrompt_drops_nbsp :
  systemPrompt ("notes" ++ NBSP ++ LF) = INSTRUCTIONS ++ LF ++ "notes".
Proof. reflexivity. Qed.

End Route.

(** ** The component served by the route *)

Section Served.

Import DocChat EndToEnd.

Variable env : Env.
Variable d : Deployment.

Lemma answerOf_served (st : State) :
  answerOf (served env d) st = servedAnswer d (requestOf env st).
Proof.
  unfold answerOf, servedAnswer.
  change (requestOf (served env d) st) with (requestOf env st).
  change (fetch (served env d)) with (fetchRoute d).
  unfold fetchRoute, GeminiRoute.POST, GeminiRoute.rTryCatch, GeminiRoute.rbind,
    GeminiRoute.rcall, GeminiRoute.rret.
  cbn [GeminiRoute.reqJson GeminiRoute.GEMINI_API_KEY GeminiRoute.generateContent].
  destruct (apiKey d) as [[|c key]|]; cbn [GeminiRoute.keyMissing Js.truthy String.eqb negb];
    try reflexivity.
  cbn [req_knowledgeBase req_messages].
  destruct (model d (String c key) GeminiRoute.MODEL
              (GeminiRoute.contentsOf (req_knowledgeBase (requestOf env st))
                                      (req_messages (requestOf env st))));
    reflexivity.
Qed.


End Served.


(** ** The worker bootstrap, in every schedule *)

Section BootstrapAccounts.

Import PdfjsWorker.

Variable host : Host.

Lemma length_setNth {A} (a : A) : forall (l : list A) (n : nat),
  List.length (setNth n a l) = List.length l.
Proof. induction l as [|x l IH]; intros [|n]; simpl; auto. Qed.

Lemma count_setNth {A} (p : A -> bool) (a : A) : forall (l : list A) (n : nat) (x : A),
  nth_error l n = Some x ->
  List.length (filter p (setNth n a l)) + (if p x then 1 else 0) =
  List.length (filter p l) + (if p a then 1 else 0).
Proof.
  induction l as [|y l IH]; intros [|n] x Hx; simpl in *; try discriminate.
  - injection Hx as ->. destruct (p a), (p x); simpl; lia.
  - specialize (IH n x Hx). destruct (p y); simpl; lia.
Qed.

Lemma resume_accounted (sys : System) (cid : nat) :
  accounted sys ->
  accounted (resume host sys cid) /\
  List.length (snd (resume host sys cid)) = List.length (snd sys).
Proof.
  destruct sys as [g pcs]. unfold accounted, resume, imports, writes, awaiting, notStarted.
  cbn [fst snd]. intros [Hw [Hi [Heff Hsrc]]].
  destruct (nth_error pcs cid) as [pc|] eqn:Hn; [|cbn [fst snd]; auto].
  pose proof (count_setNth isAwaiting) as Ca. pose proof (count_setNth isEntry) as Ce.
  assert (Happ : forall e,
            e = Import \/ e = WriteWorkerSrc WORKER_URL ->
            Forall (fun e => e = Import \/ e = WriteWorkerSrc WORKER_URL)
                   (effects g ++ [e])%list).
  { intros e He. apply Forall_app. split; [exact Heff | now constructor]. }
  destruct pc; cbn [stepCall].
  - destruct (initialized g); [|destruct (hasWindow host)]; cbn [negb fst snd effects workerSrc];
      specialize (Ca Returned pcs cid Entry Hn) as Ca1;
      specialize (Ce Returned pcs cid Entry Hn) as Ce1;
      specialize (Ca AwaitingImport pcs cid Entry Hn) as Ca2;
      specialize (Ce AwaitingImport pcs cid Entry Hn) as Ce2;
      cbn in Ca1, Ce1, Ca2, Ce2;
      rewrite ?filter_app, ?List.length_app, ?length_setNth; cbn;
      repeat split; auto; lia.
  - specialize (Ca Returned pcs cid AwaitingImport Hn) as Ca1.
    specialize (Ce Returned pcs cid AwaitingImport Hn) as Ce1.
    destruct (importResult host cid) as [u|e]; cbn [fst snd effects workerSrc].
    + cbn in Ca1, Ce1.
      rewrite ?filter_app, ?List.length_app, ?length_setNth; cbn;
        repeat split; auto; lia.
    + specialize (Ca (Rejected e) pcs cid AwaitingImport Hn) as Ca2.
      specialize (Ce (Rejected e) pcs cid AwaitingImport Hn) as Ce2.
      cbn in Ca2, Ce2. rewrite ?length_setNth. repeat split; auto; lia.
  - specialize (Ca Returned pcs cid Returned Hn) as Ca1.
    specialize (Ce Returned pcs cid Returned Hn) as Ce1.
    cbn in Ca1, Ce1. cbn [fst snd]. rewrite ?length_setNth. repeat split; auto; lia.
  - specialize (Ca (Rejected e) pcs cid (Rejected e) Hn) as Ca1.
    specialize (Ce (Rejected e) pcs cid (Rejected e) Hn) as Ce1.
    cbn in Ca1, Ce1. cbn [fst snd]. rewrite ?length_setNth. repeat split; auto; lia.
Qed.

Lemma run_accounted (schedule : list nat) : forall sys,
  accounted sys ->
  accounted (run host schedule sys) /\
  List.length (snd (run host schedule sys)) = List.length (snd sys).
Proof.
  induction schedule as [|cid rest IH]; intros sys Hsys; [auto|].
  destruct (resume_accounted sys cid Hsys) as [H1 H2].
  destruct (IH _ H1) as [H3 H4]. cbn [run fold_left].
  fold (run host rest (resume host sys cid)). split; [exact H3 | congruence].
Qed.

(** X20.  However many calls are made and however they interleave, each
    call imports the library at most once and writes [workerSrc] only
    after an import of its own: the writes never outnumber the imports,
    nor the imports the calls; and [workerSrc] is only ever written with
    the URL of the pinned version. *)
Theorem ensurePdfjsWorker_accounts (calls : nat) (schedule : list nat) :
  writes (run host schedule (initial calls)) <= imports (run host schedule (initial calls)) /\
  imports (run host schedule (initial calls)) <= calls /\
  Forall (fun e => e = Import \/ e = WriteWorkerSrc WORKER_URL)
         (effects (fst (run host schedule (initial calls)))) /\
  (workerSrc (fst (run host schedule (initial calls))) = None \/
   workerSrc (fst (run host schedule (initial calls))) = Some WORKER_URL).
Proof.
  destruct (run_accounted schedule (initial calls)) as [[Hw [Hi [He Hs]]] Hl].
  { unfold accounted, initial, imports, writes, awaiting, notStarted.
    cbn [fst snd effects workerSrc filter List.length Nat.add].
    assert (Ha : List.length (filter isAwaiting (repeat Entry calls)) = 0)
      by (clear; induction calls as [|n IH]; cbn; auto).
    rewrite Ha. repeat split; auto. apply filter_length_le. }
  unfold initial in Hl at 2. cbn [snd] in Hl. rewrite repeat_length in Hl.
  repeat split; auto; lia.
Qed.

Lemma resume_sticky (sys : System) (cid : nat) :
  initialized (fst sys) = true -> workerSrc (fst sys) = Some WORKER_URL ->
  initialized (fst (resume host sys cid)) = true /\
  workerSrc (fst (resume host sys cid)) = Some WORKER_URL.
Proof.
  destruct sys as [g pcs]. unfold resume. cbn [fst snd]. intros Hi Hs.
  destruct (nth_error pcs cid) as [pc|]; [|auto].
  destruct pc; cbn [stepCall]; rewrite ?Hi; cbn [fst]; auto.
  destruct (importResult host cid); cbn [fst]; auto.
Qed.

(** X21.  The flag never comes down: once a call has configured the
    worker, the flag stays up and [workerSrc] stays the pinned URL,
    whatever calls follow and however they interleave. *)
Theorem ensurePdfjsWorker_flag_sticky (schedule : list nat) : forall sys,
  initialized (fst sys) = true ->
  workerSrc (fst sys) = Some WORKER_URL ->
  initialized (fst (run host schedule sys)) = true /\
  workerSrc (fst (run host schedule sys)) = Some WORKER_URL.
Proof.
  induction schedule as [|cid rest IH]; intros sys Hi Hs; [auto|].
  destruct (resume_sticky sys cid Hi Hs) as [H1 H2].
  exact (IH _ H1 H2).
Qed.

Lemma resume_no_window (g : Global) (pcs : list Pc) (cid : nat) :
  hasWindow host = false -> initialized g = false -> Forall settled pcs ->
  resume host (g, pcs) cid = (g, setNth cid Returned pcs).
Proof.
  intros Hw Hi Hs. unfold resume. cbn [fst snd].
  destruct (nth_error pcs cid) as [pc|] eqn:Hn.
  - assert (Hpc : settled pc).
    { apply (proj1 (Forall_forall settled pcs) Hs). eapply nth_error_In; eauto. }
    destruct Hpc as [-> | ->]; cbn [stepCall]; [now rewrite Hi, Hw | reflexivity].
  - now rewrite setNth_beyond.
Qed.

Lemma run_no_window (schedule : list nat) : forall g pcs,
  hasWindow host = false -> initialized g = false -> Forall settled pcs ->
  fst (run host schedule (g, pcs)) = g /\
  Forall settled (snd (run host schedule (g, pcs))).
Proof.
  induction schedule as [|cid rest IH]; intros g pcs Hw Hi Hs; [auto|].
  cbn [run fold_left]. rewrite (resume_no_window g pcs cid Hw Hi Hs).
  apply IH; auto. apply Forall_setNth; [now right | exact Hs].
Qed.

(** X22.  Where there is no [window] (the module evaluated on the
    server), no call imports the library or writes anything, in any
    number and any order: the module state stays as it was loaded, and
    every call that ran simply returned. *)
Theorem ensurePdfjsWorker_no_window (calls : nat) (schedule : list nat) :
  hasWindow host = false ->
  fst (run host schedule (initial calls)) = mkGlobal false None [] /\
  Forall settled (snd (run host schedule (initial calls))).
Proof.
  intros Hw. apply run_no_window; auto.
  apply Forall_forall. intros pc Hpc. apply repeat_spec in Hpc. now left.
Qed.

(** X23.  A failed import is not remembered: the call rejects with the
    import's error and leaves the flag down and [workerSrc] unwritten, and
    the next call imports again and, its import resolving, configures the
    worker. *)
Theorem ensurePdfjsWorker_retries_after_failure (e : JsErr) :
  hasWindow host = true ->
  importResult host 0 = Err e ->
  importResult host 1 = Ok tt ->
  run host [0; 0] (initial 2) =
    (mkGlobal false None [Import], [Rejected e; Entry]) /\
  run host [0; 0; 1; 1] (initial 2) =
    (mkGlobal true (Some WORKER_URL) [Import; Import; WriteWorkerSrc WORKER_URL],
     [Rejected e; Returned]).
Proof.
  intros Hw H0 H1.
  unfold run, initial, resume. cbn.
  repeat (first [rewrite Hw | rewrite H0 | rewrite H1]; cbn).
  split; reflexivity.
Qed.

End BootstrapAccounts.

Lemma ensurePdfjsWorker_flag_sticky_witness :
  PdfjsWorker.initialized
    (fst (PdfjsWorker.run flaky_browser [1; 0; 1; 0; 2]
            (PdfjsWorker.run browser [0; 0] (PdfjsWorker.initial 3)))) = true /\
  PdfjsWorker.workerSrc
    (fst (PdfjsWorker.run flaky_browser [1; 0; 1; 0; 2]
            (PdfjsWorker.run browser [0; 0] (PdfjsWorker.initial 3))))
    = Some PdfjsWorker.WORKER_URL.
Proof.
  exact (ensurePdfjsWorker_flag_sticky flaky_browser [1; 0; 1; 0; 2]
           (PdfjsWorker.run browser [0; 0] (PdfjsWorker.initial 3)) eq_refl eq_refl).
Defined.

Lemma ensurePdfjsWorker_no_window_witness :
  fst (PdfjsWorker.run server_host [0; 1; 0; 1] (PdfjsWorker.initial 2))
    = PdfjsWorker.mkGlobal false None [] /\
  Forall settled (snd (PdfjsWorker.run server_host [0; 1; 0; 1] (PdfjsWorker.initial 2))).
Proof.
  exact (ensurePdfjsWorker_no_window server_host 2 [0; 1; 0; 1] eq_refl).
Defined.

Lemma ensurePdfjsWorker_retries_after_failure_witness :
  PdfjsWorker.run flaky_browser [0; 0] (PdfjsWorker.initial 2) =
    (PdfjsWorker.mkGlobal false None [PdfjsWorker.Import],
     [PdfjsWorker.Rejected network_error; PdfjsWorker.Entry]) /\
  PdfjsWorker.run flaky_browser [0; 0; 1; 1] (PdfjsWorker.initial 2) =
    (PdfjsWorker.mkGlobal true (Some PdfjsWorker.WORKER_URL)
       [PdfjsWorker.Import; PdfjsWorker.Import;
        PdfjsWorker.WriteWorkerSrc PdfjsWorker.WORKER_URL],
     [PdfjsWorker.Rejected network_error; PdfjsWorker.Returned]).
Proof.
  exact (ensurePdfjsWorker_retries_after_failure flaky_browser network_error
           eq_refl eq_refl eq_refl).
Defined.

(** ** The earlier copy of the component *)

Section LegacyCopy.

Variable env : Env.

Lemma legacy_pagesLoop_readable (pdf : PdfDoc) (frags : nat -> list TextItem) :
  forall remaining i acc,
  (forall j, i <= j < i + remaining -> pageHolds pdf j (frags j)) ->
  outcome (Legacy.pagesLoop pdf remaining i acc) =
  Ok (acc ++ concatAll (map (fun j => legacyPageText (frags j)) (seq i remaining))).
Proof.
  induction remaining as [|k IH]; intros i acc Hpages.
  - simpl. now rewrite string_app_empty_r.
  - destruct (Hpages i ltac:(lia)) as [page [Hp Hc]].
    cbn [Legacy.pagesLoop]. rewrite outcome_bind. cbn [call outcome snd]. rewrite Hp.
    rewrite outcome_bind. cbn [call outcome snd]. rewrite Hc.
    rewrite IH by (intros j Hj; apply Hpages; lia).
    cbn [seq map concatAll fold_right]. unfold legacyPageText at 2.
    now rewrite string_app_assoc.
Qed.

Lemma legacy_pagesLoop_no_open (pdf : PdfDoc) :
  forall remaining i acc,
    quiet (fun ev => match ev with EvGetDocument d => [d] | _ => [] end)
          (Legacy.pagesLoop pdf remaining i acc).
Proof.
  induction remaining as [|k IH]; intros i acc; [reflexivity|].
  cbn [Legacy.pagesLoop]. apply quiet_bind; [now apply quiet_call|]. intros page.
  apply quiet_bind; [now apply quiet_call|]. intros content. apply IH.
Qed.

(** X24.  In the earlier copy, a file declared [application/pdf] whose
    document opens and whose pages can be read is extracted as the pages'
    texts run together: each page's fragments joined with a space, with
    nothing between one page and the next and nothing trimmed. *)
Theorem legacy_extract_pdf (file : File) (data : bytes) (pdf : PdfDoc)
    (frags : nat -> list TextItem) :
  type file = MIME_PDF ->
  arrayBuffer file = Ok data ->
  getDocument env data false = Ok pdf ->
  (forall i, 1 <= i <= numPages pdf -> pageHolds pdf i (frags i)) ->
  outcome (Legacy.extractTextFromFile env file) =
    Ok (concatAll (map (fun i => legacyPageText (frags i)) (seq 1 (numPages pdf)))).
Proof.
  intros Htype Hbuf Hopen Hpages.
  unfold Legacy.extractTextFromFile, Legacy.classify.
  rewrite Htype. cbn [String.eqb].
  change (String.eqb MIME_PDF MIME_PDF) with true. cbv iota.
  rewrite outcome_bind. cbn [call outcome snd]. rewrite Hbuf.
  rewrite outcome_bind. cbn [call outcome snd]. rewrite Hopen.
  rewrite (legacy_pagesLoop_readable pdf frags) by (intros j Hj; apply Hpages; lia).
  reflexivity.
Qed.

(** X25.  The earlier copy opens a document at most once and never with
    the worker disabled; when that one attempt fails, be it with a worker
    mismatch, extraction rejects with its error: there is no second
    attempt. *)
Theorem legacy_no_retry (file : File) :
  (openAttempts (trace (Legacy.extractTextFromFile env file)) = [] \/
   openAttempts (trace (Legacy.extractTextFromFile env file)) = [false]) /\
  (forall data e,
     type file = MIME_PDF ->
     arrayBuffer file = Ok data ->
     getDocument env data false = Err e ->
     outcome (Legacy.extractTextFromFile env file) = Err e /\
     openAttempts (trace (Legacy.extractTextFromFile env file)) = [false]).
Proof.
  split.
  - unfold Legacy.extractTextFromFile.
    rewrite trace_bind, openAttempts_app. cbn [call trace fst outcome snd].
    destruct (arrayBuffer file) as [data|e]; [|now left].
    destruct (Legacy.classify file).
    + rewrite trace_bind, openAttempts_app. cbn [call trace fst outcome snd].
      destruct (getDocument env data false) as [pdf|e]; [|now right].
      right. pose proof (legacy_pagesLoop_no_open pdf (numPages pdf) 1 "") as Hq.
      unfold quiet in Hq. unfold openAttempts at 3. rewrite Hq. reflexivity.
    + left. rewrite trace_bind, openAttempts_app. cbn [call trace fst outcome snd].
      destruct (extractRawText env data); reflexivity.
    + now left.
    + now left.
  - intros data e Htype Hbuf Hopen.
    unfold Legacy.extractTextFromFile, Legacy.classify, bind, call.
    rewrite Htype. change (String.eqb MIME_PDF MIME_PDF) with true. cbv iota.
    rewrite Hbuf, Hopen. split; reflexivity.
Qed.

End LegacyCopy.

Lemma legacy_extract_pdf_witness :
  outcome (Legacy.extractTextFromFile plain_env paper_pdf) = Ok "Hello worldbye".
Proof.
  refine (legacy_extract_pdf plain_env paper_pdf [] sample_doc sample_frags
            eq_refl eq_refl eq_refl _).
  intros i Hi. unfold pageHolds. eexists; split; reflexivity.
Defined.

(** ** What processing shows to the user *)

Section ProcessingTrace.

Import DocChat.

Variable env : Env.

Lemma promiseAll_trace {A} (ps : list (M A)) :
  trace (promiseAll ps) = concat (map trace ps).
Proof.
  induction ps as [|[t r] ps IH]; [reflexivity|].
  cbn [promiseAll map concat]. destruct (promiseAll ps) as [t2 r2].
  cbn [trace fst] in *. now rewrite IH.
Qed.

(** The handler's calls, as the model lays them out. *)
Lemma handleProcessDocuments_events (st : State) :
  files st <> [] ->
  events (handleProcessDocuments env st) =
    (concat (map (fun file => trace (extractTextFromFile env file)) (files st)) ++
     match outcome (promiseAll (extractions env st)) with
     | Ok _ => [EvRandomUUID]
     | Err e =>
         [EvConsoleError "[v0] Error processing files:" e;
          EvAlert "Error processing files. Check the console for details."]
     end)%list.
Proof.
  intros Hne.
  rewrite <- (map_map (extractTextFromFile env) trace).
  fold (extractions env st). rewrite <- promiseAll_trace.
  unfold handleProcessDocuments, handleProcessDocumentsWith.
  destruct (files st) as [|f fs] eqn:Hf; [congruence|].
  cbn [List.length Nat.ltb Nat.leb negb].
  unfold consoleError.
  unfold hbind, hFinally, hTryCatch, lift, setIsSending, setKnowledgeBase,
    setIsReady, setMessages, newIdWith, secure, call.
  cbn [fst snd files knowledgeBase isReady messages input isSending uuidCount].
  unfold extractions. rewrite Hf.
  destruct (promiseAll (map (extractTextFromFile env) (f :: fs))) as [t [texts|e]];
    cbn [events trace outcome fst snd app]; now rewrite ?app_nil_r.
Qed.

Lemma promiseAll_error_origin {A} (ps : list (M A)) (e : JsErr) :
  outcome (promiseAll ps) = Err e -> exists p, In p ps /\ outcome p = Err e.
Proof.
  induction ps as [|p ps IH]; [discriminate|].
  rewrite promiseAll_cons.
  destruct (outcome p) as [a|e1] eqn:Hp.
  - destruct (outcome (promiseAll ps)) as [l|e2]; [discriminate|].
    intros [= <-]. destruct (IH eq_refl) as [q [Hq Ho]]. exists q. split; [now right | exact Ho].
  - intros [= <-]. exists p. split; [now left | exact Hp].
Qed.

Lemma promiseAll_ok_iff {A} (ps : list (M A)) :
  isOk (outcome (promiseAll ps)) = forallb (fun p => isOk (outcome p)) ps.
Proof.
  induction ps as [|p ps IH]; [reflexivity|].
  rewrite promiseAll_cons. cbn [forallb]. rewrite <- IH.
  destruct (outcome p), (outcome (promiseAll ps)); reflexivity.
Qed.

Lemma extract_no_alert (file : File) :
  alerts (trace (extractTextFromFile env file)) = [] /\
  loggedUnder "[v0] Error processing files:" (trace (extractTextFromFile env file)) = [].
Proof.
  split.
  - apply (extractTextFromFile_quiet env
             (fun ev => match ev with EvAlert text => [text] | _ => [] end));
      intros; reflexivity.
  - apply (extractTextFromFile_quiet env
             (fun ev => match ev with
                        | EvConsoleError l e =>
                            if String.eqb l "[v0] Error processing files:" then [e] else []
                        | _ => []
                        end)); intros; reflexivity.
Qed.

Lemma concat_quiet {B} (f : Event -> list B) (ts : list Trace) :
  (forall t, In t ts -> flat_map f t = []) -> flat_map f (concat ts) = [].
Proof.
  induction ts as [|t ts IH]; intros H; [reflexivity|].
  cbn [concat]. rewrite flat_map_app, (H t (or_introl eq_refl)).
  apply IH. intros t' Ht'. apply H. now right.
Qed.


End ProcessingTrace.

